(** * POS front-end: category resolver, variant matrix, cart, pricing

    A shallow embedding of the client-side logic of the point-of-sale
    front-end (TypeScript / React) and the properties its specification
    states about it.

    Conventions of the embedding.
    - A JavaScript [number] is an IEEE 754 binary64 value: Rocq's primitive
      [float].  [a < b] is [a <? b], [a >= b] is [b <=? a], [a === b] on
      numbers is [a =? b] (so [NaN] differs from itself and [+0 === -0]).
    - A JavaScript string is a [string]; an optional field ([f?: T]) or a
      value that may be [undefined] is an [option].
    - React component state read by a handler ([cart], [products],
      [categories], [variants], the form values behind [watch]) is an explicit
      argument; what a handler does ([setCart], [toast.error],
      [toast.success]) is the list of effects it returns, in program order.
    - [arr.forEach(body)] and [arr.reduce(step, init)] are left folds that
      thread the array being built; [acc.push(x)] is [acc ++ [x]].
    - The text [JSON.stringify] writes is kept by its structure: the members
      of an object in order, [null] for a Number that is not finite. *)

From Stdlib Require Import Bool List Ascii String ZArith QArith Qround Floats Lia.
From Stdlib Require Uint63.
Import ListNotations.
Close Scope Q_scope.

Set Warnings "-register-all".

(** ** JavaScript values *)

Module JS.

Definition number := float.

(** [Boolean(s)] for a string. *)
Definition truthy_string (s : string) : bool := negb (s =? "")%string.

(** [Boolean(x)] for a value of type [string | undefined]. *)
Definition truthy_ostring (x : option string) : bool :=
  match x with
  | Some s => truthy_string s
  | None => false
  end.

(** [Boolean(x)] for a number: [0], [-0] and [NaN] are falsy. *)
Definition truthy_number (x : number) : bool :=
  negb (PrimFloat.is_zero x || PrimFloat.is_nan x).

(** [a || b] where [a] and [b] are of type [string | undefined]. *)
Definition or_ostring (a b : option string) : option string :=
  if truthy_ostring a then a else b.

(** [s || d] for strings. *)
Definition or_string (s d : string) : string :=
  if truthy_string s then s else d.

(** [a || d] where [a] is of type [number | undefined] and [d] a number. *)
Definition or_number (a : option number) (d : number) : number :=
  match a with
  | Some x => if truthy_number x then x else d
  | None => d
  end.

(** [x === s] where [x] is of type [string | undefined] and [s] a string. *)
Definition ostring_eqb (x : option string) (s : string) : bool :=
  match x with
  | Some v => (v =? s)%string
  | None => false
  end.

(** [x && f(x)] where [x] is of type [string | undefined]: the falsy [x]
    itself ([undefined] or the empty string), else [f x]. *)
Definition and_then (x : option string) (f : string -> string) : option string :=
  match x with
  | Some v => if truthy_string v then Some (f v) else Some v
  | None => None
  end.

(** [arr.filter(Boolean)] on an array of [string | undefined]. *)
Fixpoint filter_Boolean (arr : list (option string)) : list string :=
  match arr with
  | [] => []
  | Some s :: rest =>
      if truthy_string s then s :: filter_Boolean rest else filter_Boolean rest
  | None :: rest => filter_Boolean rest
  end.

(** [arr.join(sep)] on an array of strings. *)
Definition join (sep : string) (arr : list string) : string :=
  String.concat sep arr.

(** [acc.push(x)], as the array after the call. *)
Definition push {A : Type} (acc : list A) (x : A) : list A := acc ++ [x].

(** [arr.forEach(body)] where [body] updates the array [acc]. *)
Definition forEach {A S : Type} (arr : list A) (body : A -> S -> S) (acc : S) : S :=
  fold_left (fun acc x => body x acc) arr acc.

(** [arr.reduce(step, init)]. *)
Definition reduce {A S : Type} (arr : list A) (step : S -> A -> S) (init : S) : S :=
  fold_left step arr init.

(** [Math.round(x)] (ECMA-262): [x] itself when it is not finite or already
    an integer; otherwise the integer closest to [x], the one towards
    +infinity on a tie, with [-0] for [x] in [[-0.5, -0)].  A finite non-zero
    binary64 value is [(-1)^s * m * 2^e]; for [e < 0] the result
    [floor(x + 1/2)] is computed on integers and is below [2^53], hence
    exact. *)
Definition Math_round (x : number) : number :=
  match Prim2SF x with
  | S754_finite s m e =>
      if (0 <=? e)%Z then x
      else
        let d := (2 ^ (- e))%Z in
        let v := if s then Z.neg m else Z.pos m in
        let n := ((2 * v + d) / (2 * d))%Z in
        if (n =? 0)%Z then (if s then (-0)%float else 0%float)
        else if (n <? 0)%Z then (- PrimFloat.of_uint63 (Uint63.of_Z (- n)))%float
        else PrimFloat.of_uint63 (Uint63.of_Z n)
  | _ => x
  end.

(** [s.includes(searchString)] on strings: [searchString] occurs in [s]. *)
Fixpoint includes (s searchString : string) : bool :=
  String.prefix searchString s
  || match s with
     | EmptyString => false
     | String _ rest => includes rest searchString
     end.

(** [arr.includes(x)] on an array of strings. *)
Definition array_includes (arr : list string) (x : string) : bool :=
  existsb (fun y => (y =? x)%string) arr.

(** [arr.filter((_, i) => i !== index)], the positions counted from [from]. *)
Fixpoint filter_not_index_from {A : Type} (from : nat) (arr : list A) (index : nat)
    : list A :=
  match arr with
  | [] => []
  | x :: rest =>
      if (from =? index)%nat then filter_not_index_from (S from) rest index
      else x :: filter_not_index_from (S from) rest index
  end.

Definition filter_not_index {A : Type} (arr : list A) (index : nat) : list A :=
  filter_not_index_from 0 arr index.

(** A plain object with string values, as the list of its own properties,
    each key once (only lookups are made in it). *)
Definition object := list (string * string).

(** [obj[key]] for an own property. *)
Definition get_property (obj : object) (key : string) : option string :=
  option_map snd (find (fun property => (fst property =? key)%string) obj).

(** [obj[key] = value] on an object created by [{}] and a string [value]:
    the property is overwritten or created, except that the key
    [__proto__] reaches the prototype setter, which ignores a string. *)
Fixpoint set_own_property (obj : object) (key value : string) : object :=
  match obj with
  | [] => [(key, value)]
  | property :: rest =>
      if (fst property =? key)%string then (key, value) :: rest
      else property :: set_own_property rest key value
  end.

Definition set_property (obj : object) (key value : string) : object :=
  if (key =? "__proto__")%string then obj else set_own_property obj key value.

End JS.

(** ** Data model (src/API/types.ts) *)

Module ProductVariant.

Record t : Type := mk {
  id : string;
  color : option string;
  ram : option string;
  storage : option string;
  purchasedPrice : JS.number;
  sellingPrice : JS.number;
  stock : JS.number
}.

End ProductVariant.

(** The fields of [Product] that the modelled handlers read.  [variants] is
    declared non-optional, but [addToCart] and [updateQuantity] guard against
    its absence ([product.variants && product.variants[0]]), hence the
    [option]. *)
Module Product.

Record t : Type := mk {
  _id : option string;
  id : option string;
  name : string;
  mainCategory : string;
  subCategory : option string;
  subSubCategory : option string;
  variants : option (list ProductVariant.t)
}.

End Product.

Module Category.

Inductive t : Type := mk {
  id : string;
  name : string;
  level : JS.number;
  parentId : option string;
  subCategories : list t
}.

(** The nodes of a category's subtree in document order: the node, then
    the subtrees of its children from first to last (pre-order). *)
Fixpoint nodes (c : t) : list t :=
  c :: flat_map nodes (subCategories c).

(** The nodes of a forest (the [categories] state) in document order. *)
Definition forest_nodes (cats : list t) : list t := flat_map nodes cats.

(** The nodes of a forest whose [level] is [targetLevel], in document
    order. *)
Definition at_level (targetLevel : JS.number) (cats : list t) : list t :=
  filter (fun c => (level c =? targetLevel)%float) (forest_nodes cats).

End Category.

(** ** Category hierarchy resolver (products page) *)

Module ProductsPage.

(** The first result that [f] yields over [l]: a [for..of] loop whose body
    returns as soon as it has found something. *)
Fixpoint first_some {A B : Type} (f : A -> option B) (l : list A) : option B :=
  match l with
  | [] => None
  | x :: rest =>
      match f x with
      | Some y => Some y
      | None => first_some f rest
      end
  end.

Section IsProductInCategory.

Variable categories : list Category.t.
Variable product : Product.t.
Variable categoryId : string.

(** One iteration of the loop of [findCategory]: the category itself if its
    id is [categoryId], else what the search among its [subCategories]
    finds ([subCategories] is an array, hence truthy, and a found category
    is an object, hence truthy). *)
Fixpoint findCategory_visit (cat : Category.t) : option Category.t :=
  if (Category.id cat =? categoryId)%string then Some cat
  else first_some findCategory_visit (Category.subCategories cat).

Definition findCategory (cats : list Category.t) : option Category.t :=
  first_some findCategory_visit cats.

Fixpoint isInHierarchy (category : Category.t) : bool :=
  if (Product.mainCategory product =? Category.id category)%string then true
  else if JS.ostring_eqb (Product.subCategory product) (Category.id category) then true
  else if JS.ostring_eqb (Product.subSubCategory product) (Category.id category) then true
  else existsb isInHierarchy (Category.subCategories category) || false.

Definition isProductInCategory : bool :=
  if negb (JS.truthy_string categoryId) then true
  else if (Product.mainCategory product =? categoryId)%string then true
  else if JS.ostring_eqb (Product.subCategory product) categoryId then true
  else if JS.ostring_eqb (Product.subSubCategory product) categoryId then true
  else
    match findCategory categories with
    | None => false
    | Some selectedCategory => isInHierarchy selectedCategory
    end.

End IsProductInCategory.

(** [cid] is the value of one of the product's three category fields. *)
Definition references (product : Product.t) (cid : string) : Prop :=
  Product.mainCategory product = cid \/
  Product.subCategory product = Some cid \/
  Product.subSubCategory product = Some cid.

Definition referencesb (product : Product.t) (cid : string) : bool :=
  (Product.mainCategory product =? cid)%string
  || JS.ostring_eqb (Product.subCategory product) cid
  || JS.ostring_eqb (Product.subSubCategory product) cid.

(** The node "with id [cid]" of a forest: the first one in document order. *)
Definition node_with_id (cid : string) (cats : list Category.t) : option Category.t :=
  find (fun c => (Category.id c =? cid)%string) (Category.forest_nodes cats).

(** *** The product list of the page *)

(** [filteredProducts]: the products whose name or main category contains
    the search query, case folded by [toLowerCase] (the built-in, taken as
    given), and which are in the selected category. *)
Definition filteredProducts (toLowerCase : string -> string)
    (products : list Product.t) (categories : list Category.t)
    (searchQuery selectedCategory : string) : list Product.t :=
  filter (fun product =>
            (JS.includes (toLowerCase (Product.name product)) (toLowerCase searchQuery)
             || JS.includes (toLowerCase (Product.mainCategory product))
                  (toLowerCase searchQuery))
            && isProductInCategory categories product selectedCategory)
         products.

(** No two nodes of the forest carry the same id. *)
Definition unique_ids (cats : list Category.t) : Prop :=
  NoDup (map Category.id (Category.forest_nodes cats)).

End ProductsPage.

(** ** Parent candidates (src/app/categories/manage/page.tsx) *)

Module ManageCategories.

(** The reducer of [flatten], with the recursive call on the children
    folded in: [flatten cats targetLevel] is [cats.reduce(step, [])].  The
    source's guards against a missing array or a null entry ([!cats],
    [Array.isArray], [!cat], [cat.subCategories &&]) never fire on a value of
    type [Category[]], whose [subCategories] are arrays of categories. *)
Fixpoint flatten_step (targetLevel : JS.number) (acc : list Category.t)
    (cat : Category.t) : list Category.t :=
  let acc :=
    if (Category.level cat =? targetLevel)%float then JS.push acc cat else acc in
  acc ++ JS.reduce (Category.subCategories cat) (flatten_step targetLevel) [].

Definition flatten (cats : list Category.t) (targetLevel : JS.number) : list Category.t :=
  JS.reduce cats (flatten_step targetLevel) [].

Definition getAvailableParentCategories (categories : list Category.t)
    (level : JS.number) : list Category.t :=
  if (level =? 1)%float then []
  else flatten categories (level - 1)%float.

(** [toggleCategory(categoryId)]: the next value of [expandedCategories].
    A [Set<string>] is the list of its elements in insertion order, without
    repetition: [has] is membership, [delete] drops the element, [add] of an
    absent element appends it. *)
Definition toggleCategory (prev : list string) (categoryId : string) : list string :=
  let next := prev in
  if JS.array_includes next categoryId
  then filter (fun x => negb (x =? categoryId)%string) next
  else next ++ [categoryId].

End ManageCategories.

(** ** Parent candidates (categories page) *)

Module CategoriesPage.

(** The reducer of [flattenCategories], which spreads the accumulator, the
    matching category and the flattened children into a new array. *)
Fixpoint flattenCategories_step (level : JS.number) (acc : list Category.t)
    (cat : Category.t) : list Category.t :=
  if (Category.level cat =? level)%float
  then acc ++ [cat] ++ JS.reduce (Category.subCategories cat) (flattenCategories_step level) []
  else acc ++ JS.reduce (Category.subCategories cat) (flattenCategories_step level) [].

Definition flattenCategories (cats : list Category.t) (level : JS.number) : list Category.t :=
  JS.reduce cats (flattenCategories_step level) [].

Definition getAvailableParentCategories (categories : list Category.t)
    (selectedLevel : JS.number) : list Category.t :=
  if (selectedLevel =? 1)%float then []
  else flattenCategories categories (selectedLevel - 1)%float.

End CategoriesPage.

(** A row of the specifications editor: [{ key: string; value: string }]. *)
Module Specification.

Record t : Type := mk {
  key : string;
  value : string
}.

End Specification.

(** ** Variant matrix generator (new product page) *)

Module NewProductPage.

(** The three form values that [generateVariants] reads through [watch];
    a field that has not been filled in is [undefined]. *)
Record FormValues : Type := mkForm {
  basePrice : option JS.number;
  purchasedPrice : option JS.number;
  sellingPrice : option JS.number
}.

(** The [id] computed by [addVariant]. *)
Definition variantId (color ram storage : option string) : string :=
  JS.or_string
    (JS.join "-"%string
       (JS.filter_Boolean
          [ JS.and_then color (fun color => "color-" ++ color)%string;
            JS.and_then ram (fun ram => "ram-" ++ ram)%string;
            JS.and_then storage (fun storage => "storage-" ++ storage)%string ]))
    "default"%string.

(** The body of [generateVariants] once the two default prices are known:
    the array [newVariants] it builds. *)
Definition generateVariants_body (colors rams storages : list string)
    (purchasedPrice sellingPrice : JS.number) : list ProductVariant.t :=
  let newVariants : list ProductVariant.t := [] in
  if ((List.length colors =? 0) && (List.length rams =? 0) && (List.length storages =? 0))%nat then
    JS.push newVariants
      (ProductVariant.mk "default"%string None None None purchasedPrice sellingPrice 0%float)
  else
    let addVariant (color ram storage : option string) (newVariants : list ProductVariant.t) :=
      let id := variantId color ram storage in
      JS.push newVariants
        (ProductVariant.mk id color ram storage purchasedPrice sellingPrice 0%float) in
    if (0 <? List.length colors)%nat then
      JS.forEach colors (fun color newVariants =>
        if (0 <? List.length rams)%nat then
          JS.forEach rams (fun ram newVariants =>
            if (0 <? List.length storages)%nat then
              JS.forEach storages (fun storage newVariants =>
                addVariant (Some color) (Some ram) (Some storage) newVariants)
                newVariants
            else
              addVariant (Some color) (Some ram) None newVariants)
            newVariants
        else if (0 <? List.length storages)%nat then
          JS.forEach storages (fun storage newVariants =>
            addVariant (Some color) None (Some storage) newVariants)
            newVariants
        else
          addVariant (Some color) None None newVariants)
        newVariants
    else if (0 <? List.length rams)%nat then
      JS.forEach rams (fun ram newVariants =>
        if (0 <? List.length storages)%nat then
          JS.forEach storages (fun storage newVariants =>
            addVariant None (Some ram) (Some storage) newVariants)
            newVariants
        else
          addVariant None (Some ram) None newVariants)
        newVariants
    else if (0 <? List.length storages)%nat then
      JS.forEach storages (fun storage newVariants =>
        addVariant None None (Some storage) newVariants)
        newVariants
    else newVariants.

(** [generateVariants(colors, rams, storages)]: the value it stores with
    [setVariants] and [setValue('variants', _)]. *)
Definition generateVariants (watch : FormValues) (colors rams storages : list string)
    : list ProductVariant.t :=
  let basePrice := JS.or_number (basePrice watch) 0%float in
  let purchasedPrice := JS.or_number (purchasedPrice watch) 0%float in
  let sellingPrice := JS.or_number (sellingPrice watch) basePrice in
  generateVariants_body colors rams storages purchasedPrice sellingPrice.

(** The [field] argument of [updateVariant]. *)
Inductive VariantField : Type :=
| field_purchasedPrice
| field_sellingPrice
| field_stock.

(** [{ ...variant, [field]: value }]. *)
Definition with_field (variant : ProductVariant.t) (field : VariantField)
    (value : JS.number) : ProductVariant.t :=
  match field with
  | field_purchasedPrice =>
      ProductVariant.mk (ProductVariant.id variant) (ProductVariant.color variant)
        (ProductVariant.ram variant) (ProductVariant.storage variant)
        value (ProductVariant.sellingPrice variant) (ProductVariant.stock variant)
  | field_sellingPrice =>
      ProductVariant.mk (ProductVariant.id variant) (ProductVariant.color variant)
        (ProductVariant.ram variant) (ProductVariant.storage variant)
        (ProductVariant.purchasedPrice variant) value (ProductVariant.stock variant)
  | field_stock =>
      ProductVariant.mk (ProductVariant.id variant) (ProductVariant.color variant)
        (ProductVariant.ram variant) (ProductVariant.storage variant)
        (ProductVariant.purchasedPrice variant) (ProductVariant.sellingPrice variant) value
  end.

(** [variant[field]]. *)
Definition get_field (variant : ProductVariant.t) (field : VariantField) : JS.number :=
  match field with
  | field_purchasedPrice => ProductVariant.purchasedPrice variant
  | field_sellingPrice => ProductVariant.sellingPrice variant
  | field_stock => ProductVariant.stock variant
  end.

(** [updateVariant(variantId, field, value)] on the [variants] state: the
    value it stores with [setVariants] and [setValue('variants', _)]. *)
Definition updateVariant (variants : list ProductVariant.t) (variantId : string)
    (field : VariantField) (value : JS.number) : list ProductVariant.t :=
  map (fun variant =>
         if (ProductVariant.id variant =? variantId)%string
         then with_field variant field value
         else variant)
      variants.

(** *** Reference definitions for the combination matrix *)

(** The values an axis ranges over: those of its list, or the single
    "no value" when the list is empty. *)
Definition axis (values : list string) : list (option string) :=
  match values with
  | [] => [None]
  | _ :: _ => map Some values
  end.

(** The number of values an axis contributes: the size of a non-empty list,
    and no factor (1) for an empty one. *)
Definition dimension (values : list string) : nat :=
  match values with
  | [] => 1
  | _ :: _ => List.length values
  end.

(** The Cartesian product over the axes, colors outermost and storages
    innermost. *)
Definition combinations (colors rams storages : list string)
    : list (option string * option string * option string) :=
  flat_map (fun color =>
    flat_map (fun ram =>
      map (fun storage => (color, ram, storage)) (axis storages))
      (axis rams))
    (axis colors).

(** The tag of an axis that has a value. *)
Definition tag (prefix : string) (value : option string) : list string :=
  match value with
  | Some v => [(prefix ++ v)%string]
  | None => []
  end.

(** The tags of the axes that have a value, joined in color, ram, storage
    order. *)
Definition joined_tags (color ram storage : option string) : string :=
  String.concat "-"%string
    (tag "color-"%string color ++ tag "ram-"%string ram ++ tag "storage-"%string storage).

(** An axis value, when there is one, is not the empty string. *)
Definition nonblank (value : option string) : Prop :=
  match value with
  | Some v => v <> ""%string
  | None => True
  end.

(** The variant [addVariant] pushes for one combination of axis values. *)
Definition variant_of (purchasedPrice sellingPrice : JS.number)
    (combination : option string * option string * option string) : ProductVariant.t :=
  let '(color, ram, storage) := combination in
  ProductVariant.mk (variantId color ram storage) color ram storage
    purchasedPrice sellingPrice 0%float.

(** The variant of a combination whose id is the joined tags. *)
Definition tagged_variant_of (purchasedPrice sellingPrice : JS.number)
    (combination : option string * option string * option string) : ProductVariant.t :=
  let '(color, ram, storage) := combination in
  ProductVariant.mk (joined_tags color ram storage) color ram storage
    purchasedPrice sellingPrice 0%float.

(** *** The option lists and the handlers that regenerate the variants *)

(** The page state that the option handlers read and write: the three option
    lists and the variants.  Each [setValue('availableOptions.x', list)] and
    [setValue('variants', list)] stores in the form the value the state
    receives. *)
Record PageState : Type := mkPageState {
  colorOptions : list string;
  ramOptions : list string;
  storageOptions : list string;
  variants : list ProductVariant.t
}.

(** The state the page starts in. *)
Definition initialState : PageState := mkPageState [] [] [] [].

(** [addColorOption()], [answer] being what [prompt] returns ([null] when
    the dialog is cancelled). *)
Definition addColorOption (watch : FormValues) (state : PageState)
    (answer : option string) : PageState :=
  match answer with
  | Some color =>
      if JS.truthy_string color && negb (JS.array_includes (colorOptions state) color)
      then
        let newColors := colorOptions state ++ [color] in
        mkPageState newColors (ramOptions state) (storageOptions state)
          (generateVariants watch newColors (ramOptions state) (storageOptions state))
      else state
  | None => state
  end.

Definition addRamOption (watch : FormValues) (state : PageState)
    (answer : option string) : PageState :=
  match answer with
  | Some ram =>
      if JS.truthy_string ram && negb (JS.array_includes (ramOptions state) ram)
      then
        let newRamOptions := ramOptions state ++ [ram] in
        mkPageState (colorOptions state) newRamOptions (storageOptions state)
          (generateVariants watch (colorOptions state) newRamOptions (storageOptions state))
      else state
  | None => state
  end.

Definition addStorageOption (watch : FormValues) (state : PageState)
    (answer : option string) : PageState :=
  match answer with
  | Some storage =>
      if JS.truthy_string storage
         && negb (JS.array_includes (storageOptions state) storage)
      then
        let newStorageOptions := storageOptions state ++ [storage] in
        mkPageState (colorOptions state) (ramOptions state) newStorageOptions
          (generateVariants watch (colorOptions state) (ramOptions state) newStorageOptions)
      else state
  | None => state
  end.

Definition removeColorOption (watch : FormValues) (state : PageState)
    (color : string) : PageState :=
  let newColors := filter (fun c => negb (c =? color)%string) (colorOptions state) in
  mkPageState newColors (ramOptions state) (storageOptions state)
    (generateVariants watch newColors (ramOptions state) (storageOptions state)).

Definition removeRamOption (watch : FormValues) (state : PageState)
    (ram : string) : PageState :=
  let newRamOptions := filter (fun r => negb (r =? ram)%string) (ramOptions state) in
  mkPageState (colorOptions state) newRamOptions (storageOptions state)
    (generateVariants watch (colorOptions state) newRamOptions (storageOptions state)).

Definition removeStorageOption (watch : FormValues) (state : PageState)
    (storage : string) : PageState :=
  let newStorageOptions :=
    filter (fun s => negb (s =? storage)%string) (storageOptions state) in
  mkPageState (colorOptions state) (ramOptions state) newStorageOptions
    (generateVariants watch (colorOptions state) (ramOptions state) newStorageOptions).

(** The [onChange] of a price input, after its [setValue]:
    [generateVariants(colorOptions, ramOptions, storageOptions)]. *)
Definition regenerate (watch : FormValues) (state : PageState) : PageState :=
  mkPageState (colorOptions state) (ramOptions state) (storageOptions state)
    (generateVariants watch (colorOptions state) (ramOptions state) (storageOptions state)).

(** [updateVariant(variantId, field, value)] on the page state. *)
Definition editVariant (state : PageState) (variantId : string)
    (field : VariantField) (value : JS.number) : PageState :=
  mkPageState (colorOptions state) (ramOptions state) (storageOptions state)
    (updateVariant (variants state) variantId field value).

(** What the user does on the variants part of the page, with the form
    values at that moment where the handler reads them. *)
Inductive Action : Type :=
| AddColor (watch : FormValues) (answer : option string)
| AddRam (watch : FormValues) (answer : option string)
| AddStorage (watch : FormValues) (answer : option string)
| RemoveColor (watch : FormValues) (color : string)
| RemoveRam (watch : FormValues) (ram : string)
| RemoveStorage (watch : FormValues) (storage : string)
| ChangePrice (watch : FormValues)
| EditVariant (variantId : string) (field : VariantField) (value : JS.number).

Definition step (state : PageState) (action : Action) : PageState :=
  match action with
  | AddColor watch answer => addColorOption watch state answer
  | AddRam watch answer => addRamOption watch state answer
  | AddStorage watch answer => addStorageOption watch state answer
  | RemoveColor watch color => removeColorOption watch state color
  | RemoveRam watch ram => removeRamOption watch state ram
  | RemoveStorage watch storage => removeStorageOption watch state storage
  | ChangePrice watch => regenerate watch state
  | EditVariant variantId field value => editVariant state variantId field value
  end.

(** The state after a session of actions, from the initial state. *)
Definition run (actions : list Action) : PageState :=
  fold_left step actions initialState.

(** An option list as the handlers keep it: no value twice, no empty
    string. *)
Definition well_formed_options (values : list string) : Prop :=
  NoDup values /\ Forall (fun v => v <> ""%string) values.

(** What identifies a variant besides its prices and stock. *)
Definition shape (variant : ProductVariant.t)
    : string * (option string * option string * option string) :=
  (ProductVariant.id variant,
   (ProductVariant.color variant, ProductVariant.ram variant,
    ProductVariant.storage variant)).

(** [c] does not occur in [s]. *)
Fixpoint free_of (c : Ascii.ascii) (s : string) : Prop :=
  match s with
  | EmptyString => True
  | String a rest => a <> c /\ free_of c rest
  end.

(** *** The product images *)

(** What the image handlers do. *)
Inductive ImageEffect : Type :=
| SetImageUrls (urls : list string)
    (* setImageUrls(urls) *)
| SetValueImages (urls : list string)
    (* setValue('images', urls) *)
| ToastMaximumImages
    (* toast.error('Maximum 3 images allowed') *).

(** [handleImageUpload(e)], [files] being [e.target.files] ([null] when the
    input holds no list), each file given by the URL that
    [URL.createObjectURL] returns for it. *)
Definition handleImageUpload (imageUrls : list string) (files : option (list string))
    : list ImageEffect :=
  match files with
  | None => []
  | Some files =>
      if (3 <? List.length imageUrls + List.length files)%nat
      then [ToastMaximumImages]
      else
        let newUrls := files in
        let updatedUrls := imageUrls ++ newUrls in
        [SetImageUrls updatedUrls; SetValueImages updatedUrls]
  end.

(** The [onClick] of the remove button of the image at [index]. *)
Definition removeImage (imageUrls : list string) (index : nat) : list ImageEffect :=
  let newUrls := JS.filter_not_index imageUrls index in
  [SetImageUrls newUrls; SetValueImages newUrls].

(** The [imageUrls] state once the effects have been carried out. *)
Definition images_after (imageUrls : list string) (effects : list ImageEffect)
    : list string :=
  fold_left (fun urls effect =>
               match effect with
               | SetImageUrls next => next
               | _ => urls
               end)
            effects imageUrls.

(** The form's [images] value once the effects have been carried out. *)
Definition form_images_after (images : list string) (effects : list ImageEffect)
    : list string :=
  fold_left (fun urls effect =>
               match effect with
               | SetValueImages next => next
               | _ => urls
               end)
            effects images.

(** An upload or a removal. *)
Inductive ImageAction : Type :=
| Upload (files : option (list string))
| Remove (index : nat).

Definition image_step (imageUrls : list string) (action : ImageAction) : list string :=
  match action with
  | Upload files => images_after imageUrls (handleImageUpload imageUrls files)
  | Remove index => images_after imageUrls (removeImage imageUrls index)
  end.

(** *** The specifications editor *)

(** What the handlers of the specifications editor do. *)
Inductive SpecificationEffect : Type :=
| SetSpecifications (rows : list Specification.t)
    (* setSpecifications(rows) *)
| SetValueSpecifications (specsObject : JS.object)
    (* setValue('specifications', specsObject) *).

Definition addSpecification (specifications : list Specification.t)
    : list SpecificationEffect :=
  [SetSpecifications (specifications ++ [Specification.mk "" ""])].

Definition removeSpecification (specifications : list Specification.t) (index : nat)
    : list SpecificationEffect :=
  let newSpecs := JS.filter_not_index specifications index in
  [SetSpecifications newSpecs].

(** The [field] argument of [handleSpecificationChange]. *)
Inductive SpecificationField : Type :=
| field_key
| field_value.

(** [row[field] = value], as the row after the assignment. *)
Definition assign_field (row : Specification.t) (field : SpecificationField)
    (value : string) : Specification.t :=
  match field with
  | field_key => Specification.mk value (Specification.value row)
  | field_value => Specification.mk (Specification.key row) value
  end.

(** [newSpecs[index][field] = value] on the copied array, as the array
    after the assignment; there is no row to assign to when [index] is not
    a position of the array. *)
Fixpoint assign_at (rows : list Specification.t) (index : nat)
    (field : SpecificationField) (value : string) : option (list Specification.t) :=
  match rows, index with
  | [], _ => None
  | row :: rest, 0 => Some (assign_field row field value :: rest)
  | row :: rest, S index =>
      option_map (cons row) (assign_at rest index field value)
  end.

(** The object that [handleSpecificationChange] builds from the rows. *)
Definition specsObject (rows : list Specification.t) : JS.object :=
  JS.reduce rows
    (fun acc spec =>
       if JS.truthy_string (Specification.key spec)
          && JS.truthy_string (Specification.value spec)
       then JS.set_property acc (Specification.key spec) (Specification.value spec)
       else acc)
    [].

(** [handleSpecificationChange(index, field, value)]; [None] when the
    assignment throws a [TypeError] ([newSpecs[index]] is [undefined]), in
    which case nothing is stored.  The rows are objects shared with the
    array of the state before, which React then drops. *)
Definition handleSpecificationChange (specifications : list Specification.t)
    (index : nat) (field : SpecificationField) (value : string)
    : option (list SpecificationEffect) :=
  match assign_at specifications index field value with
  | None => None
  | Some newSpecs =>
      Some [SetSpecifications newSpecs; SetValueSpecifications (specsObject newSpecs)]
  end.

(** The form's [specifications] value once the effects have been carried
    out. *)
Definition form_specifications_after (form : JS.object)
    (effects : list SpecificationEffect) : JS.object :=
  fold_left (fun obj effect =>
               match effect with
               | SetValueSpecifications next => next
               | _ => obj
               end)
            effects form.

(** The rows once the effects have been carried out. *)
Definition specifications_after (rows : list Specification.t)
    (effects : list SpecificationEffect) : list Specification.t :=
  fold_left (fun rows effect =>
               match effect with
               | SetSpecifications next => next
               | _ => rows
               end)
            effects rows.

(** A row that goes into the object under [key]: it has that key and a
    value, both non-empty. *)
Definition filled_under (key : string) (row : Specification.t) : bool :=
  (Specification.key row =? key)%string
  && JS.truthy_string (Specification.key row)
  && JS.truthy_string (Specification.value row).

End NewProductPage.

(** ** Cart (new sale page) *)

Module CartItem.

Record t : Type := mk {
  productId : string;
  name : string;
  price : JS.number;
  quantity : JS.number
}.

End CartItem.

Module NewSalePage.

(** The text of a toast, by its template and the values it interpolates. *)
Inductive Message : Type :=
| NoVariantAvailable
    (* 'No variant available for this product' *)
| CannotAddMore (stock : JS.number)
    (* `Cannot add more. Only ${stock} in stock` *)
| AddedToCart (name : string)
    (* `${name} added to cart` *)
| CannotExceedStockLimit (stock : JS.number)
    (* `Cannot exceed stock limit of ${stock}` *).

(** What a handler does, in program order.  [SetCart next] is
    [setCart(prev => ...)] with the updater applied to the cart the handler
    was called on. *)
Inductive Effect : Type :=
| SetCart (next : list CartItem.t)
| ToastError (message : Message)
| ToastSuccess (message : Message).

(** The cart once the effects have been carried out. *)
Definition cart_after (cart : list CartItem.t) (effects : list Effect) : list CartItem.t :=
  fold_left (fun cart effect =>
               match effect with
               | SetCart next => next
               | _ => cart
               end)
            effects cart.

(** The handler stored nothing: no [setCart] among its effects. *)
Definition rejected (effects : list Effect) : bool :=
  forallb (fun effect => match effect with SetCart _ => false | _ => true end) effects.

(** [variants && variants[0]]. *)
Definition first_variant (variants : option (list ProductVariant.t)) : option ProductVariant.t :=
  match variants with
  | Some (variant :: _) => Some variant
  | _ => None
  end.

(** [{ ...item, quantity }]. *)
Definition with_quantity (item : CartItem.t) (quantity : JS.number) : CartItem.t :=
  CartItem.mk (CartItem.productId item) (CartItem.name item) (CartItem.price item) quantity.

Definition addToCart (cart : list CartItem.t) (product : Product.t) : list Effect :=
  match JS.or_ostring (Product._id product) (Product.id product) with
  | None => []
  | Some productId =>
      if negb (JS.truthy_string productId) then []
      else
        match first_variant (Product.variants product) with
        | None => [ToastError NoVariantAvailable]
        | Some defaultVariant =>
            let existingItem :=
              find (fun item => (CartItem.productId item =? productId)%string) cart in
            let currentQuantity :=
              match existingItem with
              | Some item => CartItem.quantity item
              | None => 0%float
              end in
            if (ProductVariant.stock defaultVariant <=? currentQuantity)%float
            then [ToastError (CannotAddMore (ProductVariant.stock defaultVariant))]
            else
              [ SetCart
                  (match existingItem with
                   | Some _ =>
                       map (fun item =>
                              if (CartItem.productId item =? productId)%string
                              then with_quantity item (CartItem.quantity item + 1)%float
                              else item)
                           cart
                   | None =>
                       cart ++ [CartItem.mk productId (Product.name product)
                                  (ProductVariant.sellingPrice defaultVariant) 1%float]
                   end);
                ToastSuccess (AddedToCart (Product.name product)) ]
        end
  end.

Definition updateQuantity (cart : list CartItem.t) (products : list Product.t)
    (productId : string) (quantity : JS.number) : list Effect :=
  if (quantity <? 1)%float then []
  else
    let product :=
      find (fun p => JS.ostring_eqb (JS.or_ostring (Product._id p) (Product.id p)) productId)
           products in
    let defaultVariant :=
      match product with
      | Some p => first_variant (Product.variants p)
      | None => None
      end in
    let setCart :=
      [ SetCart (map (fun item =>
                        if (CartItem.productId item =? productId)%string
                        then with_quantity item quantity
                        else item)
                     cart) ] in
    match defaultVariant with
    | Some defaultVariant =>
        if (ProductVariant.stock defaultVariant <? quantity)%float
        then [ToastError (CannotExceedStockLimit (ProductVariant.stock defaultVariant))]
        else setCart
    | None => setCart
    end.

(** *** Reference definitions for the cart *)

(** The id [addToCart] files the product under: [_id], else [id], when one
    of them is a non-empty string. *)
Definition product_id (product : Product.t) : option string :=
  match JS.or_ostring (Product._id product) (Product.id product) with
  | Some productId => if JS.truthy_string productId then Some productId else None
  | None => None
  end.

(** The quantity of the product's line in the cart, if it has one. *)
Definition line_quantity (cart : list CartItem.t) (productId : string) : option JS.number :=
  option_map CartItem.quantity
    (find (fun item => (CartItem.productId item =? productId)%string) cart).

(** The cart with one more unit on the product's line. *)
Definition incremented (cart : list CartItem.t) (productId : string) : list CartItem.t :=
  map (fun item =>
         if (CartItem.productId item =? productId)%string
         then with_quantity item (CartItem.quantity item + 1)%float
         else item)
      cart.

(** The cart with the quantity of the product's line replaced. *)
Definition replaced (cart : list CartItem.t) (productId : string) (quantity : JS.number)
    : list CartItem.t :=
  map (fun item =>
         if (CartItem.productId item =? productId)%string
         then with_quantity item quantity
         else item)
      cart.

(** The stock [updateQuantity] checks against: that of the first variant of
    the first product of [products] filed under [productId], if any. *)
Definition current_stock (products : list Product.t) (productId : string) : option JS.number :=
  match find (fun p => JS.ostring_eqb (JS.or_ostring (Product._id p) (Product.id p)) productId)
             products with
  | Some p => option_map ProductVariant.stock (first_variant (Product.variants p))
  | None => None
  end.

(** [{ ...product, variants }]. *)
Definition with_variants (product : Product.t) (variants : option (list ProductVariant.t))
    : Product.t :=
  Product.mk (Product._id product) (Product.id product) (Product.name product)
    (Product.mainCategory product) (Product.subCategory product)
    (Product.subSubCategory product) variants.

(** *** The remaining handlers of the page *)

(** [product.variants && product.variants.some(v => v.stock > 0)]. *)
Definition has_stock (product : Product.t) : bool :=
  match Product.variants product with
  | Some variants =>
      existsb (fun v => (0 <? ProductVariant.stock v)%float) variants
  | None => false
  end.

(** [filteredProducts]: the products with a variant in stock whose name or
    main category contains the search query, case folded by [toLowerCase]
    (the built-in, taken as given). *)
Definition filteredProducts (toLowerCase : string -> string)
    (products : list Product.t) (searchQuery : string) : list Product.t :=
  filter (fun product =>
            has_stock product
            && (JS.includes (JS.or_string (toLowerCase (Product.name product)) "")
                  (toLowerCase searchQuery)
                || JS.includes
                     (JS.or_string (toLowerCase (Product.mainCategory product)) "")
                     (toLowerCase searchQuery)))
         products.

(** [calculateTotal()]. *)
Definition calculateTotal (cart : list CartItem.t) : JS.number :=
  JS.reduce cart
    (fun total item => (total + CartItem.price item * CartItem.quantity item)%float)
    0%float.

(** One item of the request of a sale. *)
Record SaleItem : Type := mkSaleItem {
  item_productId : string;
  item_quantity : JS.number
}.

(** [CreateSaleRequest]. *)
Record CreateSaleRequest : Type := mkCreateSaleRequest {
  items : list SaleItem;
  customerName : option string
}.

(** What is read of the [Sale] that [createSale] resolves to. *)
Record Sale : Type := mkSale {
  sale__id : option string;
  sale_id : option string
}.

(** What a rejected promise carries: an [Error] with its message, or
    something else. *)
Inductive Thrown : Type :=
| ErrorObject (message : string)
| OtherValue.

(** What the server and the browser answer during [onSubmit]: the outcome
    of [createSale], of [getPrintReceipt] (the receipt text), of
    [window.open] (a window, or [null]) and of [getAvailableProducts]. *)
Record Responses : Type := mkResponses {
  createSale_response : Sale + Thrown;
  getPrintReceipt_response : string + Thrown;
  window_opened : bool;
  getAvailableProducts_response : list Product.t + Thrown
}.

(** What [removeFromCart], [onSubmit], [printReceipt] and
    [fetchAvailableProducts] do, in program order.  The markup written to
    the print window is given by the two values it interpolates. *)
Inductive Event : Type :=
| CartEvent (effect : Effect)
| ToastSuccessText (text : string)
| ToastErrorText (text : string)
| SetIsSubmitting (value : bool)
| SetLoading (value : bool)
| SetProducts (products : list Product.t)
| CreateSale (saleData : CreateSaleRequest)
| GetPrintReceipt (saleId : string)
| WindowOpen
| DocumentWrite (saleId receiptText : string)
| DocumentClose
| GetAvailableProducts
| ConsoleError.

Definition removeFromCart (cart : list CartItem.t) (productId : string) : list Event :=
  [ CartEvent
      (SetCart (filter (fun item => negb (CartItem.productId item =? productId)%string) cart));
    ToastSuccessText "Item removed from cart" ].

Definition printReceipt (responses : Responses) (saleId : string) : list Event :=
  GetPrintReceipt saleId
  :: match getPrintReceipt_response responses with
     | inl receiptText =>
         WindowOpen
         :: (if window_opened responses
             then [DocumentWrite saleId receiptText; DocumentClose]
             else [])
         ++ [ToastSuccessText "Receipt generated for 80mm printer"]
     | inr _ => [ToastErrorText "Failed to print receipt"; ConsoleError]
     end.

Definition fetchAvailableProducts (responses : Responses) : list Event :=
  [SetLoading true; GetAvailableProducts]
  ++ match getAvailableProducts_response responses with
     | inl data => [SetProducts data]
     | inr _ => [ToastErrorText "Failed to fetch available products"; ConsoleError]
     end
  ++ [SetLoading false].

(** [onSubmit(data)], [customerName] being [data.customerName]. *)
Definition onSubmit (cart : list CartItem.t) (customerName : string)
    (responses : Responses) : list Event :=
  if (List.length cart =? 0)%nat then [ToastErrorText "Cart is empty"]
  else
    let saleData :=
      mkCreateSaleRequest
        (map (fun item => mkSaleItem (CartItem.productId item) (CartItem.quantity item)) cart)
        (if JS.truthy_string customerName then Some customerName else None) in
    [SetIsSubmitting true; CreateSale saleData]
    ++ match createSale_response responses with
       | inl sale =>
           printReceipt responses
             (JS.or_string
                (match JS.or_ostring (sale__id sale) (sale_id sale) with
                 | Some id => id
                 | None => ""
                 end)
                "")
           ++ [ToastSuccessText "Sale completed successfully"]
           ++ fetchAvailableProducts responses
           ++ [CartEvent (SetCart [])]
       | inr thrown =>
           [ ToastErrorText
               match thrown with
               | ErrorObject message => message
               | OtherValue => "Failed to complete sale"
               end;
             ConsoleError ]
       end
    ++ [SetIsSubmitting false].

(** The cart once the events have been carried out. *)
Definition cart_after_events (cart : list CartItem.t) (events : list Event)
    : list CartItem.t :=
  fold_left (fun cart event =>
               match event with
               | CartEvent (SetCart next) => next
               | _ => cart
               end)
            events cart.

(** The [isSubmitting] flag once the events have been carried out. *)
Definition submitting_after (isSubmitting : bool) (events : list Event) : bool :=
  fold_left (fun flag event =>
               match event with
               | SetIsSubmitting value => value
               | _ => flag
               end)
            events isSubmitting.

(** The sale requests among the events. *)
Definition sale_requests (events : list Event) : list CreateSaleRequest :=
  flat_map (fun event =>
              match event with
              | CreateSale saleData => [saleData]
              | _ => []
              end)
           events.

(** What the user does on the cart. *)
Inductive Action : Type :=
| Add (product : Product.t)
| Remove (productId : string)
| SetQuantity (products : list Product.t) (productId : string) (quantity : JS.number)
| Submit (customerName : string) (responses : Responses).

Definition step (cart : list CartItem.t) (action : Action) : list CartItem.t :=
  match action with
  | Add product => cart_after cart (addToCart cart product)
  | Remove productId => cart_after_events cart (removeFromCart cart productId)
  | SetQuantity products productId quantity =>
      cart_after cart (updateQuantity cart products productId quantity)
  | Submit customerName responses =>
      cart_after_events cart (onSubmit cart customerName responses)
  end.

(** The cart after a session of actions, from the empty cart. *)
Definition run (actions : list Action) : list CartItem.t :=
  fold_left step actions [].

(** The product ids of the lines of a cart, in order. *)
Definition line_ids (cart : list CartItem.t) : list string :=
  map CartItem.productId cart.

End NewSalePage.

(** ** JSON texts *)

Module JSON.

(** A JSON text as [JSON.stringify] writes it for a record of numbers, by
    its structure: the members of an object in the order they are written,
    each number token by the Number it is the decimal text of. *)
Inductive document : Type :=
| Null
| Number (x : JS.number)
| Object (members : list (string * document)).

(** [JSON.stringify(x)] for a Number (ECMA-262, SerializeJSONProperty):
    [null] when [x] is [NaN] or an infinity, else the text of [x], which is
    [0] for both zeros. *)
Definition stringify_number (x : JS.number) : document :=
  match Prim2SF x with
  | S754_nan | S754_infinity _ => Null
  | S754_zero _ => Number 0%float
  | S754_finite _ _ _ => Number x
  end.

End JSON.

(** ** Products API client (src/API/products.ts) *)

Module ProductsApi.

(** The object literal handed to [JSON.stringify] for the body of the
    pricing update. *)
Record PricingUpdate : Type := mkPricingUpdate {
  purchasedPrice : JS.number;
  sellingPrice : JS.number
}.

(** [JSON.stringify] of that object: its two properties in the order of the
    literal. *)
Definition stringify (update : PricingUpdate) : JSON.document :=
  JSON.Object
    [ ("purchasedPrice"%string, JSON.stringify_number (purchasedPrice update));
      ("sellingPrice"%string, JSON.stringify_number (sellingPrice update)) ].

(** The arguments of a [makeRequest] call: the path and, of the options,
    the method and the body. *)
Record Request : Type := mkRequest {
  path : string;
  method : string;
  body : JSON.document
}.

Definition updateProportionalPricing (id : string) (purchasedPrice profitMargin : JS.number)
    : Request :=
  let sellingPrice := (purchasedPrice * (1 + profitMargin / 100))%float in
  mkRequest ("/products/" ++ id)%string "PATCH"%string
    (stringify
       (mkPricingUpdate purchasedPrice (JS.Math_round (sellingPrice * 100) / 100)%float)).

End ProductsApi.

(** ** Reference definitions for numbers *)

(** The value of a finite Number as a fraction: [(-1)^s * m * 2^e] for a
    non-zero one.  [NaN] and the infinities have none. *)
Definition exact (x : JS.number) : option Q :=
  match Prim2SF x with
  | S754_zero _ => Some 0%Q
  | S754_finite s m e =>
      let v := if s then Z.neg m else Z.pos m in
      Some (if (0 <=? e)%Z then inject_Z (v * 2 ^ e)
            else Qmake v (Z.to_pos (2 ^ (- e))))
  | _ => None
  end.

(** The Number [x] is finite and its value is the rational [q]. *)
Definition has_value (x : JS.number) (q : Q) : Prop :=
  match exact x with
  | Some r => (r == q)%Q
  | None => False
  end.

(** ** Reference definitions for the sessions *)

(** The two facts every handler keeps about the lines of the cart. *)
Definition cart_well_formed (cart : list CartItem.t) : Prop :=
  NoDup (NewSalePage.line_ids cart)
  /\ Forall (fun id => id <> ""%string) (NewSalePage.line_ids cart).

(** The product id, name and unit price of a line. *)
Definition line_key (item : CartItem.t) : string * string * JS.number :=
  (CartItem.productId item, CartItem.name item, CartItem.price item).

(** The receipt request among the events, if any. *)
Definition receipt_requested (events : list NewSalePage.Event) : bool :=
  existsb (fun event =>
             match event with
             | NewSalePage.GetPrintReceipt _ => true
             | _ => false
             end)
          events.

(** The three option lists of a state are as the handlers keep them. *)
Definition well_formed_state (state : NewProductPage.PageState) : Prop :=
  NewProductPage.well_formed_options (NewProductPage.colorOptions state)
  /\ NewProductPage.well_formed_options (NewProductPage.ramOptions state)
  /\ NewProductPage.well_formed_options (NewProductPage.storageOptions state).

(** The ids and axis values of the variants that go with three option
    lists: the default variant when the three are empty, else one variant
    per combination, its id the joined tags. *)
Definition expected_shapes (colors rams storages : list string)
    : list (string * (option string * option string * option string)) :=
  match colors ++ rams ++ storages with
  | [] => [("default"%string, (None, None, None))]
  | _ :: _ =>
      map (fun combination =>
             (let '(color, ram, storage) := combination in
              NewProductPage.joined_tags color ram storage,
              combination))
          (NewProductPage.combinations colors rams storages)
  end.

(** The variants of a state go with its option lists, unless there are
    none yet. *)
Definition variants_in_step (state : NewProductPage.PageState) : Prop :=
  NewProductPage.variants state = []
  \/ map NewProductPage.shape (NewProductPage.variants state) =
       expected_shapes (NewProductPage.colorOptions state)
         (NewProductPage.ramOptions state) (NewProductPage.storageOptions state).

(** Whether the handler of [action], called in [state], reaches its call of
    [generateVariants]: an option is added only for an answer that is
    neither empty nor in the list already; a removal and a price change
    always regenerate; [updateVariant] never does. *)
Definition regenerates (state : NewProductPage.PageState) (action : NewProductPage.Action)
    : bool :=
  match action with
  | NewProductPage.AddColor _ (Some color) =>
      JS.truthy_string color
      && negb (JS.array_includes (NewProductPage.colorOptions state) color)
  | NewProductPage.AddRam _ (Some ram) =>
      JS.truthy_string ram
      && negb (JS.array_includes (NewProductPage.ramOptions state) ram)
  | NewProductPage.AddStorage _ (Some storage) =>
      JS.truthy_string storage
      && negb (JS.array_includes (NewProductPage.storageOptions state) storage)
  | NewProductPage.AddColor _ None | NewProductPage.AddRam _ None
  | NewProductPage.AddStorage _ None => false
  | NewProductPage.RemoveColor _ _ | NewProductPage.RemoveRam _ _
  | NewProductPage.RemoveStorage _ _ | NewProductPage.ChangePrice _ => true
  | NewProductPage.EditVariant _ _ _ => false
  end.

(** Whether the variants were generated at some point of a session that
    starts in [state]. *)
Fixpoint generated_from (state : NewProductPage.PageState)
    (actions : list NewProductPage.Action) : bool :=
  match actions with
  | [] => false
  | action :: rest =>
      regenerates state action || generated_from (NewProductPage.step state action) rest
  end.



(** * Properties *)

(** ** Numbers *)

(** [Math.round] rounds half-way cases towards +infinity and keeps the sign
    of a negative argument that rounds to zero. *)
Example Math_round_examples :
  JS.Math_round 2.5%float = 3%float
  /\ JS.Math_round (-2.5)%float = (-2)%float
  /\ JS.Math_round 0.5%float = 1%float
  /\ JS.Math_round (-0.5)%float = (-0)%float
  /\ JS.Math_round 0.25%float = 0%float
  /\ JS.Math_round 12500.75%float = 12501%float
  /\ JS.Math_round 9007199254740994%float = 9007199254740994%float
  /\ JS.Math_round infinity = infinity.
Proof.
  repeat split; vm_compute; reflexivity.
Qed.

(** ** Lists *)

Lemma find_app_split {A : Type} (f : A -> bool) (l1 l2 : list A) :
  find f (l1 ++ l2) =
    match find f l1 with
    | Some x => Some x
    | None => find f l2
    end.
Proof.
  induction l1 as [|x l1 IH]; simpl; [reflexivity|].
  destruct (f x); [reflexivity | exact IH].
Qed.

Lemma existsb_flat_map {A B : Type} (f : B -> bool) (g : A -> list B) (l : list A) :
  existsb f (flat_map g l) = existsb (fun x => existsb f (g x)) l.
Proof.
  induction l as [|x l IH]; simpl; [reflexivity|].
  rewrite existsb_app, IH. reflexivity.
Qed.

Lemma filter_flat_map {A B : Type} (f : B -> bool) (g : A -> list B) (l : list A) :
  filter f (flat_map g l) = flat_map (fun x => filter f (g x)) l.
Proof.
  induction l as [|x l IH]; simpl; [reflexivity|].
  rewrite filter_app, IH. reflexivity.
Qed.

(** A fold whose step appends what it collects from each element collects
    them in order. *)
Lemma fold_left_collect {A B : Type} (step : list B -> A -> list B) (g : A -> list B)
    (l : list A) :
  Forall (fun x => forall acc, step acc x = acc ++ g x) l ->
  forall acc, fold_left step l acc = acc ++ flat_map g l.
Proof.
  induction 1 as [|x l Hx _ IH]; intros acc; simpl.
  - rewrite app_nil_r. reflexivity.
  - rewrite Hx, IH, app_assoc. reflexivity.
Qed.

(** ** Category trees *)

(** Induction over a category with the hypothesis for every child. *)
Lemma Category_tree_ind (P : Category.t -> Prop) :
  (forall i n l p subs, Forall P subs -> P (Category.mk i n l p subs)) ->
  forall c, P c.
Proof.
  intros step.
  fix IH 1.
  intros [i n l p subs].
  apply step.
  induction subs as [|c subs IHsubs]; constructor.
  - apply IH.
  - exact IHsubs.
Qed.

(** ** The category hierarchy resolver *)

Lemma ostring_eqb_true (x : option string) (s : string) :
  JS.ostring_eqb x s = true <-> x = Some s.
Proof.
  destruct x as [v|]; simpl.
  - rewrite String.eqb_eq. split; congruence.
  - split; discriminate.
Qed.

Lemma referencesb_true (product : Product.t) (cid : string) :
  ProductsPage.referencesb product cid = true <-> ProductsPage.references product cid.
Proof.
  unfold ProductsPage.referencesb, ProductsPage.references.
  rewrite !orb_true_iff, String.eqb_eq, !ostring_eqb_true. tauto.
Qed.

(** The loop of [findCategory], as an equation on the array it iterates
    over. *)
Lemma findCategory_cons (categoryId : string) (cat : Category.t) (rest : list Category.t) :
  ProductsPage.findCategory categoryId (cat :: rest) =
    if (Category.id cat =? categoryId)%string then Some cat
    else match ProductsPage.findCategory categoryId (Category.subCategories cat) with
         | Some found => Some found
         | None => ProductsPage.findCategory categoryId rest
         end.
Proof.
  unfold ProductsPage.findCategory; simpl.
  destruct cat as [i n l p subs]; simpl.
  destruct (i =? categoryId)%string; reflexivity.
Qed.

Lemma findCategory_visit_find (categoryId : string) (cat : Category.t) :
  ProductsPage.findCategory_visit categoryId cat =
    find (fun c => (Category.id c =? categoryId)%string) (Category.nodes cat).
Proof.
  induction cat as [i n l p subs IH] using Category_tree_ind.
  simpl. destruct (i =? categoryId)%string; [reflexivity|].
  induction IH as [|c subs Hc _ IHsubs]; simpl; [reflexivity|].
  rewrite find_app_split, <- Hc, <- IHsubs. reflexivity.
Qed.

(** The depth-first search returns the first node in document order whose
    id is [categoryId]. *)
Lemma findCategory_node_with_id (categoryId : string) (cats : list Category.t) :
  ProductsPage.findCategory categoryId cats = ProductsPage.node_with_id categoryId cats.
Proof.
  unfold ProductsPage.findCategory, ProductsPage.node_with_id, Category.forest_nodes.
  induction cats as [|c cats IH]; simpl; [reflexivity|].
  rewrite find_app_split, <- findCategory_visit_find, IH. reflexivity.
Qed.

(** [isInHierarchy] holds exactly when one of the product's category fields
    carries the id of a node of the subtree. *)
Lemma isInHierarchy_nodes (product : Product.t) (category : Category.t) :
  ProductsPage.isInHierarchy product category =
    existsb (fun d => ProductsPage.referencesb product (Category.id d))
            (Category.nodes category).
Proof.
  induction category as [i n l p subs IH] using Category_tree_ind.
  cbn [ProductsPage.isInHierarchy Category.nodes existsb Category.id Category.subCategories].
  unfold ProductsPage.referencesb at 1. cbn [Category.id].
  destruct (Product.mainCategory product =? i)%string; [reflexivity|].
  destruct (JS.ostring_eqb (Product.subCategory product) i); [reflexivity|].
  destruct (JS.ostring_eqb (Product.subSubCategory product) i); [reflexivity|].
  rewrite orb_false_r. cbn [orb].
  rewrite existsb_flat_map.
  induction IH as [|c subs Hc _ IHsubs]; simpl; [reflexivity|].
  rewrite Hc, IHsubs. reflexivity.
Qed.

(** What [isProductInCategory] computes, for a non-empty [categoryId]. *)
Lemma isProductInCategory_unfold (cats : list Category.t) (product : Product.t)
    (categoryId : string) :
  categoryId <> ""%string ->
  ProductsPage.isProductInCategory cats product categoryId =
    ProductsPage.referencesb product categoryId
    || match ProductsPage.node_with_id categoryId cats with
       | Some selected =>
           existsb (fun d => ProductsPage.referencesb product (Category.id d))
                   (Category.nodes selected)
       | None => false
       end.
Proof.
  intros Hne.
  unfold ProductsPage.isProductInCategory, JS.truthy_string, ProductsPage.referencesb.
  apply String.eqb_neq in Hne. rewrite Hne. cbn [negb].
  rewrite findCategory_node_with_id.
  destruct (Product.mainCategory product =? categoryId)%string; [reflexivity|].
  destruct (JS.ostring_eqb (Product.subCategory product) categoryId); [reflexivity|].
  destruct (JS.ostring_eqb (Product.subSubCategory product) categoryId); [reflexivity|].
  cbn [orb].
  destruct (ProductsPage.node_with_id categoryId cats) as [selected|]; [|reflexivity].
  apply isInHierarchy_nodes.
Qed.

(** A [categoryId] that occurs in the forest has its node: the first one in
    document order with that id. *)
Lemma node_with_id_occurs (categoryId : string) (cats : list Category.t) :
  (exists n, In n (Category.forest_nodes cats) /\ Category.id n = categoryId) ->
  exists node,
    ProductsPage.node_with_id categoryId cats = Some node /\
    In node (Category.forest_nodes cats) /\
    Category.id node = categoryId.
Proof.
  intros [n [Hin Hid]].
  unfold ProductsPage.node_with_id.
  destruct (find (fun c => (Category.id c =? categoryId)%string) (Category.forest_nodes cats))
    as [node|] eqn:Hfind.
  - exists node. apply find_some in Hfind. destruct Hfind as [Hnode Heq].
    apply String.eqb_eq in Heq. auto.
  - exfalso. pose proof (find_none _ _ Hfind n Hin) as Hn. cbn beta in Hn.
    apply String.eqb_neq in Hn. contradiction.
Qed.

(** C1, as amended.  For every category forest, every product and every
    non-empty [categoryId] that no node of the forest carries and that is
    not the value of any of the product's three category fields,
    [isProductInCategory] is false. *)
Theorem isProductInCategory_absent_false (cats : list Category.t) (product : Product.t)
    (categoryId : string) :
  categoryId <> ""%string ->
  (forall n, In n (Category.forest_nodes cats) -> Category.id n <> categoryId) ->
  ~ ProductsPage.references product categoryId ->
  ProductsPage.isProductInCategory cats product categoryId = false.
Proof.
  intros Hne Habsent Hnoref.
  rewrite isProductInCategory_unfold by exact Hne.
  destruct (ProductsPage.referencesb product categoryId) eqn:Href.
  - apply referencesb_true in Href. contradiction.
  - cbn [orb].
    destruct (ProductsPage.node_with_id categoryId cats) as [selected|] eqn:Hfind;
      [|reflexivity].
    apply find_some in Hfind. destruct Hfind as [Hin Heq].
    apply String.eqb_eq in Heq. exfalso. exact (Habsent selected Hin Heq).
Qed.

(** C1 as stated fails: with an empty forest, a product whose main category
    is "A" is reported to be in category "A", an id no node carries. *)
Lemma isProductInCategory_absent_true_example :
  "A"%string <> ""%string /\
  Category.forest_nodes [] = [] /\
  ProductsPage.isProductInCategory []
    (Product.mk (Some "p1") None "Phone" "A" None None None)%string "A"%string = true.
Proof.
  split; [discriminate|]. split; reflexivity.
Qed.

Lemma isProductInCategory_absent_false_witness :
  ProductsPage.isProductInCategory
    [Category.mk "A" "Phones" 1%float None []]%string
    (Product.mk (Some "p1") None "Phone" "A" None None None)%string
    "B"%string = false.
Proof.
  apply isProductInCategory_absent_false.
  - discriminate.
  - intros n [Hn | []]. subst n. discriminate.
  - unfold ProductsPage.references; simpl. intros [H | [H | H]]; discriminate.
Defined.

(** C3.  For every category forest, every product and every [categoryId]
    that occurs in the forest, the search locates the node with that id
    (the first one in document order), and if any of the product's three
    category fields carries the id of that node or of one of its
    descendants, [isProductInCategory] is true. *)
Theorem isProductInCategory_descendant (cats : list Category.t) (product : Product.t)
    (categoryId : string) :
  (exists n, In n (Category.forest_nodes cats) /\ Category.id n = categoryId) ->
  exists node,
    ProductsPage.findCategory categoryId cats = Some node /\
    In node (Category.forest_nodes cats) /\
    Category.id node = categoryId /\
    forall d,
      In d (Category.nodes node) ->
      ProductsPage.references product (Category.id d) ->
      ProductsPage.isProductInCategory cats product categoryId = true.
Proof.
  intros Hocc.
  destruct (node_with_id_occurs categoryId cats Hocc) as [node [Hfind [Hin Hid]]].
  exists node. rewrite findCategory_node_with_id.
  repeat split; try assumption.
  intros d Hd Href.
  destruct (String.eqb_spec categoryId "") as [Hempty | Hne].
  - subst categoryId. unfold ProductsPage.isProductInCategory.
    rewrite Hempty. reflexivity.
  - rewrite isProductInCategory_unfold by exact Hne.
    rewrite Hfind. apply orb_true_iff. right.
    apply existsb_exists. exists d. split; [exact Hd|].
    apply referencesb_true. exact Href.
Qed.

Lemma isProductInCategory_descendant_witness :
  ProductsPage.isProductInCategory
    [Category.mk "A" "Phones" 1%float None
       [Category.mk "B" "Android" 2%float (Some "A") []]]%string
    (Product.mk (Some "p1") None "Phone" "B" None None None)%string
    "A"%string = true.
Proof.
  destruct (isProductInCategory_descendant
              [Category.mk "A" "Phones" 1%float None
                 [Category.mk "B" "Android" 2%float (Some "A") []]]%string
              (Product.mk (Some "p1") None "Phone" "B" None None None)%string
              "A"%string) as [node [Hfind [_ [_ Hall]]]].
  - eexists. split; [left; reflexivity | reflexivity].
  - vm_compute in Hfind. injection Hfind as Hnode. subst node.
    apply (Hall (Category.mk "B" "Android" 2%float (Some "A") [])%string).
    + right; left; reflexivity.
    + left; reflexivity.
Defined.

(** The end-to-end scenario of the specification: category A (level 1)
    with child B (level 2), a product filed under A and B; filtering by A
    keeps the product, filtering by an unrelated level-1 category C drops
    it. *)
Example isProductInCategory_scenario :
  ProductsPage.isProductInCategory
    [ Category.mk "A" "Phones" 1%float None
        [Category.mk "B" "Android" 2%float (Some "A") []];
      Category.mk "C" "Laptops" 1%float None [] ]%string
    (Product.mk (Some "p1") None "Phone" "A" (Some "B") None None)%string
    "A"%string = true
  /\ ProductsPage.isProductInCategory
    [ Category.mk "A" "Phones" 1%float None
        [Category.mk "B" "Android" 2%float (Some "A") []];
      Category.mk "C" "Laptops" 1%float None [] ]%string
    (Product.mk (Some "p1") None "Phone" "A" (Some "B") None None)%string
    "C"%string = false.
Proof.
  split; reflexivity.
Qed.

(** ** Parent candidates *)


Lemma at_level_cons (targetLevel : JS.number) (c : Category.t) (cats : list Category.t) :
  Category.at_level targetLevel (c :: cats) =
    (if (Category.level c =? targetLevel)%float then [c] else [])
    ++ Category.at_level targetLevel (Category.subCategories c)
    ++ Category.at_level targetLevel cats.
Proof.
  unfold Category.at_level, Category.forest_nodes.
  destruct c as [i n l p subs]. simpl.
  rewrite filter_app.
  destruct (l =? targetLevel)%float; reflexivity.
Qed.

Lemma at_level_flat_map (targetLevel : JS.number) (cats : list Category.t) :
  Category.at_level targetLevel cats = flat_map (fun c => Category.at_level targetLevel [c]) cats.
Proof.
  unfold Category.at_level, Category.forest_nodes.
  rewrite filter_flat_map. apply flat_map_ext. intros c.
  simpl. rewrite app_nil_r. reflexivity.
Qed.

(** The reducer of [flatten] appends the matching nodes of the subtree. *)
Lemma flatten_step_collect (targetLevel : JS.number) (cat : Category.t) :
  forall acc,
    ManageCategories.flatten_step targetLevel acc cat = acc ++ Category.at_level targetLevel [cat].
Proof.
  induction cat as [i n l p subs IH] using Category_tree_ind.
  intros acc.
  rewrite at_level_cons.
  cbn [ManageCategories.flatten_step Category.level Category.subCategories].
  unfold JS.reduce, JS.push.
  rewrite (fold_left_collect _ _ subs IH []).
  rewrite <- at_level_flat_map.
  unfold Category.at_level at 3. cbn [Category.forest_nodes flat_map filter].
  rewrite app_nil_r.
  destruct (l =? targetLevel)%float; cbn [app].
  - rewrite <- app_assoc. reflexivity.
  - reflexivity.
Qed.

Lemma flattenCategories_step_collect (level : JS.number) (cat : Category.t) :
  forall acc,
    CategoriesPage.flattenCategories_step level acc cat = acc ++ Category.at_level level [cat].
Proof.
  induction cat as [i n l p subs IH] using Category_tree_ind.
  intros acc.
  rewrite at_level_cons.
  cbn [CategoriesPage.flattenCategories_step Category.level Category.subCategories].
  unfold JS.reduce.
  rewrite (fold_left_collect _ _ subs IH []).
  rewrite <- at_level_flat_map.
  unfold Category.at_level at 4. cbn [Category.forest_nodes flat_map filter].
  rewrite app_nil_r.
  destruct (l =? level)%float; reflexivity.
Qed.

Lemma flatten_at_level (cats : list Category.t) (targetLevel : JS.number) :
  ManageCategories.flatten cats targetLevel = Category.at_level targetLevel cats.
Proof.
  unfold ManageCategories.flatten, JS.reduce.
  rewrite (fold_left_collect _ (fun c => Category.at_level targetLevel [c])).
  - rewrite <- at_level_flat_map. reflexivity.
  - apply Forall_forall. intros c _. apply flatten_step_collect.
Qed.

Lemma flattenCategories_at_level (cats : list Category.t) (level : JS.number) :
  CategoriesPage.flattenCategories cats level = Category.at_level level cats.
Proof.
  unfold CategoriesPage.flattenCategories, JS.reduce.
  rewrite (fold_left_collect _ (fun c => Category.at_level level [c])).
  - rewrite <- at_level_flat_map. reflexivity.
  - apply Forall_forall. intros c _. apply flattenCategories_step_collect.
Qed.

(** C9.  For every category forest and target level, both [flatten] (manage
    page) and [flattenCategories] (categories page) return the nodes whose
    [level] equals the target level, each such node and no other, in
    document (pre-order) order; and for a requested level of 1 the list of
    parent candidates is empty, otherwise it is the flattening at the level
    above. *)
Theorem flatten_exactly_level (cats : list Category.t) (targetLevel : JS.number) :
  ManageCategories.flatten cats targetLevel =
    filter (fun c => (Category.level c =? targetLevel)%float) (Category.forest_nodes cats)
  /\ CategoriesPage.flattenCategories cats targetLevel =
    filter (fun c => (Category.level c =? targetLevel)%float) (Category.forest_nodes cats)
  /\ (forall c,
        In c (ManageCategories.flatten cats targetLevel) <->
        In c (Category.forest_nodes cats) /\ (Category.level c =? targetLevel)%float = true)
  /\ (forall c,
        In c (CategoriesPage.flattenCategories cats targetLevel) <->
        In c (Category.forest_nodes cats) /\ (Category.level c =? targetLevel)%float = true)
  /\ ManageCategories.getAvailableParentCategories cats 1%float = []
  /\ CategoriesPage.getAvailableParentCategories cats 1%float = []
  /\ ((targetLevel =? 1)%float = false ->
      ManageCategories.getAvailableParentCategories cats targetLevel =
        ManageCategories.flatten cats (targetLevel - 1)%float
      /\ CategoriesPage.getAvailableParentCategories cats targetLevel =
        CategoriesPage.flattenCategories cats (targetLevel - 1)%float).
Proof.
  rewrite flatten_at_level, flattenCategories_at_level. unfold Category.at_level.
  split; [reflexivity|]. split; [reflexivity|].
  split; [intros c; rewrite filter_In; reflexivity|].
  split; [intros c; rewrite filter_In; reflexivity|].
  split; [reflexivity|]. split; [reflexivity|].
  intros Hlevel.
  unfold ManageCategories.getAvailableParentCategories,
    CategoriesPage.getAvailableParentCategories.
  rewrite Hlevel. split; reflexivity.
Qed.

(** The level-2 nodes of a two-root forest, in document order, by both
    implementations. *)
Example flatten_example :
  map Category.id
    (ManageCategories.getAvailableParentCategories
       [ Category.mk "A" "Phones" 1%float None
           [ Category.mk "B" "Android" 2%float (Some "A")
               [Category.mk "D" "Tablets" 3%float (Some "B") []];
             Category.mk "C" "Apple" 2%float (Some "A") [] ];
         Category.mk "E" "Laptops" 1%float None
           [Category.mk "F" "Gaming" 2%float (Some "E") []] ]%string
       3%float) = ["B"; "C"; "F"]%string
  /\ map Category.id
    (CategoriesPage.getAvailableParentCategories
       [ Category.mk "A" "Phones" 1%float None
           [ Category.mk "B" "Android" 2%float (Some "A")
               [Category.mk "D" "Tablets" 3%float (Some "B") []];
             Category.mk "C" "Apple" 2%float (Some "A") [] ];
         Category.mk "E" "Laptops" 1%float None
           [Category.mk "F" "Gaming" 2%float (Some "E") []] ]%string
       3%float) = ["B"; "C"; "F"]%string.
Proof.
  split; reflexivity.
Qed.

(** ** The variant matrix *)

(** A loop whose body pushes what it derives from each element pushes them
    in order. *)
Lemma forEach_collect {A B : Type} (arr : list A) (body : A -> list B -> list B)
    (g : A -> list B) :
  (forall x acc, body x acc = acc ++ g x) ->
  forall acc, JS.forEach arr body acc = acc ++ flat_map g arr.
Proof.
  intros Hbody. unfold JS.forEach.
  induction arr as [|x arr IH]; intros acc; simpl.
  - rewrite app_nil_r. reflexivity.
  - rewrite Hbody, IH, app_assoc. reflexivity.
Qed.

Lemma map_flat_map {A B C : Type} (f : B -> C) (g : A -> list B) (l : list A) :
  map f (flat_map g l) = flat_map (fun x => map f (g x)) l.
Proof.
  induction l as [|x l IH]; simpl; [reflexivity|].
  rewrite map_app, IH. reflexivity.
Qed.

Lemma flat_map_map {A B C : Type} (f : B -> list C) (g : A -> B) (l : list A) :
  flat_map f (map g l) = flat_map (fun x => f (g x)) l.
Proof.
  induction l as [|x l IH]; simpl; [reflexivity|].
  rewrite IH. reflexivity.
Qed.

Lemma flat_map_singleton {A B : Type} (f : A -> B) (l : list A) :
  flat_map (fun x => [f x]) l = map f l.
Proof.
  induction l as [|x l IH]; simpl; [reflexivity|].
  rewrite IH. reflexivity.
Qed.

Lemma length_flat_map_const {A B : Type} (g : A -> list B) (l : list A) (n : nat) :
  (forall x, List.length (g x) = n) ->
  List.length (flat_map g l) = (List.length l * n)%nat.
Proof.
  intros Hg. induction l as [|x l IH]; simpl; [reflexivity|].
  rewrite length_app, Hg, IH. reflexivity.
Qed.

Lemma axis_length (values : list string) :
  List.length (NewProductPage.axis values) = NewProductPage.dimension values.
Proof.
  destruct values; simpl; [reflexivity|].
  rewrite length_map. reflexivity.
Qed.

Lemma axis_None (values : list string) :
  In None (NewProductPage.axis values) -> values = [].
Proof.
  destruct values as [|v values]; [reflexivity|].
  intros H. apply in_map_iff in H. destruct H as [x [Hx _]]. discriminate.
Qed.

Lemma axis_Some (values : list string) (v : string) :
  In (Some v) (NewProductPage.axis values) -> In v values.
Proof.
  destruct values as [|w values]; simpl.
  - intros [H | []]. discriminate.
  - intros [H | H].
    + left. congruence.
    + right. apply in_map_iff in H. destruct H as [x [Hx Hin]]. congruence.
Qed.

Lemma in_combinations (colors rams storages : list string) (c r s : option string) :
  In (c, r, s) (NewProductPage.combinations colors rams storages) <->
  In c (NewProductPage.axis colors) /\
  In r (NewProductPage.axis rams) /\
  In s (NewProductPage.axis storages).
Proof.
  unfold NewProductPage.combinations. rewrite in_flat_map. split.
  - intros [c' [Hc H]]. apply in_flat_map in H. destruct H as [r' [Hr H]].
    apply in_map_iff in H. destruct H as [s' [Heq Hs]].
    injection Heq as -> -> ->. auto.
  - intros [Hc [Hr Hs]]. exists c. split; [exact Hc|].
    apply in_flat_map. exists r. split; [exact Hr|].
    apply in_map_iff. exists s. auto.
Qed.

Lemma combinations_length (colors rams storages : list string) :
  List.length (NewProductPage.combinations colors rams storages) =
    (NewProductPage.dimension colors * NewProductPage.dimension rams
     * NewProductPage.dimension storages)%nat.
Proof.
  unfold NewProductPage.combinations.
  rewrite (length_flat_map_const _ _
             (NewProductPage.dimension rams * NewProductPage.dimension storages)).
  - rewrite axis_length. lia.
  - intros c.
    rewrite (length_flat_map_const _ _ (NewProductPage.dimension storages)).
    + rewrite axis_length. reflexivity.
    + intros r. rewrite length_map. apply axis_length.
Qed.



Lemma axis_cases (values : list string) :
  values = [] \/
  (NewProductPage.axis values = map Some values /\
   (List.length values =? 0)%nat = false /\
   (0 <? List.length values)%nat = true).
Proof.
  destruct values as [|v values]; [left; reflexivity | right].
  repeat split.
Qed.

Ltac collect_loops :=
  lazymatch goal with
  | |- JS.forEach _ _ _ = _ => apply forEach_collect; intros ? ?; collect_loops
  | |- JS.push _ _ = _ => reflexivity
  end.

Ltac matrix_rows :=
  repeat first
    [ rewrite map_flat_map
    | rewrite flat_map_map
    | rewrite map_map
    | rewrite flat_map_singleton
    | apply flat_map_ext; intros ? ].

Lemma generateVariants_body_combinations (colors rams storages : list string)
    (purchasedPrice sellingPrice : JS.number) :
  colors ++ rams ++ storages <> [] ->
  NewProductPage.generateVariants_body colors rams storages purchasedPrice sellingPrice =
    map (NewProductPage.variant_of purchasedPrice sellingPrice)
        (NewProductPage.combinations colors rams storages).
Proof.
  intros Hsome. unfold NewProductPage.generateVariants_body, NewProductPage.combinations.
  destruct (axis_cases colors) as [-> | [-> [-> ->]]];
    destruct (axis_cases rams) as [-> | [-> [-> ->]]];
    destruct (axis_cases storages) as [-> | [-> [-> ->]]];
    try (exfalso; apply Hsome; reflexivity);
    cbn [List.length Nat.eqb Nat.ltb Nat.leb andb NewProductPage.axis];
    (erewrite forEach_collect; [|intros ? ?; collect_loops]);
    cbn [app flat_map map]; repeat rewrite app_nil_r.
  all: matrix_rows.
  all: cbn [map]; rewrite ?app_nil_r, ?flat_map_singleton, ?map_map; reflexivity.
Qed.

Lemma truthy_string_nonblank (v : string) : v <> ""%string -> JS.truthy_string v = true.
Proof.
  intros Hv. unfold JS.truthy_string. apply String.eqb_neq in Hv. rewrite Hv. reflexivity.
Qed.

(** With no empty-string value and at least one value, the id is the
    joined tags of the values. *)
Lemma variantId_joined_tags (color ram storage : option string) :
  NewProductPage.nonblank color ->
  NewProductPage.nonblank ram ->
  NewProductPage.nonblank storage ->
  (color, ram, storage) <> (None, None, None) ->
  NewProductPage.variantId color ram storage = NewProductPage.joined_tags color ram storage.
Proof.
  intros Hc Hr Hs Hsome.
  unfold NewProductPage.variantId, NewProductPage.joined_tags, JS.and_then, JS.join.
  destruct color as [c|]; destruct ram as [r|]; destruct storage as [s|];
    try (exfalso; apply Hsome; reflexivity);
    cbn [NewProductPage.nonblank] in Hc, Hr, Hs;
    repeat match goal with
           | H : ?v <> ""%string |- _ =>
               rewrite (truthy_string_nonblank v H); clear H
           end;
    reflexivity.
Qed.


Lemma axis_nonblank (values : list string) (value : option string) :
  Forall (fun v => v <> ""%string) values ->
  In value (NewProductPage.axis values) ->
  NewProductPage.nonblank value.
Proof.
  intros Hall Hin. destruct value as [v|]; [|exact I].
  apply axis_Some in Hin. rewrite Forall_forall in Hall. exact (Hall v Hin).
Qed.

(** C2.  For every triple of axis lists with at least one list non-empty,
    [generateVariants] produces the Cartesian product over the non-empty
    lists only, colors outermost and storages innermost: as many variants as
    the product of the sizes of the non-empty lists, each with stock 0 and
    the two default prices.  The axis values being option values as the
    page keeps them, none of them the empty string, each id is the present
    axis tags joined in color, ram, storage order.  In particular
    [generateVariants(['Red','Blue'], [], ['128GB'])] yields the two
    variants color-Red-storage-128GB and color-Blue-storage-128GB, in that
    order. *)
Theorem generateVariants_cartesian (watch : NewProductPage.FormValues)
    (colors rams storages : list string) :
  colors ++ rams ++ storages <> [] ->
  NewProductPage.generateVariants watch colors rams storages =
    map (NewProductPage.variant_of
           (JS.or_number (NewProductPage.purchasedPrice watch) 0%float)
           (JS.or_number (NewProductPage.sellingPrice watch)
              (JS.or_number (NewProductPage.basePrice watch) 0%float)))
        (NewProductPage.combinations colors rams storages)
  /\ List.length (NewProductPage.generateVariants watch colors rams storages) =
       (NewProductPage.dimension colors * NewProductPage.dimension rams
        * NewProductPage.dimension storages)%nat
  /\ Forall (fun variant => ProductVariant.stock variant = 0%float)
       (NewProductPage.generateVariants watch colors rams storages)
  /\ (Forall (fun v => v <> ""%string) (colors ++ rams ++ storages) ->
      NewProductPage.generateVariants watch colors rams storages =
        map (NewProductPage.tagged_variant_of
               (JS.or_number (NewProductPage.purchasedPrice watch) 0%float)
               (JS.or_number (NewProductPage.sellingPrice watch)
                  (JS.or_number (NewProductPage.basePrice watch) 0%float)))
            (NewProductPage.combinations colors rams storages))
  /\ map ProductVariant.id
       (NewProductPage.generateVariants watch ["Red"; "Blue"] [] ["128GB"])%string =
       ["color-Red-storage-128GB"; "color-Blue-storage-128GB"]%string.
Proof.
  intros Hsome.
  unfold NewProductPage.generateVariants.
  rewrite (generateVariants_body_combinations colors rams storages _ _ Hsome).
  split; [reflexivity|].
  split; [rewrite length_map; apply combinations_length|].
  split.
  { apply Forall_forall. intros variant Hin.
    apply in_map_iff in Hin. destruct Hin as [[[c r] s] [<- _]]. reflexivity. }
  split; [|reflexivity].
  intros Hnonblank.
  apply Forall_app in Hnonblank. destruct Hnonblank as [Hcolors Hnonblank].
  apply Forall_app in Hnonblank. destruct Hnonblank as [Hrams Hstorages].
  apply map_ext_in. intros [[c r] s] Hin.
  apply in_combinations in Hin. destruct Hin as [Hc [Hr Hs]].
  unfold NewProductPage.variant_of, NewProductPage.tagged_variant_of.
  rewrite variantId_joined_tags; [reflexivity | | | |].
  - exact (axis_nonblank colors c Hcolors Hc).
  - exact (axis_nonblank rams r Hrams Hr).
  - exact (axis_nonblank storages s Hstorages Hs).
  - intros Heq. injection Heq as -> -> ->.
    apply Hsome.
    rewrite (axis_None colors Hc), (axis_None rams Hr), (axis_None storages Hs).
    reflexivity.
Qed.

(** The option handlers store no empty string (their test [color && ...]),
    and the id clause needs that: called with one, which no handler does,
    [generateVariants] sets the axis and writes no tag for it. *)
Lemma generateVariants_blank_value_example :
  map (fun variant => (ProductVariant.id variant, ProductVariant.color variant))
      (NewProductPage.generateVariants (NewProductPage.mkForm None None None)
         [""%string] [] []) =
    [("default"%string, Some ""%string)]
  /\ map (fun combination =>
            ProductVariant.id (NewProductPage.tagged_variant_of 0%float 0%float combination))
         (NewProductPage.combinations [""%string] [] []) =
    ["color-"%string].
Proof.
  split; reflexivity.
Qed.

Lemma generateVariants_cartesian_witness :
  NewProductPage.generateVariants
    (NewProductPage.mkForm (Some 50%float) (Some 40%float) (Some 60%float))
    ["Red"; "Blue"]%string [] ["128GB"]%string =
    [ ProductVariant.mk "color-Red-storage-128GB" (Some "Red") None (Some "128GB")
        40%float 60%float 0%float;
      ProductVariant.mk "color-Blue-storage-128GB" (Some "Blue") None (Some "128GB")
        40%float 60%float 0%float ]%string.
Proof.
  destruct (generateVariants_cartesian
              (NewProductPage.mkForm (Some 50%float) (Some 40%float) (Some 60%float))
              ["Red"; "Blue"]%string [] ["128GB"]%string) as [_ [_ [_ [Htagged _]]]].
  - discriminate.
  - rewrite Htagged; [reflexivity|].
    repeat constructor; discriminate.
Defined.

(** C6.  For every pair of default prices, [generateVariants] with the
    three axis lists empty produces exactly one variant: no color, ram or
    storage, id 'default', stock 0 and the two default prices, which are the
    form's purchased price (else 0) and selling price (else the base price,
    else 0). *)
Theorem generateVariants_default (watch : NewProductPage.FormValues)
    (purchasedPrice sellingPrice : JS.number) :
  NewProductPage.generateVariants_body [] [] [] purchasedPrice sellingPrice =
    [ProductVariant.mk "default" None None None purchasedPrice sellingPrice 0%float]
  /\ NewProductPage.generateVariants watch [] [] [] =
    [ProductVariant.mk "default" None None None
       (JS.or_number (NewProductPage.purchasedPrice watch) 0%float)
       (JS.or_number (NewProductPage.sellingPrice watch)
          (JS.or_number (NewProductPage.basePrice watch) 0%float))
       0%float]
  /\ (JS.truthy_number purchasedPrice = true ->
      JS.truthy_number sellingPrice = true ->
      NewProductPage.generateVariants
        (NewProductPage.mkForm (NewProductPage.basePrice watch)
           (Some purchasedPrice) (Some sellingPrice)) [] [] [] =
        [ProductVariant.mk "default" None None None purchasedPrice sellingPrice 0%float]).
Proof.
  split; [reflexivity|].
  split; [reflexivity|].
  intros Hpp Hsp.
  unfold NewProductPage.generateVariants, JS.or_number.
  cbn [NewProductPage.purchasedPrice NewProductPage.sellingPrice].
  rewrite Hpp, Hsp. reflexivity.
Qed.

(** C8.  For every variant list, [variantId], field and value,
    [updateVariant] returns a list of the same length in the same order: at
    each position, a variant whose id is [variantId] has that field set to
    the value and its other fields kept, and a variant with another id is
    unchanged. *)
Theorem updateVariant_frame (variants : list ProductVariant.t) (variantId : string)
    (field : NewProductPage.VariantField) (value : JS.number) :
  List.length (NewProductPage.updateVariant variants variantId field value) =
    List.length variants
  /\ forall (i : nat) (variant : ProductVariant.t),
       nth_error variants i = Some variant ->
       exists updated,
         nth_error (NewProductPage.updateVariant variants variantId field value) i =
           Some updated
         /\ (ProductVariant.id variant <> variantId -> updated = variant)
         /\ (ProductVariant.id variant = variantId ->
             NewProductPage.get_field updated field = value
             /\ ProductVariant.id updated = ProductVariant.id variant
             /\ ProductVariant.color updated = ProductVariant.color variant
             /\ ProductVariant.ram updated = ProductVariant.ram variant
             /\ ProductVariant.storage updated = ProductVariant.storage variant
             /\ forall other,
                  other <> field ->
                  NewProductPage.get_field updated other =
                    NewProductPage.get_field variant other).
Proof.
  unfold NewProductPage.updateVariant.
  split; [apply length_map|].
  intros i variant Hnth.
  rewrite nth_error_map, Hnth. cbn [option_map].
  eexists. split; [reflexivity|].
  destruct (String.eqb_spec (ProductVariant.id variant) variantId) as [Heq | Hne].
  - split; [intros Hcontra; contradiction|].
    intros _. destruct field; cbn; repeat split;
      intros other Hother; destruct other; try reflexivity; contradiction.
  - split; [reflexivity | intros Hcontra; contradiction].
Qed.

(** ** Number comparisons *)

Lemma SFcompare_antisym (f1 f2 : spec_float) :
  SFcompare f2 f1 = option_map CompOpp (SFcompare f1 f2).
Proof.
  destruct f1 as [s1|s1| |s1 m1 e1], f2 as [s2|s2| |s2 m2 e2]; simpl;
    try reflexivity;
    try (destruct s1; reflexivity); try (destruct s2; reflexivity);
    try (destruct s1, s2; reflexivity).
  change (PosDef.Pos.compare_cont Eq m2 m1) with (Pos.compare m2 m1).
  change (PosDef.Pos.compare_cont Eq m1 m2) with (Pos.compare m1 m2).
  rewrite (Z.compare_antisym e1 e2), (Pos.compare_antisym m1 m2).
  destruct s1, s2; try reflexivity;
    destruct (e1 ?= e2)%Z; reflexivity.
Qed.

Lemma not_nan_comparable (x y : JS.number) :
  PrimFloat.is_nan x = false ->
  PrimFloat.is_nan y = false ->
  SFcompare (Prim2SF x) (Prim2SF y) <> None.
Proof.
  unfold PrimFloat.is_nan. rewrite !FloatAxioms.eqb_spec. unfold SFeqb.
  destruct (Prim2SF x), (Prim2SF y); simpl; discriminate.
Qed.

(** On numbers that are not NaN, [a >= b] is the negation of [a < b]. *)
Lemma geb_negb_ltb (x y : JS.number) :
  PrimFloat.is_nan x = false ->
  PrimFloat.is_nan y = false ->
  (y <=? x)%float = negb (x <? y)%float.
Proof.
  intros Hx Hy. rewrite FloatAxioms.leb_spec, FloatAxioms.ltb_spec. unfold SFleb, SFltb.
  pose proof (not_nan_comparable x y Hx Hy) as Hc.
  rewrite (SFcompare_antisym (Prim2SF x) (Prim2SF y)).
  destruct (SFcompare (Prim2SF x) (Prim2SF y)) as [[]|]; try reflexivity.
  contradiction.
Qed.

(** A number that [=== 0] is not above 0. *)
Lemma zero_not_positive (x : JS.number) :
  (x =? 0)%float = true -> (x <=? 0)%float = true.
Proof.
  rewrite FloatAxioms.eqb_spec, FloatAxioms.leb_spec. unfold SFeqb, SFleb.
  destruct (SFcompare (Prim2SF x) (Prim2SF 0)) as [[]|]; congruence.
Qed.

(** ** The cart *)

Lemma product_id_spec (product : Product.t) (productId : string) :
  NewSalePage.product_id product = Some productId ->
  JS.or_ostring (Product._id product) (Product.id product) = Some productId /\
  JS.truthy_string productId = true.
Proof.
  unfold NewSalePage.product_id.
  destruct (JS.or_ostring (Product._id product) (Product.id product)) as [pid|];
    [|discriminate].
  destruct (JS.truthy_string pid) eqn:Htruthy; [|discriminate].
  intros Heq. injection Heq as <-. auto.
Qed.

(** A product filed under no id is ignored. *)
Lemma addToCart_no_id (cart : list CartItem.t) (product : Product.t) :
  NewSalePage.product_id product = None ->
  NewSalePage.addToCart cart product = [].
Proof.
  unfold NewSalePage.product_id, NewSalePage.addToCart.
  destruct (JS.or_ostring (Product._id product) (Product.id product)) as [pid|];
    [|reflexivity].
  destruct (JS.truthy_string pid); [discriminate | reflexivity].
Qed.

(** A product with an id and no first variant is refused. *)
Lemma addToCart_no_variant (cart : list CartItem.t) (product : Product.t)
    (productId : string) :
  NewSalePage.product_id product = Some productId ->
  NewSalePage.first_variant (Product.variants product) = None ->
  NewSalePage.addToCart cart product = [NewSalePage.ToastError NewSalePage.NoVariantAvailable].
Proof.
  intros Hid Hnone. apply product_id_spec in Hid. destruct Hid as [Hid Htruthy].
  unfold NewSalePage.addToCart. rewrite Hid, Htruthy, Hnone. reflexivity.
Qed.

(** What [addToCart] does for a product with an id and a first variant:
    the stock of that variant is compared with the quantity of the
    product's line, or with 0 when it has none. *)
Lemma addToCart_cases (cart : list CartItem.t) (product : Product.t)
    (productId : string) (variant : ProductVariant.t) (rest : list ProductVariant.t) :
  NewSalePage.product_id product = Some productId ->
  Product.variants product = Some (variant :: rest) ->
  NewSalePage.addToCart cart product =
    if (ProductVariant.stock variant <=?
          match NewSalePage.line_quantity cart productId with
          | Some quantity => quantity
          | None => 0
          end)%float
    then [NewSalePage.ToastError (NewSalePage.CannotAddMore (ProductVariant.stock variant))]
    else
      [ NewSalePage.SetCart
          (match NewSalePage.line_quantity cart productId with
           | Some _ => NewSalePage.incremented cart productId
           | None =>
               cart ++ [CartItem.mk productId (Product.name product)
                          (ProductVariant.sellingPrice variant) 1%float]
           end);
        NewSalePage.ToastSuccess (NewSalePage.AddedToCart (Product.name product)) ].
Proof.
  intros Hid Hvariants. apply product_id_spec in Hid. destruct Hid as [Hid Htruthy].
  unfold NewSalePage.addToCart, NewSalePage.line_quantity, NewSalePage.incremented.
  rewrite Hid, Htruthy, Hvariants. cbn [negb NewSalePage.first_variant].
  destruct (find (fun item => (CartItem.productId item =? productId)%string) cart);
    reflexivity.
Qed.

Lemma line_quantity_appended (cart : list CartItem.t) (productId name : string)
    (price quantity : JS.number) :
  NewSalePage.line_quantity cart productId = None ->
  NewSalePage.line_quantity (cart ++ [CartItem.mk productId name price quantity]) productId =
    Some quantity.
Proof.
  unfold NewSalePage.line_quantity. rewrite find_app_split.
  destruct (find (fun item => (CartItem.productId item =? productId)%string) cart);
    [discriminate|].
  intros _. cbn. rewrite String.eqb_refl. reflexivity.
Qed.

(** [incremented] keeps the order of the lines, adds 1 to the quantity of
    each line of the product and leaves the other lines as they are. *)
Lemma incremented_lines (cart : list CartItem.t) (productId : string) :
  List.length (NewSalePage.incremented cart productId) = List.length cart
  /\ forall (i : nat) (item : CartItem.t),
       nth_error cart i = Some item ->
       nth_error (NewSalePage.incremented cart productId) i =
         Some (if (CartItem.productId item =? productId)%string
               then CartItem.mk (CartItem.productId item) (CartItem.name item)
                      (CartItem.price item) (CartItem.quantity item + 1)%float
               else item).
Proof.
  unfold NewSalePage.incremented. split; [apply length_map|].
  intros i item Hnth. rewrite nth_error_map, Hnth. reflexivity.
Qed.

(** C4, as amended.  For every cart and every product that has an id and
    whose first variant has stock [s], neither [s] nor the quantity of the
    product's line being NaN: when the product has a line of quantity [q],
    [addToCart] adds 1 to the quantity of the product's line if [q < s] and
    otherwise rejects with the stock-exceeded toast, the cart unchanged;
    when it has no line, [addToCart] appends a line of quantity 1 if
    [0 < s] and otherwise, in particular when [s] is 0, rejects in the same
    way.  Adding a product without a line twice when [s] is 1 leaves the
    line appended by the first call, of quantity 1, and rejects the second
    call. *)
Theorem addToCart_stock_bound (cart : list CartItem.t) (product : Product.t)
    (productId : string) (variant : ProductVariant.t) (rest : list ProductVariant.t) :
  NewSalePage.product_id product = Some productId ->
  Product.variants product = Some (variant :: rest) ->
  PrimFloat.is_nan (ProductVariant.stock variant) = false ->
  (forall q, NewSalePage.line_quantity cart productId = Some q -> PrimFloat.is_nan q = false) ->
  (forall q,
     NewSalePage.line_quantity cart productId = Some q ->
     ((q <? ProductVariant.stock variant)%float = true ->
      NewSalePage.addToCart cart product =
        [ NewSalePage.SetCart (NewSalePage.incremented cart productId);
          NewSalePage.ToastSuccess (NewSalePage.AddedToCart (Product.name product)) ]
      /\ forall (i : nat) (item : CartItem.t),
           nth_error cart i = Some item ->
           nth_error
             (NewSalePage.cart_after cart (NewSalePage.addToCart cart product)) i =
             Some (if (CartItem.productId item =? productId)%string
                   then CartItem.mk (CartItem.productId item) (CartItem.name item)
                          (CartItem.price item) (CartItem.quantity item + 1)%float
                   else item))
     /\ ((q <? ProductVariant.stock variant)%float = false ->
         NewSalePage.addToCart cart product =
           [NewSalePage.ToastError (NewSalePage.CannotAddMore (ProductVariant.stock variant))]
         /\ NewSalePage.cart_after cart (NewSalePage.addToCart cart product) = cart))
  /\ (NewSalePage.line_quantity cart productId = None ->
      ((0 <? ProductVariant.stock variant)%float = true ->
       NewSalePage.addToCart cart product =
         [ NewSalePage.SetCart
             (cart ++ [CartItem.mk productId (Product.name product)
                         (ProductVariant.sellingPrice variant) 1%float]);
           NewSalePage.ToastSuccess (NewSalePage.AddedToCart (Product.name product)) ])
      /\ ((0 <? ProductVariant.stock variant)%float = false
          \/ (ProductVariant.stock variant =? 0)%float = true ->
          NewSalePage.addToCart cart product =
            [NewSalePage.ToastError (NewSalePage.CannotAddMore (ProductVariant.stock variant))]
          /\ NewSalePage.cart_after cart (NewSalePage.addToCart cart product) = cart)
      /\ (ProductVariant.stock variant = 1%float ->
          NewSalePage.cart_after cart (NewSalePage.addToCart cart product) =
            cart ++ [CartItem.mk productId (Product.name product)
                       (ProductVariant.sellingPrice variant) 1%float]
          /\ NewSalePage.addToCart
               (cart ++ [CartItem.mk productId (Product.name product)
                           (ProductVariant.sellingPrice variant) 1%float])
               product =
               [NewSalePage.ToastError (NewSalePage.CannotAddMore 1%float)]
          /\ NewSalePage.cart_after
               (cart ++ [CartItem.mk productId (Product.name product)
                           (ProductVariant.sellingPrice variant) 1%float])
               (NewSalePage.addToCart
                  (cart ++ [CartItem.mk productId (Product.name product)
                              (ProductVariant.sellingPrice variant) 1%float])
                  product) =
               cart ++ [CartItem.mk productId (Product.name product)
                          (ProductVariant.sellingPrice variant) 1%float])).
Proof.
  intros Hid Hvariants Hstock Hline.
  split.
  - intros q Hq.
    rewrite (addToCart_cases cart product productId variant rest Hid Hvariants), Hq.
    rewrite (geb_negb_ltb q (ProductVariant.stock variant) (Hline q Hq) Hstock).
    split; intros Hlt; rewrite Hlt; cbn [negb]; [|split; reflexivity].
    split; [reflexivity|].
    cbn [NewSalePage.cart_after fold_left].
    exact (proj2 (incremented_lines cart productId)).
  - intros Hnone.
    pose proof (addToCart_cases cart product productId variant rest Hid Hvariants) as Hcases.
    rewrite Hnone in Hcases.
    assert (Hzero : PrimFloat.is_nan 0%float = false) by reflexivity.
    pose proof (geb_negb_ltb 0%float (ProductVariant.stock variant) Hzero Hstock) as Hdual.
    split; [|split].
    + intros Hlt. rewrite Hcases, Hdual, Hlt. reflexivity.
    + intros [Hlt | Heq].
      * rewrite Hcases, Hdual, Hlt. split; reflexivity.
      * rewrite Hcases, (zero_not_positive _ Heq). split; reflexivity.
    + intros Hone.
      rewrite Hcases, Hone. cbn [NewSalePage.cart_after fold_left].
      split; [reflexivity|].
      rewrite (addToCart_cases _ product productId variant rest Hid Hvariants).
      rewrite (line_quantity_appended cart productId _ _ 1%float Hnone), Hone.
      split; reflexivity.
Qed.

(** C4 as stated fails for a product that has no id: with stock 5 and no
    line in the (empty) cart nothing is appended, and nothing is rejected
    either. *)
Lemma addToCart_without_id_example :
  NewSalePage.first_variant
    (Product.variants
       (Product.mk None None "Phone" "A" None None
          (Some [ProductVariant.mk "default" None None None 10%float 12%float 5%float]))%string)
    = Some (ProductVariant.mk "default" None None None 10%float 12%float 5%float)%string
  /\ NewSalePage.addToCart []
       (Product.mk None None "Phone" "A" None None
          (Some [ProductVariant.mk "default" None None None 10%float 12%float 5%float]))%string
     = []
  /\ NewSalePage.cart_after []
       (NewSalePage.addToCart []
          (Product.mk None None "Phone" "A" None None
             (Some [ProductVariant.mk "default" None None None 10%float 12%float 5%float]))%string)
     = [].
Proof.
  repeat split.
Qed.

Lemma addToCart_stock_bound_witness :
  NewSalePage.addToCart
    [CartItem.mk "p1" "Phone" 12%float 1%float]%string
    (Product.mk (Some "p1") None "Phone" "A" None None
       (Some [ProductVariant.mk "default" None None None 10%float 12%float 1%float]))%string
  = [NewSalePage.ToastError (NewSalePage.CannotAddMore 1%float)].
Proof.
  destruct (addToCart_stock_bound
              [CartItem.mk "p1" "Phone" 12%float 1%float]%string
              (Product.mk (Some "p1") None "Phone" "A" None None
                 (Some [ProductVariant.mk "default" None None None 10%float 12%float 1%float]))%string
              "p1"%string
              (ProductVariant.mk "default" None None None 10%float 12%float 1%float)%string
              []) as [Hline _].
  - reflexivity.
  - reflexivity.
  - reflexivity.
  - intros q Hq. vm_compute in Hq. injection Hq as <-. reflexivity.
  - destruct (Hline 1%float) as [_ Hreject]; [reflexivity|].
    destruct Hreject as [Heffects _]; [reflexivity|].
    exact Heffects.
Defined.


(** Why NaN is set aside above: [updateQuantity] stores a NaN quantity
    (what [parseInt] yields on an empty input), since NaN is neither below 1
    nor above the stock; and on a line whose quantity is NaN, [addToCart]
    does not reject although the quantity is not below the stock. *)
Example addToCart_nan_quantity :
  NewSalePage.updateQuantity
    [CartItem.mk "p1" "Phone" 12%float 1%float]%string
    [Product.mk (Some "p1") None "Phone" "A" None None
       (Some [ProductVariant.mk "default" None None None 10%float 12%float 1%float])]%string
    "p1"%string nan
  = [NewSalePage.SetCart [CartItem.mk "p1" "Phone" 12%float nan]%string]
  /\ (nan <? 1)%float = false
  /\ NewSalePage.rejected
       (NewSalePage.addToCart
          [CartItem.mk "p1" "Phone" 12%float nan]%string
          (Product.mk (Some "p1") None "Phone" "A" None None
             (Some [ProductVariant.mk "default" None None None 10%float 12%float 1%float]))%string)
     = false.
Proof.
  repeat split.
Qed.

Lemma product_id_with_variants (product : Product.t)
    (variants : option (list ProductVariant.t)) :
  NewSalePage.product_id (NewSalePage.with_variants product variants) = NewSalePage.product_id product.
Proof. reflexivity. Qed.

(** C10.  For every cart and every product, [addToCart] reads the variants
    list through its first element only: the variants after the first do
    not change what it does; for a product with an id the stock compared
    with the current quantity is that of the first variant and the unit
    price of an appended line is the first variant's selling price; and
    when the variants list is missing or empty the call stores no cart, so
    the cart is unchanged, with the 'No variant available' toast when the
    product has an id. *)
Theorem addToCart_first_variant_only (cart : list CartItem.t) (product : Product.t) :
  (forall variant rest rest',
     NewSalePage.addToCart cart (NewSalePage.with_variants product (Some (variant :: rest))) =
     NewSalePage.addToCart cart (NewSalePage.with_variants product (Some (variant :: rest'))))
  /\ (forall productId variant rest,
        NewSalePage.product_id product = Some productId ->
        Product.variants product = Some (variant :: rest) ->
        (NewSalePage.rejected (NewSalePage.addToCart cart product) =
           (ProductVariant.stock variant <=?
              match NewSalePage.line_quantity cart productId with
              | Some quantity => quantity
              | None => 0
              end)%float)
        /\ (NewSalePage.line_quantity cart productId = None ->
            NewSalePage.rejected (NewSalePage.addToCart cart product) = false ->
            NewSalePage.cart_after cart (NewSalePage.addToCart cart product) =
              cart ++ [CartItem.mk productId (Product.name product)
                         (ProductVariant.sellingPrice variant) 1%float]))
  /\ (Product.variants product = None \/ Product.variants product = Some [] ->
      NewSalePage.rejected (NewSalePage.addToCart cart product) = true
      /\ NewSalePage.cart_after cart (NewSalePage.addToCart cart product) = cart
      /\ (forall productId,
            NewSalePage.product_id product = Some productId ->
            NewSalePage.addToCart cart product =
              [NewSalePage.ToastError NewSalePage.NoVariantAvailable])).
Proof.
  split; [|split].
  - intros variant rest rest'.
    destruct (NewSalePage.product_id product) as [productId|] eqn:Hid.
    + rewrite (addToCart_cases cart _ productId variant rest),
        (addToCart_cases cart _ productId variant rest');
        try reflexivity; rewrite product_id_with_variants; exact Hid.
    + rewrite !addToCart_no_id; try reflexivity;
        rewrite product_id_with_variants; exact Hid.
  - intros productId variant rest Hid Hvariants.
    rewrite (addToCart_cases cart product productId variant rest Hid Hvariants).
    destruct (ProductVariant.stock variant <=?
                match NewSalePage.line_quantity cart productId with
                | Some quantity => quantity
                | None => 0
                end)%float.
    + split; [reflexivity | discriminate].
    + split; [reflexivity|]. intros Hnone _. rewrite Hnone. reflexivity.
  - intros Hmissing.
    assert (Hnone : NewSalePage.first_variant (Product.variants product) = None)
      by (destruct Hmissing as [-> | ->]; reflexivity).
    destruct (NewSalePage.product_id product) as [productId|] eqn:Hid.
    + rewrite (addToCart_no_variant cart product productId Hid Hnone).
      split; [reflexivity|]. split; [reflexivity|]. intros pid _. reflexivity.
    + rewrite (addToCart_no_id cart product Hid).
      split; [reflexivity|]. split; [reflexivity|]. intros pid Hcontra. discriminate.
Qed.

Lemma current_stock_lookup (products : list Product.t) (productId : string) :
  NewSalePage.current_stock products productId =
    option_map ProductVariant.stock
      match find (fun p =>
                    JS.ostring_eqb (JS.or_ostring (Product._id p) (Product.id p)) productId)
                 products with
      | Some p => NewSalePage.first_variant (Product.variants p)
      | None => None
      end.
Proof.
  unfold NewSalePage.current_stock.
  destruct (find _ products); reflexivity.
Qed.

(** What [updateQuantity] does, by the two tests it makes. *)
Lemma updateQuantity_cases (cart : list CartItem.t) (products : list Product.t)
    (productId : string) (quantity : JS.number) :
  NewSalePage.updateQuantity cart products productId quantity =
    if (quantity <? 1)%float then []
    else
      match NewSalePage.current_stock products productId with
      | Some stock =>
          if (stock <? quantity)%float
          then [NewSalePage.ToastError (NewSalePage.CannotExceedStockLimit stock)]
          else [NewSalePage.SetCart (NewSalePage.replaced cart productId quantity)]
      | None => [NewSalePage.SetCart (NewSalePage.replaced cart productId quantity)]
      end.
Proof.
  rewrite current_stock_lookup.
  unfold NewSalePage.updateQuantity, NewSalePage.replaced.
  destruct (quantity <? 1)%float; [reflexivity|].
  destruct (find _ products) as [p|]; [|reflexivity].
  destruct (NewSalePage.first_variant (Product.variants p)); reflexivity.
Qed.

(** C7.  For every cart, product list, [productId] and quantity,
    [updateQuantity] rejects, leaving the cart unchanged, if and only if the
    quantity is below 1 or exceeds the stock of the product's first variant;
    otherwise it stores the cart in which every line of the product has the
    given quantity and every other line is unchanged. *)
Theorem updateQuantity_bounds (cart : list CartItem.t) (products : list Product.t)
    (productId : string) (quantity : JS.number) :
  (NewSalePage.rejected (NewSalePage.updateQuantity cart products productId quantity) = true
   <-> (quantity <? 1)%float = true
       \/ exists stock,
            NewSalePage.current_stock products productId = Some stock
            /\ (stock <? quantity)%float = true)
  /\ (NewSalePage.rejected (NewSalePage.updateQuantity cart products productId quantity) = true ->
      NewSalePage.cart_after cart
        (NewSalePage.updateQuantity cart products productId quantity) = cart)
  /\ (NewSalePage.rejected (NewSalePage.updateQuantity cart products productId quantity) = false ->
      NewSalePage.updateQuantity cart products productId quantity =
        [NewSalePage.SetCart (NewSalePage.replaced cart productId quantity)]
      /\ NewSalePage.cart_after cart
           (NewSalePage.updateQuantity cart products productId quantity) =
           NewSalePage.replaced cart productId quantity)
  /\ List.length (NewSalePage.replaced cart productId quantity) = List.length cart
  /\ (forall (i : nat) (item : CartItem.t),
        nth_error cart i = Some item ->
        nth_error (NewSalePage.replaced cart productId quantity) i =
          Some (if (CartItem.productId item =? productId)%string
                then CartItem.mk (CartItem.productId item) (CartItem.name item)
                       (CartItem.price item) quantity
                else item)).
Proof.
  rewrite updateQuantity_cases.
  split; [|split; [|split; [|split]]].
  - destruct (quantity <? 1)%float; [cbn; tauto|].
    destruct (NewSalePage.current_stock products productId) as [stock|].
    + destruct (stock <? quantity)%float eqn:Hexceeds; cbn.
      * split; [|reflexivity]. intros _. right. exists stock. auto.
      * split; [discriminate|].
        intros [Hcontra | [stock' [Heq Hcontra]]]; [discriminate|].
        injection Heq as <-. congruence.
    + cbn. split; [discriminate|].
      intros [Hcontra | [stock' [Heq _]]]; discriminate.
  - destruct (quantity <? 1)%float; [reflexivity|].
    destruct (NewSalePage.current_stock products productId) as [stock|];
      [destruct (stock <? quantity)%float|]; cbn; try reflexivity; discriminate.
  - destruct (quantity <? 1)%float; [discriminate|].
    destruct (NewSalePage.current_stock products productId) as [stock|];
      [destruct (stock <? quantity)%float|]; cbn; try discriminate;
      intros _; split; reflexivity.
  - apply length_map.
  - intros i item Hnth. unfold NewSalePage.replaced.
    rewrite nth_error_map, Hnth. reflexivity.
Qed.

(** ** Proportional pricing *)

(** *** Integers as binary64 values *)

Lemma digits2_pos_bound (m : positive) :
  (2 ^ (Z.pos (digits2_pos m) - 1) <= Z.pos m < 2 ^ Z.pos (digits2_pos m))%Z.
Proof.
  induction m as [m IH|m IH|]; cbn [digits2_pos].
  - rewrite Pos2Z.inj_succ.
    replace (Z.succ (Z.pos (digits2_pos m)) - 1)%Z with (Z.succ (Z.pos (digits2_pos m) - 1))%Z by lia.
    rewrite !Z.pow_succ_r by lia. lia.
  - rewrite Pos2Z.inj_succ.
    replace (Z.succ (Z.pos (digits2_pos m)) - 1)%Z with (Z.succ (Z.pos (digits2_pos m) - 1))%Z by lia.
    rewrite !Z.pow_succ_r by lia. lia.
  - cbn. lia.
Qed.

Lemma digits2_pos_iter_xO (m d : positive) :
  digits2_pos (Pos.iter xO m d) = (digits2_pos m + d)%positive.
Proof.
  induction d as [|d IH] using Pos.peano_ind.
  - cbn. lia.
  - rewrite Pos.iter_succ. cbn [digits2_pos]. rewrite IH. lia.
Qed.

Lemma iter_xO_value (m d : positive) :
  Z.pos (Pos.iter xO m d) = (Z.pos m * 2 ^ Z.pos d)%Z.
Proof.
  induction d as [|d IH] using Pos.peano_ind.
  - cbn. lia.
  - rewrite Pos.iter_succ, Pos2Z.inj_xO, IH, Pos2Z.inj_succ, Z.pow_succ_r by lia. lia.
Qed.

Lemma binary_round_aux_exact (s : bool) (m : positive) (e : Z) :
  fexp prec emax (Z.pos (digits2_pos m) + e) = e ->
  (e <= emax - prec)%Z ->
  binary_round_aux prec emax s (Z.pos m) e loc_Exact = S754_finite s m e.
Proof.
  intros Hfexp Hle.
  unfold binary_round_aux, shr_fexp.
  cbn [Zdigits2 shr_record_of_loc].
  rewrite Hfexp, Z.sub_diag. cbn [shr shr_m loc_of_shr_record round_nearest_even Zdigits2].
  rewrite Hfexp, Z.sub_diag. cbn [shr shr_m].
  apply Z.leb_le in Hle. rewrite Hle. reflexivity.
Qed.

(** An integer below [2^53] converts to the float of that value. *)
Lemma binary_normalize_integer (p : positive) :
  (Z.pos p < 2 ^ 53)%Z ->
  exists m e,
    binary_normalize prec emax (Z.pos p) 0 false = S754_finite false m e
    /\ (e <= 0)%Z
    /\ (Z.pos m = Z.pos p * 2 ^ (- e))%Z.
Proof.
  intros Hlt.
  assert (Hdigits : (Z.pos (digits2_pos p) <= 53)%Z).
  { destruct (Z.le_gt_cases (Z.pos (digits2_pos p)) 53) as [H|H]; [exact H|].
    exfalso. pose proof (digits2_pos_bound p) as [Hlow _].
    assert (2 ^ 53 <= 2 ^ (Z.pos (digits2_pos p) - 1))%Z
      by (apply Z.pow_le_mono_r; lia).
    lia. }
  cbn [binary_normalize]. unfold binary_round.
  assert (Hfexp : fexp prec emax (Z.pos (digits2_pos p) + 0) = (Z.pos (digits2_pos p) - 53)%Z).
  { unfold fexp, SpecFloat.emin, prec, emax. lia. }
  rewrite Hfexp. unfold shl_align.
  destruct (Z.pos (digits2_pos p) - 53 - 0)%Z as [|d|d] eqn:Hd; try lia.
  - exists p, 0%Z. split; [|split; [lia | cbn; lia]].
    apply binary_round_aux_exact; [|unfold prec, emax; lia].
    rewrite Hfexp. lia.
  - exists (Pos.iter xO p d), (Z.pos (digits2_pos p) - 53)%Z.
    split; [|split; [lia|]].
    + apply binary_round_aux_exact; [|unfold prec, emax; lia].
      rewrite digits2_pos_iter_xO. unfold fexp, SpecFloat.emin, prec, emax. lia.
    + rewrite iter_xO_value. f_equal. f_equal. lia.
Qed.

Lemma valid_mantissa_bound (x : JS.number) (s : bool) (m : positive) (e : Z) :
  Prim2SF x = S754_finite s m e -> (Z.pos m < 2 ^ 53)%Z.
Proof.
  intros Hx. pose proof (Prim2SF_valid x) as Hvalid. rewrite Hx in Hvalid.
  cbn [SpecFloat.valid_binary] in Hvalid. unfold bounded, canonical_mantissa in Hvalid.
  apply andb_true_iff in Hvalid. destruct Hvalid as [Hcanon _].
  apply Z.eqb_eq in Hcanon. unfold fexp, SpecFloat.emin, prec, emax in Hcanon.
  pose proof (digits2_pos_bound m) as [_ Hhigh].
  assert (2 ^ Z.pos (digits2_pos m) <= 2 ^ 53)%Z by (apply Z.pow_le_mono_r; lia).
  lia.
Qed.

Lemma of_uint63_integer (p : positive) :
  (Z.pos p < 2 ^ 53)%Z ->
  exists m e,
    Prim2SF (PrimFloat.of_uint63 (Uint63.of_Z (Z.pos p))) = S754_finite false m e
    /\ (e <= 0)%Z
    /\ (Z.pos m = Z.pos p * 2 ^ (- e))%Z.
Proof.
  intros Hlt. rewrite of_uint63_spec, Uint63.of_Z_spec.
  rewrite Z.mod_small.
  - apply binary_normalize_integer. exact Hlt.
  - split; [lia|]. apply Z.lt_trans with (2 ^ 53)%Z; [exact Hlt | reflexivity].
Qed.

Lemma exact_integer (x : JS.number) (s : bool) (m p : positive) (e : Z) :
  Prim2SF x = S754_finite s m e ->
  (e <= 0)%Z ->
  (Z.pos m = Z.pos p * 2 ^ (- e))%Z ->
  has_value x (inject_Z (if s then Z.neg p else Z.pos p)).
Proof.
  intros Hx He Hm. unfold has_value, exact. rewrite Hx.
  destruct (0 <=? e)%Z eqn:Hsign.
  - apply Z.leb_le in Hsign. assert (e = 0%Z) as -> by lia.
    cbn in Hm. rewrite Z.pow_0_r, Z.mul_1_r.
    assert (m = p) as -> by lia. reflexivity.
  - unfold Qeq. cbn [Qnum Qden inject_Z].
    assert (0 < 2 ^ (- e))%Z by (apply Z.pow_pos_nonneg; lia).
    rewrite Z2Pos.id by assumption.
    destruct s; lia.
Qed.

Lemma Qfloor_half (z : Z) : Qfloor (inject_Z z + (1 # 2)) = z.
Proof.
  unfold Qfloor, Qplus, inject_Z. cbn [Qnum Qden].
  rewrite Pos.mul_1_l.
  replace (z * 2 + 1 * 1)%Z with (1 + z * 2)%Z by lia.
  rewrite Z.div_add by lia. reflexivity.
Qed.

Lemma Math_round_not_finite (x : JS.number) :
  exact x = None -> JS.Math_round x = x.
Proof.
  unfold exact, JS.Math_round. destruct (Prim2SF x); try discriminate; reflexivity.
Qed.

(** [Math.round(x)] is [floor(x + 1/2)], in exact arithmetic. *)
Lemma Math_round_nearest (x : JS.number) (q : Q) :
  has_value x q ->
  has_value (JS.Math_round x) (inject_Z (Qfloor (q + (1 # 2)))).
Proof.
  unfold has_value at 1. unfold exact.
  destruct (Prim2SF x) as [s0|s0| |s m e] eqn:Hx; try contradiction.
  - intros Hq. rewrite <- Hq.
    unfold JS.Math_round. rewrite Hx. unfold has_value, exact. rewrite Hx. reflexivity.
  - unfold JS.Math_round. rewrite Hx.
    destruct (0 <=? e)%Z eqn:Hsign.
    + intros Hq. rewrite <- Hq, Qfloor_half.
      unfold has_value, exact. rewrite Hx, Hsign. reflexivity.
    + intros Hq. rewrite <- Hq. clear Hq q.
      apply Z.leb_gt in Hsign.
      pose proof (valid_mantissa_bound x s m e Hx) as Hm.
      set (v := if s then Z.neg m else Z.pos m).
      set (d := (2 ^ (- e))%Z).
      assert (Hd : (2 <= d)%Z).
      { unfold d. change 2%Z with (2 ^ 1)%Z at 1. apply Z.pow_le_mono_r; lia. }
      assert (Hfloor : Qfloor ((v # Z.to_pos d) + (1 # 2)) = ((2 * v + d) / (2 * d))%Z).
      { unfold Qfloor, Qplus. cbn [Qnum Qden].
        rewrite Pos2Z.inj_mul, Z2Pos.id by lia.
        f_equal; lia. }
      rewrite Hfloor.
      set (n := ((2 * v + d) / (2 * d))%Z).
      assert (Hn : (2 * d * n <= 2 * v + d < 2 * d * (n + 1))%Z).
      { unfold n. split.
        - apply Z.mul_div_le. lia.
        - rewrite Z.mul_add_distr_l, Z.mul_1_r.
          pose proof (Z.mod_pos_bound (2 * v + d) (2 * d)) as Hmod.
          pose proof (Z.div_mod (2 * v + d) (2 * d)) as Hdiv.
          lia. }
      assert (Hv : (- 2 ^ 53 < v < 2 ^ 53)%Z) by (unfold v; destruct s; lia).
      assert (Hbound : (- 2 ^ 53 < n < 2 ^ 53)%Z) by nia.
      destruct (n =? 0)%Z eqn:Hzero.
      { apply Z.eqb_eq in Hzero. rewrite Hzero.
        destruct s; unfold has_value, exact; cbn; reflexivity. }
      apply Z.eqb_neq in Hzero.
      destruct (n <? 0)%Z eqn:Hneg.
      * apply Z.ltb_lt in Hneg.
        destruct n as [|p|p]; try lia.
        cbn [Z.opp].
        destruct (of_uint63_integer p) as [m' [e' [Hp [He' Hm']]]]; [lia|].
        apply (exact_integer _ true m' p e'); [|exact He'|exact Hm'].
        rewrite opp_spec, Hp. reflexivity.
      * apply Z.ltb_ge in Hneg.
        destruct n as [|p|p]; try lia.
        destruct (of_uint63_integer p) as [m' [e' [Hp [He' Hm']]]]; [lia|].
        exact (exact_integer _ false m' p e' Hp He' Hm').
Qed.

Lemma stringify_number_not_finite (x : JS.number) :
  exact x = None -> JSON.stringify_number (x / 100)%float = JSON.Null.
Proof.
  unfold exact, JSON.stringify_number. rewrite div_spec.
  destruct (Prim2SF x); try discriminate; intros _; reflexivity.
Qed.

(** C5.  For every id, purchased price and profit margin,
    [updateProportionalPricing] sends a PATCH of the product whose body
    carries the purchased price and, as selling price, [k / 100], where [k]
    is [purchasedPrice * (1 + profitMargin / 100) * 100] rounded to the
    nearest integer: when that product has the value [q], [k] has the value
    [floor(q + 1/2)], the integer nearest to [q] and the upper one of the two
    when [q] lies half-way.  (When the product is [NaN] or an infinity, the
    member is written [null].)  With purchased price 100 and profit margin 25
    the selling price is exactly 125; with 10.5 and 12.5 the price 11.8125
    is sent as 1181 / 100, and with 0.125 and 0 the price 0.125 as
    13 / 100. *)
Theorem updateProportionalPricing_round2 (id : string)
    (purchasedPrice profitMargin : JS.number) :
  (exists k : JS.number,
     ProductsApi.updateProportionalPricing id purchasedPrice profitMargin =
       ProductsApi.mkRequest ("/products/" ++ id)%string "PATCH"%string
         (JSON.Object
            [ ("purchasedPrice"%string, JSON.stringify_number purchasedPrice);
              ("sellingPrice"%string, JSON.stringify_number (k / 100)%float) ])
     /\ (forall q : Q,
           has_value (purchasedPrice * (1 + profitMargin / 100) * 100)%float q ->
           has_value k (inject_Z (Qfloor (q + (1 # 2))%Q)))
     /\ (exact (purchasedPrice * (1 + profitMargin / 100) * 100)%float = None ->
         JSON.stringify_number (k / 100)%float = JSON.Null))
  /\ ProductsApi.body (ProductsApi.updateProportionalPricing id 100%float 25%float) =
       JSON.Object
         [ ("purchasedPrice"%string, JSON.Number 100%float);
           ("sellingPrice"%string, JSON.Number 125%float) ]
  /\ ProductsApi.body (ProductsApi.updateProportionalPricing id 10.5%float 12.5%float) =
       JSON.Object
         [ ("purchasedPrice"%string, JSON.Number 10.5%float);
           ("sellingPrice"%string, JSON.Number (1181 / 100)%float) ]
  /\ ProductsApi.body (ProductsApi.updateProportionalPricing id 0.125%float 0%float) =
       JSON.Object
         [ ("purchasedPrice"%string, JSON.Number 0.125%float);
           ("sellingPrice"%string, JSON.Number (13 / 100)%float) ].
Proof.
  split.
  - exists (JS.Math_round (purchasedPrice * (1 + profitMargin / 100) * 100)%float).
    split; [reflexivity|]. split.
    + intros q Hq. apply Math_round_nearest. exact Hq.
    + intros Hnone. rewrite (Math_round_not_finite _ Hnone).
      apply stringify_number_not_finite. exact Hnone.
  - split; [|split]; vm_compute; reflexivity.
Qed.

(** A product that overflows is not sent as a number: the selling price of
    [2^1023] at a margin of 900 is written [null]. *)
Example updateProportionalPricing_overflow :
  ProductsApi.body
    (ProductsApi.updateProportionalPricing "p1"%string
       0x1p1023%float 900%float) =
    JSON.Object
      [ ("purchasedPrice"%string, JSON.Number 0x1p1023%float);
        ("sellingPrice"%string, JSON.Null) ].
Proof.
  vm_compute. reflexivity.
Qed.

(** * Further properties *)

(** ** The cart over a session *)

Lemma line_quantity_None (cart : list CartItem.t) (productId : string) :
  NewSalePage.line_quantity cart productId = None <->
  ~ In productId (NewSalePage.line_ids cart).
Proof.
  unfold NewSalePage.line_quantity, NewSalePage.line_ids.
  induction cart as [|item cart IH]; simpl.
  - tauto.
  - destruct (String.eqb_spec (CartItem.productId item) productId) as [Heq | Hne]; simpl.
    + split; [discriminate | intros H; exfalso; apply H; left; exact Heq].
    + rewrite IH. tauto.
Qed.

Lemma line_ids_incremented (cart : list CartItem.t) (productId : string) :
  NewSalePage.line_ids (NewSalePage.incremented cart productId) = NewSalePage.line_ids cart.
Proof.
  unfold NewSalePage.line_ids, NewSalePage.incremented. rewrite map_map.
  apply map_ext. intros item.
  destruct (CartItem.productId item =? productId)%string; reflexivity.
Qed.

Lemma line_ids_replaced (cart : list CartItem.t) (productId : string) (quantity : JS.number) :
  NewSalePage.line_ids (NewSalePage.replaced cart productId quantity) =
    NewSalePage.line_ids cart.
Proof.
  unfold NewSalePage.line_ids, NewSalePage.replaced. rewrite map_map.
  apply map_ext. intros item.
  destruct (CartItem.productId item =? productId)%string; reflexivity.
Qed.

Lemma line_ids_removed (cart : list CartItem.t) (productId : string) :
  NewSalePage.line_ids
    (filter (fun item => negb (CartItem.productId item =? productId)%string) cart) =
    filter (fun id => negb (id =? productId)%string) (NewSalePage.line_ids cart).
Proof.
  unfold NewSalePage.line_ids.
  induction cart as [|item cart IH]; simpl; [reflexivity|].
  destruct (CartItem.productId item =? productId)%string; simpl; rewrite IH; reflexivity.
Qed.

(** The cart [addToCart] leaves: the cart itself, the cart with the
    product's line incremented, or the cart with a line for the product
    appended, the product then having an id and no line before. *)
Lemma addToCart_outcomes (cart : list CartItem.t) (product : Product.t) :
  NewSalePage.cart_after cart (NewSalePage.addToCart cart product) = cart
  \/ (exists productId,
        NewSalePage.product_id product = Some productId /\
        NewSalePage.cart_after cart (NewSalePage.addToCart cart product) =
          NewSalePage.incremented cart productId)
  \/ (exists productId variant,
        NewSalePage.product_id product = Some productId /\
        NewSalePage.first_variant (Product.variants product) = Some variant /\
        NewSalePage.line_quantity cart productId = None /\
        NewSalePage.cart_after cart (NewSalePage.addToCart cart product) =
          cart ++ [CartItem.mk productId (Product.name product)
                     (ProductVariant.sellingPrice variant) 1%float]).
Proof.
  destruct (NewSalePage.product_id product) as [productId|] eqn:Hid.
  - destruct (Product.variants product) as [[|variant rest]|] eqn:Hvariants.
    + left. rewrite (addToCart_no_variant cart product productId Hid); [reflexivity|].
      rewrite Hvariants. reflexivity.
    + rewrite (addToCart_cases cart product productId variant rest Hid Hvariants).
      destruct (ProductVariant.stock variant <=? _)%float; [left; reflexivity|].
      destruct (NewSalePage.line_quantity cart productId) eqn:Hline.
      * right; left. exists productId. split; reflexivity.
      * right; right. exists productId, variant. repeat split; assumption.
    + left. rewrite (addToCart_no_variant cart product productId Hid); [reflexivity|].
      rewrite Hvariants. reflexivity.
  - left. rewrite (addToCart_no_id cart product Hid). reflexivity.
Qed.

Lemma updateQuantity_outcomes (cart : list CartItem.t) (products : list Product.t)
    (productId : string) (quantity : JS.number) :
  NewSalePage.cart_after cart (NewSalePage.updateQuantity cart products productId quantity) =
    cart
  \/ NewSalePage.cart_after cart
       (NewSalePage.updateQuantity cart products productId quantity) =
     NewSalePage.replaced cart productId quantity.
Proof.
  rewrite updateQuantity_cases.
  destruct (quantity <? 1)%float; [left; reflexivity|].
  destruct (NewSalePage.current_stock products productId) as [stock|];
    [destruct (stock <? quantity)%float|]; auto.
Qed.

(** The cart [onSubmit] leaves: emptied when the sale was created, the cart
    itself otherwise. *)
Lemma onSubmit_cart (cart : list CartItem.t) (customerName : string)
    (responses : NewSalePage.Responses) :
  NewSalePage.cart_after_events cart (NewSalePage.onSubmit cart customerName responses) =
    match NewSalePage.createSale_response responses with
    | inl _ => []
    | inr _ => cart
    end.
Proof.
  unfold NewSalePage.onSubmit, NewSalePage.printReceipt, NewSalePage.fetchAvailableProducts.
  destruct cart as [|item cart].
  - destruct (NewSalePage.createSale_response responses); reflexivity.
  - cbn [List.length Nat.eqb].
    destruct (NewSalePage.createSale_response responses) as [sale | thrown];
      [|reflexivity].
    destruct (NewSalePage.getPrintReceipt_response responses);
      destruct (NewSalePage.window_opened responses);
      destruct (NewSalePage.getAvailableProducts_response responses);
      reflexivity.
Qed.

Lemma product_id_nonblank (product : Product.t) (productId : string) :
  NewSalePage.product_id product = Some productId -> productId <> ""%string.
Proof.
  intros Hid. apply product_id_spec in Hid. destruct Hid as [_ Htruthy].
  unfold JS.truthy_string in Htruthy. intros ->. discriminate.
Qed.

Lemma step_well_formed (cart : list CartItem.t) (action : NewSalePage.Action) :
  cart_well_formed cart -> cart_well_formed (NewSalePage.step cart action).
Proof.
  intros [Hnodup Hnonblank]. unfold cart_well_formed.
  destruct action as [product | productId | products productId quantity
                     | customerName responses];
    cbn [NewSalePage.step].
  - destruct (addToCart_outcomes cart product)
      as [-> | [[productId [_ ->]] | [productId [variant [Hid [_ [Hline ->]]]]]]].
    + auto.
    + rewrite line_ids_incremented. auto.
    + unfold NewSalePage.line_ids in *. rewrite map_app. cbn [map CartItem.productId].
      split.
      * apply NoDup_app; [exact Hnodup | repeat constructor; intros [] |].
        intros id Hin [<- | []]. apply line_quantity_None in Hline. contradiction.
      * apply Forall_app. split; [exact Hnonblank|].
        constructor; [|constructor]. exact (product_id_nonblank product productId Hid).
  - cbn. rewrite line_ids_removed. split.
    + apply NoDup_filter. exact Hnodup.
    + rewrite Forall_forall in *. intros id Hin. apply filter_In in Hin.
      apply Hnonblank. tauto.
  - destruct (updateQuantity_outcomes cart products productId quantity) as [-> | ->].
    + auto.
    + rewrite line_ids_replaced. auto.
  - rewrite onSubmit_cart.
    destruct (NewSalePage.createSale_response responses); [|auto].
    split; constructor.
Qed.

Lemma cart_lines_unique_aux (actions : list NewSalePage.Action) :
  cart_well_formed (NewSalePage.run actions).
Proof.
  unfold NewSalePage.run.
  assert (Hgen : forall cart, cart_well_formed cart ->
                   cart_well_formed (fold_left NewSalePage.step actions cart)).
  { induction actions as [|action actions IH]; intros cart Hcart; simpl.
    - exact Hcart.
    - apply IH. apply step_well_formed. exact Hcart. }
  apply Hgen. split; constructor.
Qed.

(** X1.  Whatever the user does from the empty cart (adding products,
    removing lines, setting quantities, submitting), the cart never holds
    two lines for the same product, and no line has an empty product id. *)
Theorem cart_lines_unique (actions : list NewSalePage.Action) :
  NoDup (NewSalePage.line_ids (NewSalePage.run actions))
  /\ Forall (fun id => id <> ""%string) (NewSalePage.line_ids (NewSalePage.run actions)).
Proof.
  exact (cart_lines_unique_aux actions).
Qed.

Lemma NoDup_map_nth_error {A B : Type} (f : A -> B) (l : list A) (i j : nat) (x y : A) :
  NoDup (map f l) ->
  nth_error l i = Some x ->
  nth_error l j = Some y ->
  f x = f y ->
  i = j.
Proof.
  intros Hnodup Hi Hj Heq.
  assert (Hmi : nth_error (map f l) i = Some (f x)) by (rewrite nth_error_map, Hi; reflexivity).
  assert (Hmj : nth_error (map f l) j = Some (f x))
    by (rewrite nth_error_map, Hj, Heq; reflexivity).
  rewrite NoDup_nth_error in Hnodup.
  apply Hnodup.
  - apply nth_error_Some. rewrite Hmi. discriminate.
  - rewrite Hmi, Hmj. reflexivity.
Qed.

(** X2.  In a cart reached from the empty cart, an [addToCart] that is
    accepted for a product whose line is at position [i] adds 1 to the
    quantity of that one line: every other position holds the line it held,
    and the line at [i] keeps its product id, name and price. *)
Theorem addToCart_one_line (actions : list NewSalePage.Action) (product : Product.t)
    (productId : string) (i : nat) (line : CartItem.t) :
  NewSalePage.product_id product = Some productId ->
  nth_error (NewSalePage.run actions) i = Some line ->
  CartItem.productId line = productId ->
  NewSalePage.rejected (NewSalePage.addToCart (NewSalePage.run actions) product) = false ->
  forall (j : nat) (item : CartItem.t),
    nth_error (NewSalePage.run actions) j = Some item ->
    nth_error
      (NewSalePage.cart_after (NewSalePage.run actions)
         (NewSalePage.addToCart (NewSalePage.run actions) product)) j =
      Some (if (j =? i)%nat
            then CartItem.mk (CartItem.productId item) (CartItem.name item)
                   (CartItem.price item) (CartItem.quantity item + 1)%float
            else item).
Proof.
  intros Hid Hline Hpid Haccepted j item Hitem.
  destruct (cart_lines_unique_aux actions) as [Hnodup _].
  set (cart := NewSalePage.run actions) in *.
  assert (Hhas : NewSalePage.line_quantity cart productId <> None).
  { intros Hnone. apply line_quantity_None in Hnone. apply Hnone.
    unfold NewSalePage.line_ids. rewrite <- Hpid.
    apply in_map. exact (nth_error_In _ _ Hline). }
  destruct (Product.variants product) as [[|variant rest]|] eqn:Hvariants.
  - rewrite (addToCart_no_variant cart product productId Hid) in Haccepted;
      [discriminate | rewrite Hvariants; reflexivity].
  - rewrite (addToCart_cases cart product productId variant rest Hid Hvariants) in *.
    destruct (ProductVariant.stock variant <=? _)%float; [discriminate|].
    destruct (NewSalePage.line_quantity cart productId); [|contradiction].
    cbn [NewSalePage.cart_after fold_left].
    rewrite (proj2 (incremented_lines cart productId) j item Hitem).
    destruct (Nat.eqb_spec j i) as [-> | Hne].
    + rewrite Hline in Hitem. injection Hitem as <-.
      rewrite Hpid, String.eqb_refl. reflexivity.
    + destruct (String.eqb_spec (CartItem.productId item) productId) as [Heq | _];
        [|reflexivity].
      exfalso. apply Hne.
      apply (NoDup_map_nth_error CartItem.productId cart j i item line Hnodup Hitem Hline).
      congruence.
  - rewrite (addToCart_no_variant cart product productId Hid) in Haccepted;
      [discriminate | rewrite Hvariants; reflexivity].
Qed.

Lemma addToCart_one_line_witness :
  nth_error
    (NewSalePage.cart_after
       (NewSalePage.run
          [NewSalePage.Add
             (Product.mk (Some "p1") None "Phone" "A" None None
                (Some [ProductVariant.mk "default" None None None 10%float 12%float 2%float]))%string])
       (NewSalePage.addToCart
          (NewSalePage.run
             [NewSalePage.Add
                (Product.mk (Some "p1") None "Phone" "A" None None
                   (Some [ProductVariant.mk "default" None None None 10%float 12%float 2%float]))%string])
          (Product.mk (Some "p1") None "Phone" "A" None None
             (Some [ProductVariant.mk "default" None None None 10%float 12%float 2%float]))%string))
    0 = Some (CartItem.mk "p1" "Phone" 12%float 2%float)%string.
Proof.
  exact (addToCart_one_line
           [NewSalePage.Add
              (Product.mk (Some "p1") None "Phone" "A" None None
                 (Some [ProductVariant.mk "default" None None None 10%float 12%float 2%float]))%string]
           (Product.mk (Some "p1") None "Phone" "A" None None
              (Some [ProductVariant.mk "default" None None None 10%float 12%float 2%float]))%string
           "p1"%string 0 (CartItem.mk "p1" "Phone" 12%float 1%float)%string
           eq_refl eq_refl eq_refl eq_refl
           0 (CartItem.mk "p1" "Phone" 12%float 1%float)%string eq_refl).
Defined.

(** X3.  [removeFromCart] keeps exactly the lines of the other products, in
    their order: no line of the product is left, the line of every other
    product is the one it was, removing a product that has no line returns
    the same cart, and removing twice is removing once. *)
Theorem removeFromCart_lines (cart : list CartItem.t) (productId : string) :
  (forall item,
     In item (NewSalePage.cart_after_events cart (NewSalePage.removeFromCart cart productId))
     <-> In item cart /\ CartItem.productId item <> productId)
  /\ NewSalePage.line_ids
       (NewSalePage.cart_after_events cart (NewSalePage.removeFromCart cart productId)) =
     filter (fun id => negb (id =? productId)%string) (NewSalePage.line_ids cart)
  /\ NewSalePage.line_quantity
       (NewSalePage.cart_after_events cart (NewSalePage.removeFromCart cart productId))
       productId = None
  /\ (forall other,
        other <> productId ->
        find (fun item => (CartItem.productId item =? other)%string)
          (NewSalePage.cart_after_events cart (NewSalePage.removeFromCart cart productId)) =
        find (fun item => (CartItem.productId item =? other)%string) cart)
  /\ (NewSalePage.line_quantity cart productId = None ->
      NewSalePage.cart_after_events cart (NewSalePage.removeFromCart cart productId) = cart)
  /\ NewSalePage.cart_after_events
       (NewSalePage.cart_after_events cart (NewSalePage.removeFromCart cart productId))
       (NewSalePage.removeFromCart
          (NewSalePage.cart_after_events cart (NewSalePage.removeFromCart cart productId))
          productId) =
     NewSalePage.cart_after_events cart (NewSalePage.removeFromCart cart productId).
Proof.
  cbn [NewSalePage.removeFromCart NewSalePage.cart_after_events fold_left].
  split; [|split; [|split; [|split; [|split]]]].
  - intros item. rewrite filter_In, negb_true_iff, String.eqb_neq. reflexivity.
  - apply line_ids_removed.
  - apply line_quantity_None. rewrite line_ids_removed.
    intros Hin. apply filter_In in Hin. destruct Hin as [_ Hne].
    rewrite String.eqb_refl in Hne. discriminate.
  - intros other Hother.
    induction cart as [|item cart IH]; [reflexivity|].
    cbn [filter find].
    destruct (String.eqb_spec (CartItem.productId item) productId) as [Heq | Hne];
      cbn [negb find].
    + destruct (String.eqb_spec (CartItem.productId item) other) as [Heq' | _];
        [congruence | exact IH].
    + rewrite IH. reflexivity.
  - intros Hnone. apply line_quantity_None in Hnone.
    unfold NewSalePage.line_ids in Hnone.
    induction cart as [|item cart IH]; [reflexivity|].
    cbn [filter].
    destruct (String.eqb_spec (CartItem.productId item) productId) as [Heq | Hne].
    + exfalso. apply Hnone. left. exact Heq.
    + cbn [negb]. rewrite IH; [reflexivity|].
      intros Hin. apply Hnone. right. exact Hin.
  - induction cart as [|item cart IH]; [reflexivity|].
    cbn [filter].
    destruct (CartItem.productId item =? productId)%string eqn:Heq; cbn [negb].
    + exact IH.
    + cbn [filter]. rewrite Heq. cbn [negb]. rewrite IH. reflexivity.
Qed.

Lemma calculateTotal_app (cart : list CartItem.t) (item : CartItem.t) :
  NewSalePage.calculateTotal (cart ++ [item]) =
    (NewSalePage.calculateTotal cart + CartItem.price item * CartItem.quantity item)%float.
Proof.
  unfold NewSalePage.calculateTotal, JS.reduce.
  rewrite fold_left_app. reflexivity.
Qed.

(** X4.  When [addToCart] is accepted for a product that has no line yet,
    the total of the cart grows by the selling price of the product's first
    variant times 1; when it is rejected, or the product is ignored, the
    total is the one it was. *)
Theorem calculateTotal_addToCart (cart : list CartItem.t) (product : Product.t)
    (productId : string) (variant : ProductVariant.t) (rest : list ProductVariant.t) :
  NewSalePage.product_id product = Some productId ->
  Product.variants product = Some (variant :: rest) ->
  NewSalePage.line_quantity cart productId = None ->
  NewSalePage.calculateTotal
    (NewSalePage.cart_after cart (NewSalePage.addToCart cart product)) =
    if NewSalePage.rejected (NewSalePage.addToCart cart product)
    then NewSalePage.calculateTotal cart
    else (NewSalePage.calculateTotal cart + ProductVariant.sellingPrice variant * 1)%float.
Proof.
  intros Hid Hvariants Hnone.
  rewrite (addToCart_cases cart product productId variant rest Hid Hvariants), Hnone.
  destruct (ProductVariant.stock variant <=? 0)%float.
  - reflexivity.
  - cbn [NewSalePage.rejected forallb NewSalePage.cart_after fold_left andb].
    apply calculateTotal_app.
Qed.

Lemma calculateTotal_addToCart_witness :
  NewSalePage.calculateTotal
    (NewSalePage.cart_after
       [CartItem.mk "p0" "Case" 5%float 3%float]%string
       (NewSalePage.addToCart
          [CartItem.mk "p0" "Case" 5%float 3%float]%string
          (Product.mk (Some "p1") None "Phone" "A" None None
             (Some [ProductVariant.mk "default" None None None 10%float 12%float 2%float]))%string))
  = 27%float.
Proof.
  rewrite (calculateTotal_addToCart
             [CartItem.mk "p0" "Case" 5%float 3%float]%string
             (Product.mk (Some "p1") None "Phone" "A" None None
                (Some [ProductVariant.mk "default" None None None 10%float 12%float 2%float]))%string
             "p1"%string
             (ProductVariant.mk "default" None None None 10%float 12%float 2%float)%string
             []); reflexivity.
Defined.

(** X5.  The product id, name and unit price of a line are fixed when the
    line is appended: [addToCart], whatever the name and selling price the
    product then has, leaves them as they are on every line the cart holds,
    and so does [updateQuantity], which changes nothing but quantities. *)
Theorem cart_line_keys_frozen (cart : list CartItem.t) :
  (forall product,
     firstn (List.length cart)
       (map line_key (NewSalePage.cart_after cart (NewSalePage.addToCart cart product))) =
     map line_key cart)
  /\ (forall products productId quantity,
        map line_key
          (NewSalePage.cart_after cart
             (NewSalePage.updateQuantity cart products productId quantity)) =
        map line_key cart).
Proof.
  assert (Hincr : forall productId,
            map line_key (NewSalePage.incremented cart productId) = map line_key cart).
  { intros productId. unfold NewSalePage.incremented. rewrite map_map.
    apply map_ext. intros item.
    destruct (CartItem.productId item =? productId)%string; reflexivity. }
  assert (Hrepl : forall productId quantity,
            map line_key (NewSalePage.replaced cart productId quantity) = map line_key cart).
  { intros productId quantity. unfold NewSalePage.replaced. rewrite map_map.
    apply map_ext. intros item.
    destruct (CartItem.productId item =? productId)%string; reflexivity. }
  assert (Hfirstn : firstn (List.length cart) (map line_key cart) = map line_key cart).
  { rewrite <- (length_map line_key cart). apply firstn_all. }
  split.
  - intros product.
    destruct (addToCart_outcomes cart product)
      as [-> | [[productId [_ ->]] | [productId [variant [_ [_ [_ ->]]]]]]].
    + exact Hfirstn.
    + rewrite Hincr. exact Hfirstn.
    + rewrite map_app, <- (length_map line_key cart), firstn_app, firstn_all.
      rewrite Nat.sub_diag. cbn [firstn]. apply app_nil_r.
  - intros products productId quantity.
    destruct (updateQuantity_outcomes cart products productId quantity) as [-> | ->].
    + reflexivity.
    + apply Hrepl.
Qed.

(** ** Submitting the sale *)

Lemma sale_requests_app (events events' : list NewSalePage.Event) :
  NewSalePage.sale_requests (events ++ events') =
    NewSalePage.sale_requests events ++ NewSalePage.sale_requests events'.
Proof. apply flat_map_app. Qed.

Lemma sale_requests_printReceipt (responses : NewSalePage.Responses) (saleId : string) :
  NewSalePage.sale_requests (NewSalePage.printReceipt responses saleId) = [].
Proof.
  unfold NewSalePage.printReceipt.
  destruct (NewSalePage.getPrintReceipt_response responses);
    [destruct (NewSalePage.window_opened responses)|]; reflexivity.
Qed.

Lemma sale_requests_fetchAvailableProducts (responses : NewSalePage.Responses) :
  NewSalePage.sale_requests (NewSalePage.fetchAvailableProducts responses) = [].
Proof.
  unfold NewSalePage.fetchAvailableProducts.
  destruct (NewSalePage.getAvailableProducts_response responses); reflexivity.
Qed.

(** X6.  [onSubmit] asks the server for a sale exactly when the cart is not
    empty, and then once: the request has one item per line of the cart, in
    the order of the lines, with the line's product id and quantity (the
    unit prices are not sent), and the customer name unless it is empty.
    On an empty cart it only reports that the cart is empty. *)
Theorem onSubmit_request (cart : list CartItem.t) (customerName : string)
    (responses : NewSalePage.Responses) :
  (cart = [] ->
   NewSalePage.onSubmit cart customerName responses =
     [NewSalePage.ToastErrorText "Cart is empty"])
  /\ (cart <> [] ->
      exists request,
        NewSalePage.sale_requests (NewSalePage.onSubmit cart customerName responses) =
          [request]
        /\ List.length (NewSalePage.items request) = List.length cart
        /\ (forall (i : nat) (line : CartItem.t),
              nth_error cart i = Some line ->
              nth_error (NewSalePage.items request) i =
                Some (NewSalePage.mkSaleItem (CartItem.productId line)
                        (CartItem.quantity line)))
        /\ NewSalePage.customerName request =
             (if (customerName =? "")%string then None else Some customerName)).
Proof.
  split.
  - intros ->. reflexivity.
  - intros Hcart. destruct cart as [|item cart]; [contradiction|].
    eexists. unfold NewSalePage.onSubmit. cbn [List.length Nat.eqb].
    split; [|split; [|split]].
    + rewrite !sale_requests_app.
      destruct (NewSalePage.createSale_response responses) as [sale | thrown];
        [|reflexivity].
      rewrite !sale_requests_app, sale_requests_printReceipt,
        sale_requests_fetchAvailableProducts.
      reflexivity.
    + cbn [NewSalePage.items]. apply length_map.
    + intros i line Hline. cbn [NewSalePage.items].
      rewrite nth_error_map, Hline. reflexivity.
    + cbn [NewSalePage.customerName]. unfold JS.truthy_string.
      destruct (customerName =? "")%string; reflexivity.
Qed.

Lemma submitting_after_app (flag : bool) (events events' : list NewSalePage.Event) :
  NewSalePage.submitting_after flag (events ++ events') =
    NewSalePage.submitting_after (NewSalePage.submitting_after flag events) events'.
Proof. apply fold_left_app. Qed.

(** X7.  After [onSubmit] on a cart that is not empty, the cart is emptied
    if the server created the sale, whether or not the receipt could be
    fetched, the print window opened or the product list refreshed, and is
    left as it was if the creation failed; the receipt is requested only in
    the first case; and in both cases the page is no longer submitting. *)
Theorem onSubmit_outcome (cart : list CartItem.t) (customerName : string)
    (responses : NewSalePage.Responses) (isSubmitting : bool) :
  cart <> [] ->
  NewSalePage.cart_after_events cart (NewSalePage.onSubmit cart customerName responses) =
    match NewSalePage.createSale_response responses with
    | inl _ => []
    | inr _ => cart
    end
  /\ receipt_requested (NewSalePage.onSubmit cart customerName responses) =
    match NewSalePage.createSale_response responses with
    | inl _ => true
    | inr _ => false
    end
  /\ NewSalePage.submitting_after isSubmitting
       (NewSalePage.onSubmit cart customerName responses) = false
  /\ hd_error (NewSalePage.onSubmit cart customerName responses) =
       Some (NewSalePage.SetIsSubmitting true).
Proof.
  intros Hcart. split; [|split; [|split]].
  - rewrite onSubmit_cart.
    destruct (NewSalePage.createSale_response responses); reflexivity.
  - destruct cart as [|item cart]; [contradiction|].
    unfold NewSalePage.onSubmit. cbn [List.length Nat.eqb].
    destruct (NewSalePage.createSale_response responses) as [sale | thrown];
      reflexivity.
  - destruct cart as [|item cart]; [contradiction|].
    unfold NewSalePage.onSubmit. cbn [List.length Nat.eqb].
    rewrite !submitting_after_app. reflexivity.
  - destruct cart as [|item cart]; [contradiction|]. reflexivity.
Qed.

Lemma onSubmit_outcome_witness :
  NewSalePage.cart_after_events
    [CartItem.mk "p1" "Phone" 12%float 1%float]%string
    (NewSalePage.onSubmit
       [CartItem.mk "p1" "Phone" 12%float 1%float]%string
       "Ada"%string
       (NewSalePage.mkResponses
          (inl (NewSalePage.mkSale (Some "s1"%string) None))
          (inr NewSalePage.OtherValue)
          false
          (inr NewSalePage.OtherValue))) = [].
Proof.
  exact (proj1 (onSubmit_outcome
                  [CartItem.mk "p1" "Phone" 12%float 1%float]%string
                  "Ada"%string
                  (NewSalePage.mkResponses
                     (inl (NewSalePage.mkSale (Some "s1"%string) None))
                     (inr NewSalePage.OtherValue)
                     false
                     (inr NewSalePage.OtherValue))
                  false
                  ltac:(discriminate))).
Defined.

(** ** Listing and adding *)

(** X8.  The product list of the sale page shows a product as soon as one
    of its variants is in stock, while [addToCart] looks at the first
    variant only: a listed product whose first variant has stock 0 has a
    later variant in stock, yet [addToCart] never adds it.  On every cart in
    which the product has no line or a line of quantity at least 0, the cart
    is left as it was: with the stock error when the product has an id
    ([_id], else [id]), and without any message when it has none. *)
Theorem listed_not_addable (toLowerCase : string -> string) (products : list Product.t)
    (searchQuery : string) (cart : list CartItem.t) (product : Product.t)
    (variant : ProductVariant.t) (rest : list ProductVariant.t) :
  In product (NewSalePage.filteredProducts toLowerCase products searchQuery) ->
  Product.variants product = Some (variant :: rest) ->
  ProductVariant.stock variant = 0%float ->
  (forall productId q,
     NewSalePage.product_id product = Some productId ->
     NewSalePage.line_quantity cart productId = Some q -> (0 <=? q)%float = true) ->
  (exists other, In other rest /\ (0 <? ProductVariant.stock other)%float = true)
  /\ NewSalePage.addToCart cart product =
       match NewSalePage.product_id product with
       | Some _ => [NewSalePage.ToastError (NewSalePage.CannotAddMore 0%float)]
       | None => []
       end
  /\ NewSalePage.cart_after cart (NewSalePage.addToCart cart product) = cart.
Proof.
  intros Hlisted Hvariants Hstock Hline.
  split.
  - unfold NewSalePage.filteredProducts in Hlisted.
    apply filter_In in Hlisted. destruct Hlisted as [_ Hkeep].
    apply andb_true_iff in Hkeep. destruct Hkeep as [Hhas _].
    unfold NewSalePage.has_stock in Hhas. rewrite Hvariants in Hhas.
    cbn [existsb] in Hhas. rewrite Hstock in Hhas. cbn [orb] in Hhas.
    change (0 <? 0)%float with false in Hhas. cbn [orb] in Hhas.
    apply existsb_exists in Hhas. exact Hhas.
  - destruct (NewSalePage.product_id product) as [productId|] eqn:Hid.
    + rewrite (addToCart_cases cart product productId variant rest Hid Hvariants), Hstock.
      destruct (NewSalePage.line_quantity cart productId) as [q|] eqn:Hq.
      * rewrite (Hline productId q eq_refl Hq). split; reflexivity.
      * split; reflexivity.
    + rewrite (addToCart_no_id cart product Hid). split; reflexivity.
Qed.

Lemma listed_not_addable_witness :
  NewSalePage.addToCart []
    (Product.mk (Some "p1") None "Phone" "A" None None
       (Some [ ProductVariant.mk "color-Red" (Some "Red") None None 10%float 12%float 0%float;
               ProductVariant.mk "color-Blue" (Some "Blue") None None 10%float 12%float 5%float ]))%string
  = [NewSalePage.ToastError (NewSalePage.CannotAddMore 0%float)].
Proof.
  refine (proj1 (proj2 (listed_not_addable (fun s => s)
            [Product.mk (Some "p1") None "Phone" "A" None None
               (Some [ ProductVariant.mk "color-Red" (Some "Red") None None 10%float 12%float 0%float;
                       ProductVariant.mk "color-Blue" (Some "Blue") None None 10%float 12%float 5%float ])]%string
            ""%string []
            (Product.mk (Some "p1") None "Phone" "A" None None
               (Some [ ProductVariant.mk "color-Red" (Some "Red") None None 10%float 12%float 0%float;
                       ProductVariant.mk "color-Blue" (Some "Blue") None None 10%float 12%float 5%float ]))%string
            (ProductVariant.mk "color-Red" (Some "Red") None None 10%float 12%float 0%float)%string
            [ProductVariant.mk "color-Blue" (Some "Blue") None None 10%float 12%float 5%float]%string
            _ eq_refl eq_refl _))).
  - left. reflexivity.
  - intros productId q _ Hq. discriminate Hq.
Defined.

(** The same product without [_id] and [id] is listed too, and [addToCart]
    returns without a message. *)
Example listed_without_id :
  In (Product.mk None None "Phone" "A" None None
        (Some [ ProductVariant.mk "color-Red" (Some "Red") None None 10%float 12%float 0%float;
                ProductVariant.mk "color-Blue" (Some "Blue") None None 10%float 12%float 5%float ]))%string
     (NewSalePage.filteredProducts (fun s => s)
        [Product.mk None None "Phone" "A" None None
           (Some [ ProductVariant.mk "color-Red" (Some "Red") None None 10%float 12%float 0%float;
                   ProductVariant.mk "color-Blue" (Some "Blue") None None 10%float 12%float 5%float ])]%string
        ""%string)
  /\ NewSalePage.addToCart []
       (Product.mk None None "Phone" "A" None None
          (Some [ ProductVariant.mk "color-Red" (Some "Red") None None 10%float 12%float 0%float;
                  ProductVariant.mk "color-Blue" (Some "Blue") None None 10%float 12%float 5%float ]))%string
     = [].
Proof.
  split; [left; reflexivity | reflexivity].
Qed.

(** ** The option lists over a session *)

Lemma array_includes_In (arr : list string) (x : string) :
  JS.array_includes arr x = true <-> In x arr.
Proof.
  unfold JS.array_includes. rewrite existsb_exists. split.
  - intros [y [Hin Heq]]. apply String.eqb_eq in Heq. subst y. exact Hin.
  - intros Hin. exists x. split; [exact Hin | apply String.eqb_refl].
Qed.

Lemma well_formed_appended (values : list string) (value : string) :
  NewProductPage.well_formed_options values ->
  JS.truthy_string value && negb (JS.array_includes values value) = true ->
  NewProductPage.well_formed_options (values ++ [value]).
Proof.
  intros [Hnodup Hnonblank] Haccepted.
  apply andb_true_iff in Haccepted. destruct Haccepted as [Htruthy Hnew].
  apply negb_true_iff in Hnew.
  split.
  - apply NoDup_app; [exact Hnodup | repeat constructor; intros [] |].
    intros x Hin [<- | []].
    apply array_includes_In in Hin. congruence.
  - apply Forall_app. split; [exact Hnonblank|].
    constructor; [|constructor].
    unfold JS.truthy_string in Htruthy. intros ->. discriminate.
Qed.

Lemma well_formed_filtered (values : list string) (keep : string -> bool) :
  NewProductPage.well_formed_options values ->
  NewProductPage.well_formed_options (filter keep values).
Proof.
  intros [Hnodup Hnonblank]. split.
  - apply NoDup_filter. exact Hnodup.
  - rewrite Forall_forall in *. intros x Hin. apply filter_In in Hin.
    apply Hnonblank. tauto.
Qed.

Lemma step_well_formed_state (state : NewProductPage.PageState)
    (action : NewProductPage.Action) :
  well_formed_state state -> well_formed_state (NewProductPage.step state action).
Proof.
  intros [Hc [Hr Hs]]. unfold well_formed_state.
  destruct action as [watch [answer|] | watch [answer|] | watch [answer|]
                     | watch color | watch ram | watch storage
                     | watch | variantId field value];
    cbn [NewProductPage.step NewProductPage.addColorOption NewProductPage.addRamOption
         NewProductPage.addStorageOption NewProductPage.removeColorOption
         NewProductPage.removeRamOption NewProductPage.removeStorageOption
         NewProductPage.regenerate NewProductPage.editVariant];
    try (split; [|split]; assumption).
  - destruct (JS.truthy_string answer && _) eqn:Haccepted;
      cbn [NewProductPage.colorOptions NewProductPage.ramOptions
           NewProductPage.storageOptions];
      (split; [|split]); try assumption;
      apply well_formed_appended; assumption.
  - destruct (JS.truthy_string answer && _) eqn:Haccepted;
      cbn [NewProductPage.colorOptions NewProductPage.ramOptions
           NewProductPage.storageOptions];
      (split; [|split]); try assumption;
      apply well_formed_appended; assumption.
  - destruct (JS.truthy_string answer && _) eqn:Haccepted;
      cbn [NewProductPage.colorOptions NewProductPage.ramOptions
           NewProductPage.storageOptions];
      (split; [|split]); try assumption;
      apply well_formed_appended; assumption.
  - cbn [NewProductPage.colorOptions NewProductPage.ramOptions
         NewProductPage.storageOptions].
    (split; [|split]); try assumption; apply well_formed_filtered; assumption.
  - cbn [NewProductPage.colorOptions NewProductPage.ramOptions
         NewProductPage.storageOptions].
    (split; [|split]); try assumption; apply well_formed_filtered; assumption.
  - cbn [NewProductPage.colorOptions NewProductPage.ramOptions
         NewProductPage.storageOptions].
    (split; [|split]); try assumption; apply well_formed_filtered; assumption.
Qed.

Lemma run_well_formed_state (actions : list NewProductPage.Action) :
  well_formed_state (NewProductPage.run actions).
Proof.
  unfold NewProductPage.run.
  assert (Hgen : forall state, well_formed_state state ->
                   well_formed_state (fold_left NewProductPage.step actions state)).
  { induction actions as [|action actions IH]; intros state Hstate; simpl.
    - exact Hstate.
    - apply IH. apply step_well_formed_state. exact Hstate. }
  apply Hgen. repeat split; constructor.
Qed.

(** X9.  Whatever the user does on the variants part of the new product
    page (adding and removing colors, RAM sizes and storage sizes, also
    cancelling the prompt or answering it with an empty or known value,
    changing prices, editing variants), none of the three option lists ever
    holds a value twice or holds the empty string. *)
Theorem options_well_formed (actions : list NewProductPage.Action) :
  (NoDup (NewProductPage.colorOptions (NewProductPage.run actions))
   /\ Forall (fun v => v <> ""%string) (NewProductPage.colorOptions (NewProductPage.run actions)))
  /\ (NoDup (NewProductPage.ramOptions (NewProductPage.run actions))
      /\ Forall (fun v => v <> ""%string) (NewProductPage.ramOptions (NewProductPage.run actions)))
  /\ (NoDup (NewProductPage.storageOptions (NewProductPage.run actions))
      /\ Forall (fun v => v <> ""%string)
           (NewProductPage.storageOptions (NewProductPage.run actions))).
Proof.
  exact (run_well_formed_state actions).
Qed.

(** In every state the page reaches, regenerating the variants from its
    option lists gives each combination its joined tags as id. *)
Lemma generateVariants_tagged_in_session (watch : NewProductPage.FormValues)
    (actions : list NewProductPage.Action) :
  NewProductPage.colorOptions (NewProductPage.run actions)
    ++ NewProductPage.ramOptions (NewProductPage.run actions)
    ++ NewProductPage.storageOptions (NewProductPage.run actions) <> [] ->
  NewProductPage.generateVariants watch
    (NewProductPage.colorOptions (NewProductPage.run actions))
    (NewProductPage.ramOptions (NewProductPage.run actions))
    (NewProductPage.storageOptions (NewProductPage.run actions)) =
    map (NewProductPage.tagged_variant_of
           (JS.or_number (NewProductPage.purchasedPrice watch) 0%float)
           (JS.or_number (NewProductPage.sellingPrice watch)
              (JS.or_number (NewProductPage.basePrice watch) 0%float)))
        (NewProductPage.combinations
           (NewProductPage.colorOptions (NewProductPage.run actions))
           (NewProductPage.ramOptions (NewProductPage.run actions))
           (NewProductPage.storageOptions (NewProductPage.run actions))).
Proof.
  intros Hsome.
  destruct (run_well_formed_state actions) as [[_ Hcolors] [[_ Hrams] [_ Hstorages]]].
  unfold NewProductPage.generateVariants.
  rewrite (generateVariants_body_combinations _ _ _ _ _ Hsome).
  apply map_ext_in. intros [[c r] s] Hin.
  apply in_combinations in Hin. destruct Hin as [Hc [Hr Hs]].
  unfold NewProductPage.variant_of, NewProductPage.tagged_variant_of.
  rewrite variantId_joined_tags; [reflexivity | | | |].
  - exact (axis_nonblank _ c Hcolors Hc).
  - exact (axis_nonblank _ r Hrams Hr).
  - exact (axis_nonblank _ s Hstorages Hs).
  - intros Heq. injection Heq as -> -> ->.
    apply Hsome.
    rewrite (axis_None _ Hc), (axis_None _ Hr), (axis_None _ Hs).
    reflexivity.
Qed.

Lemma generateVariants_shapes (watch : NewProductPage.FormValues)
    (colors rams storages : list string) :
  Forall (fun v => v <> ""%string) colors ->
  Forall (fun v => v <> ""%string) rams ->
  Forall (fun v => v <> ""%string) storages ->
  map NewProductPage.shape (NewProductPage.generateVariants watch colors rams storages) =
    expected_shapes colors rams storages.
Proof.
  intros Hcolors Hrams Hstorages.
  unfold expected_shapes, NewProductPage.generateVariants.
  destruct (colors ++ rams ++ storages) as [|v rest] eqn:Hall.
  - apply app_eq_nil in Hall. destruct Hall as [-> Hall].
    apply app_eq_nil in Hall. destruct Hall as [-> ->]. reflexivity.
  - rewrite generateVariants_body_combinations by (rewrite Hall; discriminate).
    rewrite map_map. apply map_ext_in. intros [[c r] s] Hin.
    apply in_combinations in Hin. destruct Hin as [Hc [Hr Hs]].
    unfold NewProductPage.shape, NewProductPage.variant_of.
    cbn [ProductVariant.id ProductVariant.color ProductVariant.ram ProductVariant.storage].
    rewrite variantId_joined_tags; [reflexivity | | | |].
    + exact (axis_nonblank colors c Hcolors Hc).
    + exact (axis_nonblank rams r Hrams Hr).
    + exact (axis_nonblank storages s Hstorages Hs).
    + intros Heq. injection Heq as -> -> ->.
      rewrite (axis_None colors Hc), (axis_None rams Hr), (axis_None storages Hs) in Hall.
      discriminate.
Qed.

Lemma updateVariant_shapes (variants : list ProductVariant.t) (variantId : string)
    (field : NewProductPage.VariantField) (value : JS.number) :
  map NewProductPage.shape (NewProductPage.updateVariant variants variantId field value) =
    map NewProductPage.shape variants.
Proof.
  unfold NewProductPage.updateVariant. rewrite map_map. apply map_ext. intros variant.
  destruct (ProductVariant.id variant =? variantId)%string; [|reflexivity].
  destruct field; reflexivity.
Qed.

Lemma step_variants_in_step (state : NewProductPage.PageState)
    (action : NewProductPage.Action) :
  well_formed_state state ->
  variants_in_step state ->
  variants_in_step (NewProductPage.step state action).
Proof.
  intros Hwf Hsync.
  pose proof (step_well_formed_state state action Hwf) as [[_ Hc] [[_ Hr] [_ Hs]]].
  unfold variants_in_step.
  destruct action as [watch [answer|] | watch [answer|] | watch [answer|]
                     | watch color | watch ram | watch storage
                     | watch | variantId field value];
    cbn [NewProductPage.step NewProductPage.addColorOption NewProductPage.addRamOption
         NewProductPage.addStorageOption NewProductPage.removeColorOption
         NewProductPage.removeRamOption NewProductPage.removeStorageOption
         NewProductPage.regenerate NewProductPage.editVariant] in *;
    try exact Hsync;
    try (destruct (JS.truthy_string answer && _) eqn:Haccepted; [|exact Hsync]);
    cbn [NewProductPage.colorOptions NewProductPage.ramOptions
         NewProductPage.storageOptions NewProductPage.variants] in *;
    try (right; apply generateVariants_shapes; assumption).
  unfold NewProductPage.editVariant.
  cbn [NewProductPage.colorOptions NewProductPage.ramOptions
       NewProductPage.storageOptions NewProductPage.variants].
  destruct Hsync as [-> | Hsync]; [left; reflexivity | right].
  rewrite updateVariant_shapes. exact Hsync.
Qed.

Lemma run_variants_in_step (actions : list NewProductPage.Action) :
  variants_in_step (NewProductPage.run actions).
Proof.
  unfold NewProductPage.run.
  assert (Hgen : forall state,
            well_formed_state state -> variants_in_step state ->
            variants_in_step (fold_left NewProductPage.step actions state)).
  { induction actions as [|action actions IH]; intros state Hwf Hsync; simpl.
    - exact Hsync.
    - apply IH.
      + apply step_well_formed_state. exact Hwf.
      + apply step_variants_in_step; assumption. }
  apply Hgen.
  - repeat split; constructor.
  - left. reflexivity.
Qed.

Lemma expected_shapes_length (colors rams storages : list string) :
  List.length (expected_shapes colors rams storages) =
    (NewProductPage.dimension colors * NewProductPage.dimension rams
     * NewProductPage.dimension storages)%nat.
Proof.
  unfold expected_shapes.
  destruct (colors ++ rams ++ storages) as [|v rest] eqn:Hall.
  - apply app_eq_nil in Hall. destruct Hall as [-> Hall].
    apply app_eq_nil in Hall. destruct Hall as [-> ->]. reflexivity.
  - rewrite length_map. apply combinations_length.
Qed.

Lemma dimension_positive (values : list string) :
  1 <= NewProductPage.dimension values.
Proof.
  destruct values; simpl; lia.
Qed.

(** A handler that regenerates puts the variants in step with the option
    lists it stores; the others keep them in step. *)
Lemma step_shapes (state : NewProductPage.PageState) (action : NewProductPage.Action) :
  well_formed_state state ->
  regenerates state action = true
  \/ map NewProductPage.shape (NewProductPage.variants state) =
       expected_shapes (NewProductPage.colorOptions state)
         (NewProductPage.ramOptions state) (NewProductPage.storageOptions state) ->
  map NewProductPage.shape (NewProductPage.variants (NewProductPage.step state action)) =
    expected_shapes
      (NewProductPage.colorOptions (NewProductPage.step state action))
      (NewProductPage.ramOptions (NewProductPage.step state action))
      (NewProductPage.storageOptions (NewProductPage.step state action)).
Proof.
  intros Hwf Hcase.
  pose proof (step_well_formed_state state action Hwf) as [[_ Hc] [[_ Hr] [_ Hs]]].
  destruct action as [watch [answer|] | watch [answer|] | watch [answer|]
                     | watch color | watch ram | watch storage
                     | watch | variantId field value];
    cbn [NewProductPage.step NewProductPage.addColorOption NewProductPage.addRamOption
         NewProductPage.addStorageOption NewProductPage.removeColorOption
         NewProductPage.removeRamOption NewProductPage.removeStorageOption
         NewProductPage.regenerate regenerates] in *;
    try (destruct Hcase as [Hcase | Hcase]; [discriminate Hcase | exact Hcase]);
    try (destruct (JS.truthy_string answer && _) eqn:Haccepted;
         [|destruct Hcase as [Hcase | Hcase]; [discriminate Hcase | exact Hcase]]);
    cbn [NewProductPage.colorOptions NewProductPage.ramOptions
         NewProductPage.storageOptions NewProductPage.variants] in *;
    try (apply generateVariants_shapes; assumption).
  unfold NewProductPage.editVariant.
  cbn [NewProductPage.colorOptions NewProductPage.ramOptions
       NewProductPage.storageOptions NewProductPage.variants].
  destruct Hcase as [Hcase | Hcase]; [discriminate Hcase|].
  rewrite updateVariant_shapes. exact Hcase.
Qed.

(** A handler that does not regenerate leaves a state without variants as
    it is. *)
Lemma step_without_variants (state : NewProductPage.PageState)
    (action : NewProductPage.Action) :
  regenerates state action = false ->
  NewProductPage.variants state = [] ->
  NewProductPage.step state action = state.
Proof.
  intros Hkeep Hnone.
  destruct action as [watch [answer|] | watch [answer|] | watch [answer|]
                     | watch color | watch ram | watch storage
                     | watch | variantId field value];
    cbn [NewProductPage.step NewProductPage.addColorOption NewProductPage.addRamOption
         NewProductPage.addStorageOption regenerates] in *;
    try discriminate Hkeep; try reflexivity;
    try (rewrite Hkeep; reflexivity).
  unfold NewProductPage.editVariant. rewrite Hnone.
  destruct state as [colors rams storages variants]. cbn in Hnone. subst variants.
  reflexivity.
Qed.

Lemma fold_step_shapes (actions : list NewProductPage.Action)
    (state : NewProductPage.PageState) :
  well_formed_state state ->
  generated_from state actions = true
  \/ map NewProductPage.shape (NewProductPage.variants state) =
       expected_shapes (NewProductPage.colorOptions state)
         (NewProductPage.ramOptions state) (NewProductPage.storageOptions state) ->
  map NewProductPage.shape
    (NewProductPage.variants (fold_left NewProductPage.step actions state)) =
    expected_shapes
      (NewProductPage.colorOptions (fold_left NewProductPage.step actions state))
      (NewProductPage.ramOptions (fold_left NewProductPage.step actions state))
      (NewProductPage.storageOptions (fold_left NewProductPage.step actions state)).
Proof.
  revert state. induction actions as [|action actions IH]; intros state Hwf Hcase.
  - destruct Hcase as [Hcase | Hcase]; [discriminate Hcase | exact Hcase].
  - cbn [fold_left]. apply IH; [apply step_well_formed_state; exact Hwf|].
    destruct Hcase as [Hcase | Hcase].
    + cbn [generated_from] in Hcase. apply orb_true_iff in Hcase.
      destruct Hcase as [Hnow | Hlater]; [|left; exact Hlater].
      right. apply step_shapes; [exact Hwf | left; exact Hnow].
    + right. apply step_shapes; [exact Hwf | right; exact Hcase].
Qed.

Lemma fold_step_without_variants (actions : list NewProductPage.Action)
    (state : NewProductPage.PageState) :
  generated_from state actions = false ->
  NewProductPage.variants state = [] ->
  fold_left NewProductPage.step actions state = state.
Proof.
  revert state. induction actions as [|action actions IH]; intros state Hkeep Hnone.
  - reflexivity.
  - cbn [generated_from] in Hkeep. apply orb_false_iff in Hkeep.
    destruct Hkeep as [Hnow Hlater].
    cbn [fold_left].
    rewrite (step_without_variants state action Hnow Hnone) in *.
    apply IH; assumption.
Qed.

(** X10.  Whatever the user does on the variants part of the page: as long
    as no handler has reached [generateVariants] (only cancelled, empty or
    duplicate answers and variant edits so far), the page is in its initial
    state, without options and without variants; and from the first
    generation on, the variants are in step with the three option lists as
    they are now: one variant per combination of the non-empty lists, in
    matrix order, with that combination's axis values and the joined tags as
    id (the single 'default' variant when the three lists are empty), so
    their number is the product of the sizes of the non-empty lists and
    there is at least one.  Editing prices and stock never breaks this. *)
Theorem variants_follow_options (actions : list NewProductPage.Action) :
  if generated_from NewProductPage.initialState actions
  then
    map NewProductPage.shape (NewProductPage.variants (NewProductPage.run actions)) =
      expected_shapes
        (NewProductPage.colorOptions (NewProductPage.run actions))
        (NewProductPage.ramOptions (NewProductPage.run actions))
        (NewProductPage.storageOptions (NewProductPage.run actions))
    /\ List.length (NewProductPage.variants (NewProductPage.run actions)) =
         (NewProductPage.dimension (NewProductPage.colorOptions (NewProductPage.run actions))
          * NewProductPage.dimension (NewProductPage.ramOptions (NewProductPage.run actions))
          * NewProductPage.dimension
              (NewProductPage.storageOptions (NewProductPage.run actions)))%nat
    /\ NewProductPage.variants (NewProductPage.run actions) <> []
  else NewProductPage.run actions = NewProductPage.initialState.
Proof.
  destruct (generated_from NewProductPage.initialState actions) eqn:Hgenerated.
  - assert (Hshapes :
      map NewProductPage.shape (NewProductPage.variants (NewProductPage.run actions)) =
        expected_shapes
          (NewProductPage.colorOptions (NewProductPage.run actions))
          (NewProductPage.ramOptions (NewProductPage.run actions))
          (NewProductPage.storageOptions (NewProductPage.run actions))).
    { apply fold_step_shapes; [|left; exact Hgenerated].
      repeat split; constructor. }
    assert (Hlength :
      List.length (NewProductPage.variants (NewProductPage.run actions)) =
        (NewProductPage.dimension (NewProductPage.colorOptions (NewProductPage.run actions))
         * NewProductPage.dimension (NewProductPage.ramOptions (NewProductPage.run actions))
         * NewProductPage.dimension
             (NewProductPage.storageOptions (NewProductPage.run actions)))%nat).
    { rewrite <- (length_map NewProductPage.shape), Hshapes.
      apply expected_shapes_length. }
    split; [exact Hshapes|]. split; [exact Hlength|].
    intros Hnone. rewrite Hnone in Hlength. cbn [List.length] in Hlength.
    pose proof (dimension_positive
                  (NewProductPage.colorOptions (NewProductPage.run actions))).
    pose proof (dimension_positive
                  (NewProductPage.ramOptions (NewProductPage.run actions))).
    pose proof (dimension_positive
                  (NewProductPage.storageOptions (NewProductPage.run actions))).
    nia.
  - apply fold_step_without_variants; [exact Hgenerated | reflexivity].
Qed.

(** A session with a cancelled prompt, an accepted color and a duplicate:
    the variants are generated by the second action and are the one of the
    color. *)
Example variants_follow_options_session :
  generated_from NewProductPage.initialState
    [ NewProductPage.AddColor (NewProductPage.mkForm None None None) None ] = false
  /\ generated_from NewProductPage.initialState
       [ NewProductPage.AddColor (NewProductPage.mkForm None None None) None;
         NewProductPage.AddColor (NewProductPage.mkForm None None None) (Some "Red"%string);
         NewProductPage.AddColor (NewProductPage.mkForm None None None) (Some "Red"%string) ]
     = true
  /\ map ProductVariant.id
       (NewProductPage.variants
          (NewProductPage.run
             [ NewProductPage.AddColor (NewProductPage.mkForm None None None) None;
               NewProductPage.AddColor (NewProductPage.mkForm None None None)
                 (Some "Red"%string);
               NewProductPage.AddColor (NewProductPage.mkForm None None None)
                 (Some "Red"%string) ])) =
     ["color-Red"%string].
Proof.
  split; [|split]; reflexivity.
Qed.

(** ** Variant ids *)

Lemma NoDup_flat_map {A B : Type} (f : A -> list B) (l : list A) :
  NoDup l ->
  (forall x, In x l -> NoDup (f x)) ->
  (forall x y b, In x l -> In y l -> In b (f x) -> In b (f y) -> x = y) ->
  NoDup (flat_map f l).
Proof.
  induction 1 as [|x l Hx Hl IH]; intros Heach Hdisjoint; simpl; [constructor|].
  apply NoDup_app.
  - apply Heach. left. reflexivity.
  - apply IH.
    + intros y Hy. apply Heach. right. exact Hy.
    + intros y z b Hy Hz. apply Hdisjoint; right; assumption.
  - intros b Hbx Hbl. apply in_flat_map in Hbl. destruct Hbl as [y [Hy Hby]].
    apply Hx. rewrite (Hdisjoint x y b); auto.
    + left. reflexivity.
    + right. exact Hy.
Qed.

Lemma NoDup_map_injective_in {A B : Type} (f : A -> B) (l : list A) :
  NoDup l ->
  (forall x y, In x l -> In y l -> f x = f y -> x = y) ->
  NoDup (map f l).
Proof.
  induction 1 as [|x l Hx Hl IH]; intros Hinj; simpl; constructor.
  - intros Hin. apply in_map_iff in Hin. destruct Hin as [y [Heq Hy]].
    apply Hx. rewrite (Hinj x y); auto.
    + left. reflexivity.
    + right. exact Hy.
  - apply IH. intros y z Hy Hz. apply Hinj; right; assumption.
Qed.

Lemma NoDup_axis (values : list string) :
  NoDup values -> NoDup (NewProductPage.axis values).
Proof.
  intros Hnodup. destruct values as [|v values].
  - repeat constructor. intros [].
  - cbn [NewProductPage.axis]. apply NoDup_map_injective_in; [exact Hnodup|].
    intros x y _ _ Heq. congruence.
Qed.

Lemma NoDup_combinations (colors rams storages : list string) :
  NoDup colors -> NoDup rams -> NoDup storages ->
  NoDup (NewProductPage.combinations colors rams storages).
Proof.
  intros Hc Hr Hs. unfold NewProductPage.combinations.
  apply NoDup_flat_map.
  - apply NoDup_axis. exact Hc.
  - intros c _. apply NoDup_flat_map.
    + apply NoDup_axis. exact Hr.
    + intros r _. apply NoDup_map_injective_in; [apply NoDup_axis; exact Hs|].
      intros x y _ _ Heq. congruence.
    + intros r r' b _ _ Hb Hb'.
      apply in_map_iff in Hb. destruct Hb as [s [<- _]].
      apply in_map_iff in Hb'. destruct Hb' as [s' [Heq _]]. congruence.
  - intros c c' b _ _ Hb Hb'.
    apply in_flat_map in Hb. destruct Hb as [r [_ Hb]].
    apply in_map_iff in Hb. destruct Hb as [s [<- _]].
    apply in_flat_map in Hb'. destruct Hb' as [r' [_ Hb']].
    apply in_map_iff in Hb'. destruct Hb' as [s' [Heq _]]. congruence.
Qed.

(** Two strings free of a character, each followed by that character, that
    give the same string are the same, and so is what follows. *)
Lemma split_at_separator (c : Ascii.ascii) (a a' x x' : string) :
  NewProductPage.free_of c a ->
  NewProductPage.free_of c a' ->
  (a ++ String c x)%string = (a' ++ String c x')%string ->
  a = a' /\ x = x'.
Proof.
  revert a'. induction a as [|h a IH]; intros [|h' a'] Ha Ha' Heq; simpl in *.
  - injection Heq as ->. auto.
  - injection Heq as <- _. destruct Ha' as [Hne _]. contradiction.
  - injection Heq as -> _. destruct Ha as [Hne _]. contradiction.
  - injection Heq as -> Heq. destruct Ha as [_ Ha]. destruct Ha' as [_ Ha'].
    destruct (IH a' Ha Ha' Heq) as [-> ->]. auto.
Qed.

Lemma axis_member (values : list string) (value : option string) :
  In value (NewProductPage.axis values) ->
  (values = [] /\ value = None) \/ (exists v, value = Some v /\ In v values).
Proof.
  destruct value as [v|]; intros Hin.
  - right. exists v. split; [reflexivity | exact (axis_Some values v Hin)].
  - left. split; [exact (axis_None values Hin) | reflexivity].
Qed.

(** Within one matrix, and with no "-" in a color or a RAM value, the
    joined tags tell the combinations apart. *)
Lemma joined_tags_injective (colors rams storages : list string)
    (c r s c' r' s' : option string) :
  Forall (NewProductPage.free_of "-"%char) colors ->
  Forall (NewProductPage.free_of "-"%char) rams ->
  In (c, r, s) (NewProductPage.combinations colors rams storages) ->
  In (c', r', s') (NewProductPage.combinations colors rams storages) ->
  NewProductPage.joined_tags c r s = NewProductPage.joined_tags c' r' s' ->
  (c, r, s) = (c', r', s').
Proof.
  intros Hcolors Hrams Hin Hin' Heq.
  rewrite Forall_forall in Hcolors, Hrams.
  apply in_combinations in Hin. destruct Hin as [Hc [Hr Hs]].
  apply in_combinations in Hin'. destruct Hin' as [Hc' [Hr' Hs']].
  apply axis_member in Hc, Hr, Hs, Hc', Hr', Hs'.
  destruct Hc as [[Ec ->] | [vc [-> Hc]]];
    destruct Hc' as [[Ec' ->] | [vc' [-> Hc']]];
    try (subst colors; contradiction); try (rewrite Ec' in Hc; contradiction);
    destruct Hr as [[Er ->] | [vr [-> Hr]]];
    destruct Hr' as [[Er' ->] | [vr' [-> Hr']]];
    try (subst rams; contradiction); try (rewrite Er' in Hr; contradiction);
    destruct Hs as [[Es ->] | [vs [-> Hs]]];
    destruct Hs' as [[Es' ->] | [vs' [-> Hs']]];
    try (subst storages; contradiction); try (rewrite Es' in Hs; contradiction);
    unfold NewProductPage.joined_tags in Heq; simpl in Heq;
    repeat match goal with
           | H : String _ _ = String _ _ |- _ => injection H as H
           | H : (?a ++ String "-"%char _)%string = (?b ++ String "-"%char _)%string |- _ =>
               apply split_at_separator in H; [destruct H as [-> H] | auto | auto]
           end;
    subst; reflexivity.
Qed.

(** X11.  Whatever the user does on the variants part of the page, if no
    color and no RAM value then in the lists contains a "-", the ids of the
    variants are pairwise distinct, so [updateVariant], which finds a
    variant by its id, addresses one variant. *)
Theorem variant_ids_unique (actions : list NewProductPage.Action) :
  Forall (NewProductPage.free_of "-"%char)
    (NewProductPage.colorOptions (NewProductPage.run actions)) ->
  Forall (NewProductPage.free_of "-"%char)
    (NewProductPage.ramOptions (NewProductPage.run actions)) ->
  NoDup (map ProductVariant.id (NewProductPage.variants (NewProductPage.run actions))).
Proof.
  intros Hcolors Hrams.
  destruct (run_well_formed_state actions) as [[Hc _] [[Hr _] [Hs _]]].
  destruct (run_variants_in_step actions) as [-> | Hsync]; [constructor|].
  replace (map ProductVariant.id (NewProductPage.variants (NewProductPage.run actions)))
    with (map fst (map NewProductPage.shape
                     (NewProductPage.variants (NewProductPage.run actions))))
    by (rewrite map_map; reflexivity).
  rewrite Hsync. unfold expected_shapes.
  destruct (_ ++ _ ++ _) as [|v rest].
  - repeat constructor. intros [].
  - rewrite map_map. cbn [fst].
    apply NoDup_map_injective_in.
    + apply NoDup_combinations; assumption.
    + intros [[c r] s] [[c' r'] s'] Hin Hin' Heq.
      exact (joined_tags_injective _ _ _ c r s c' r' s' Hcolors Hrams Hin Hin' Heq).
Qed.

(** Without the proviso two variants can share an id. *)
Example variant_ids_collide :
  map ProductVariant.id
    (NewProductPage.variants
       (NewProductPage.run
          [ NewProductPage.AddColor (NewProductPage.mkForm None None None) (Some "x-ram-y");
            NewProductPage.AddColor (NewProductPage.mkForm None None None) (Some "x");
            NewProductPage.AddRam (NewProductPage.mkForm None None None) (Some "z");
            NewProductPage.AddRam (NewProductPage.mkForm None None None) (Some "y-ram-z") ]%string)) =
    [ "color-x-ram-y-ram-z"; "color-x-ram-y-ram-y-ram-z";
      "color-x-ram-z"; "color-x-ram-y-ram-z" ]%string.
Proof. reflexivity. Qed.

Lemma variant_ids_unique_witness :
  NoDup
    (map ProductVariant.id
       (NewProductPage.variants
          (NewProductPage.run
             [ NewProductPage.AddColor (NewProductPage.mkForm None None None) (Some "Red");
               NewProductPage.AddRam (NewProductPage.mkForm None None None) (Some "8GB") ]%string))).
Proof.
  apply variant_ids_unique.
  - repeat constructor; discriminate.
  - repeat constructor; discriminate.
Defined.

(** ** Adding and removing option values *)

Lemma filter_remove_appended (values : list string) (value : string) :
  ~ In value values ->
  filter (fun v => negb (v =? value)%string) (values ++ [value]) = values.
Proof.
  intros Hnew. rewrite filter_app. cbn [filter].
  rewrite String.eqb_refl. cbn [negb]. rewrite app_nil_r.
  induction values as [|v values IH]; [reflexivity|].
  cbn [filter].
  destruct (String.eqb_spec v value) as [-> | _].
  - exfalso. apply Hnew. left. reflexivity.
  - cbn [negb]. rewrite IH; [reflexivity|].
    intros Hin. apply Hnew. right. exact Hin.
Qed.

(** X12.  Removing an option value that was just added, and was accepted
    (not empty, not in the list already), gives back the option lists as
    they were and the variants that a regeneration from those lists gives:
    for colors, RAM sizes and storage sizes alike. *)
Theorem remove_added_option (watch watch' : NewProductPage.FormValues)
    (state : NewProductPage.PageState) (value : string) :
  value <> ""%string ->
  (~ In value (NewProductPage.colorOptions state) ->
   NewProductPage.removeColorOption watch'
     (NewProductPage.addColorOption watch state (Some value)) value =
   NewProductPage.regenerate watch' state)
  /\ (~ In value (NewProductPage.ramOptions state) ->
      NewProductPage.removeRamOption watch'
        (NewProductPage.addRamOption watch state (Some value)) value =
      NewProductPage.regenerate watch' state)
  /\ (~ In value (NewProductPage.storageOptions state) ->
      NewProductPage.removeStorageOption watch'
        (NewProductPage.addStorageOption watch state (Some value)) value =
      NewProductPage.regenerate watch' state).
Proof.
  intros Hnonblank.
  assert (Htruthy : JS.truthy_string value = true)
    by exact (truthy_string_nonblank value Hnonblank).
  assert (Hfresh : forall values, ~ In value values ->
                     JS.array_includes values value = false).
  { intros values Hnew. destruct (JS.array_includes values value) eqn:Hinc;
      [|reflexivity].
    apply array_includes_In in Hinc. contradiction. }
  split; [|split]; intros Hnew;
    unfold NewProductPage.addColorOption, NewProductPage.addRamOption,
      NewProductPage.addStorageOption;
    rewrite Htruthy, (Hfresh _ Hnew); cbn [andb negb];
    unfold NewProductPage.removeColorOption, NewProductPage.removeRamOption,
      NewProductPage.removeStorageOption, NewProductPage.regenerate;
    cbn [NewProductPage.colorOptions NewProductPage.ramOptions
         NewProductPage.storageOptions];
    rewrite (filter_remove_appended _ value Hnew); reflexivity.
Qed.

Lemma remove_added_option_witness :
  NewProductPage.colorOptions
    (NewProductPage.removeColorOption (NewProductPage.mkForm None None None)
       (NewProductPage.addColorOption (NewProductPage.mkForm None None None)
          (NewProductPage.mkPageState ["Red"]%string [] [] [])
          (Some "Blue"%string))
       "Blue"%string) = ["Red"%string].
Proof.
  rewrite (proj1 (remove_added_option
                    (NewProductPage.mkForm None None None)
                    (NewProductPage.mkForm None None None)
                    (NewProductPage.mkPageState ["Red"]%string [] [] [])
                    "Blue"%string ltac:(discriminate))).
  - reflexivity.
  - intros [H | []]. discriminate H.
Defined.

Lemma generateVariants_length (watch : NewProductPage.FormValues)
    (colors rams storages : list string) :
  List.length (NewProductPage.generateVariants watch colors rams storages) =
    (NewProductPage.dimension colors * NewProductPage.dimension rams
     * NewProductPage.dimension storages)%nat.
Proof.
  unfold NewProductPage.generateVariants.
  destruct (colors ++ rams ++ storages) as [|v rest] eqn:Hall.
  - apply app_eq_nil in Hall. destruct Hall as [-> Hall].
    apply app_eq_nil in Hall. destruct Hall as [-> ->]. reflexivity.
  - rewrite generateVariants_body_combinations by (rewrite Hall; discriminate).
    rewrite length_map. apply combinations_length.
Qed.

Lemma dimension_appended (values : list string) (value : string) :
  NewProductPage.dimension (values ++ [value]) =
    match values with
    | [] => 1
    | _ :: _ => S (NewProductPage.dimension values)
    end.
Proof.
  destruct values as [|v values]; [reflexivity|].
  cbn [app NewProductPage.dimension List.length].
  rewrite length_app. cbn [List.length]. lia.
Qed.

(** X13.  Adding a value to an option list changes the number of variants
    as the matrix says: the first value of a list leaves the number as a
    regeneration from the lists before gives it (the axis then replaces its
    absence), and each further value adds as many variants as there are
    combinations of the other two lists.  Stated for colors; the number
    depends on the three lists through the product of their dimensions
    only. *)
Theorem variants_count_after_add (watch watch' : NewProductPage.FormValues)
    (state : NewProductPage.PageState) (color : string) :
  color <> ""%string ->
  ~ In color (NewProductPage.colorOptions state) ->
  List.length
    (NewProductPage.variants (NewProductPage.addColorOption watch state (Some color))) =
    (List.length (NewProductPage.variants (NewProductPage.regenerate watch' state))
     + match NewProductPage.colorOptions state with
       | [] => 0
       | _ :: _ =>
           NewProductPage.dimension (NewProductPage.ramOptions state)
           * NewProductPage.dimension (NewProductPage.storageOptions state)
       end)%nat.
Proof.
  intros Hnonblank Hnew.
  unfold NewProductPage.addColorOption, NewProductPage.regenerate.
  rewrite (truthy_string_nonblank color Hnonblank).
  destruct (JS.array_includes (NewProductPage.colorOptions state) color) eqn:Hinc.
  - apply array_includes_In in Hinc. contradiction.
  - cbn [andb negb NewProductPage.variants].
    rewrite !generateVariants_length, dimension_appended.
    destruct (NewProductPage.colorOptions state) as [|c colors].
    + cbn [NewProductPage.dimension]. lia.
    + lia.
Qed.

Lemma variants_count_after_add_witness :
  List.length
    (NewProductPage.variants
       (NewProductPage.addColorOption (NewProductPage.mkForm None None None)
          (NewProductPage.mkPageState ["Red"]%string ["8GB"; "16GB"]%string [] [])
          (Some "Blue"%string))) = 4.
Proof.
  rewrite (variants_count_after_add
             (NewProductPage.mkForm None None None) (NewProductPage.mkForm None None None)
             (NewProductPage.mkPageState ["Red"]%string ["8GB"; "16GB"]%string [] [])
             "Blue"%string).
  - reflexivity.
  - discriminate.
  - intros [H | []]. discriminate H.
Defined.




(** ** Editing variants *)

Lemma with_field_id (variant : ProductVariant.t) (field : NewProductPage.VariantField)
    (value : JS.number) :
  ProductVariant.id (NewProductPage.with_field variant field value) =
    ProductVariant.id variant.
Proof. destruct field; reflexivity. Qed.

(** X15.  How edits of variants compose.  [updateVariant] keeps the ids and
    axis values of all variants; with an id that no variant has it returns
    the list it was given; a second edit of the same field of the same id
    overrides the first; and two edits of different ids, or of different
    fields, give the same list in either order. *)
Theorem updateVariant_composition (variants : list ProductVariant.t) :
  (forall variantId field value,
     map NewProductPage.shape
       (NewProductPage.updateVariant variants variantId field value) =
     map NewProductPage.shape variants)
  /\ (forall variantId field value,
        ~ In variantId (map ProductVariant.id variants) ->
        NewProductPage.updateVariant variants variantId field value = variants)
  /\ (forall variantId field value value',
        NewProductPage.updateVariant
          (NewProductPage.updateVariant variants variantId field value)
          variantId field value' =
        NewProductPage.updateVariant variants variantId field value')
  /\ (forall variantId field value variantId' field' value',
        variantId <> variantId' \/ field <> field' ->
        NewProductPage.updateVariant
          (NewProductPage.updateVariant variants variantId field value)
          variantId' field' value' =
        NewProductPage.updateVariant
          (NewProductPage.updateVariant variants variantId' field' value')
          variantId field value).
Proof.
  split; [|split; [|split]].
  - intros variantId field value. apply updateVariant_shapes.
  - intros variantId field value Habsent.
    unfold NewProductPage.updateVariant.
    rewrite <- (map_id variants) at 2. apply map_ext_in. intros variant Hin.
    destruct (String.eqb_spec (ProductVariant.id variant) variantId) as [Heq | _];
      [|reflexivity].
    exfalso. apply Habsent. rewrite <- Heq. apply in_map. exact Hin.
  - intros variantId field value value'.
    unfold NewProductPage.updateVariant. rewrite map_map. apply map_ext. intros variant.
    destruct (ProductVariant.id variant =? variantId)%string eqn:Heq.
    + rewrite with_field_id, Heq. destruct field; reflexivity.
    + rewrite Heq. reflexivity.
  - intros variantId field value variantId' field' value' Hdistinct.
    unfold NewProductPage.updateVariant. rewrite !map_map. apply map_ext. intros variant.
    destruct (ProductVariant.id variant =? variantId)%string eqn:Heq;
      destruct (ProductVariant.id variant =? variantId')%string eqn:Heq';
      rewrite ?with_field_id, ?Heq, ?Heq'; try reflexivity.
    apply String.eqb_eq in Heq, Heq'.
    destruct Hdistinct as [Hids | Hfields]; [congruence|].
    destruct field, field'; try reflexivity; contradiction.
Qed.

(** ** The category filter *)

Lemma isProductInCategory_cases (cats : list Category.t) (product : Product.t)
    (categoryId : string) :
  ProductsPage.isProductInCategory cats product categoryId = true <->
  categoryId = ""%string
  \/ ProductsPage.references product categoryId
  \/ exists node d,
       ProductsPage.findCategory categoryId cats = Some node
       /\ In d (Category.nodes node)
       /\ ProductsPage.references product (Category.id d).
Proof.
  destruct (String.eqb_spec categoryId "") as [-> | Hne].
  - split; [auto | intros _; reflexivity].
  - rewrite (isProductInCategory_unfold cats product categoryId Hne).
    rewrite orb_true_iff, referencesb_true, findCategory_node_with_id.
    split.
    + intros [Href | Hnode]; [auto|].
      destruct (ProductsPage.node_with_id categoryId cats) as [node|]; [|discriminate].
      apply existsb_exists in Hnode. destruct Hnode as [d [Hd Href]].
      apply referencesb_true in Href.
      right; right. exists node, d. auto.
    + intros [Hempty | [Href | [node [d [Hfind [Hd Href]]]]]].
      * contradiction.
      * left. exact Href.
      * right. rewrite Hfind. apply existsb_exists. exists d.
        split; [exact Hd | apply referencesb_true; exact Href].
Qed.

(** X16.  [isProductInCategory] is true exactly in three cases: no category
    is selected (the empty id); one of the product's three category fields
    is the selected id; or the search finds a category with the selected id
    and one of the product's three category fields is the id of that
    category or of one of its descendants. *)
Theorem isProductInCategory_iff (cats : list Category.t) (product : Product.t)
    (categoryId : string) :
  ProductsPage.isProductInCategory cats product categoryId = true <->
  categoryId = ""%string
  \/ ProductsPage.references product categoryId
  \/ exists node d,
       ProductsPage.findCategory categoryId cats = Some node
       /\ In d (Category.nodes node)
       /\ ProductsPage.references product (Category.id d).
Proof.
  exact (isProductInCategory_cases cats product categoryId).
Qed.

(** The descendants of a node of a subtree are nodes of the subtree. *)
Lemma nodes_transitive (c d : Category.t) :
  In d (Category.nodes c) -> forall e, In e (Category.nodes d) -> In e (Category.nodes c).
Proof.
  induction c as [i n l p subs IH] using Category_tree_ind.
  intros [Hd | Hd] e He.
  - subst d. exact He.
  - right. cbn [Category.subCategories] in *.
    apply in_flat_map in Hd. destruct Hd as [x [Hx Hd]].
    apply in_flat_map. exists x. split; [exact Hx|].
    rewrite Forall_forall in IH. exact (IH x Hx Hd e He).
Qed.

Lemma forest_nodes_closed (cats : list Category.t) (c d : Category.t) :
  In c (Category.forest_nodes cats) -> In d (Category.nodes c) ->
  In d (Category.forest_nodes cats).
Proof.
  unfold Category.forest_nodes. intros Hc Hd.
  apply in_flat_map in Hc. destruct Hc as [root [Hroot Hc]].
  apply in_flat_map. exists root. split; [exact Hroot|].
  exact (nodes_transitive root c Hc d Hd).
Qed.

Lemma find_unique {A : Type} (key : A -> string) (l : list A) (a : A) :
  NoDup (map key l) ->
  In a l ->
  find (fun c => (key c =? key a)%string) l = Some a.
Proof.
  induction l as [|x l IH]; intros Hnodup Hin; [contradiction|].
  cbn [map] in Hnodup. apply NoDup_cons_iff in Hnodup. destruct Hnodup as [Hx Hnodup].
  cbn [find]. destruct Hin as [-> | Hin].
  - rewrite String.eqb_refl. reflexivity.
  - destruct (String.eqb_spec (key x) (key a)) as [Heq | _].
    + exfalso. apply Hx. rewrite Heq. apply in_map. exact Hin.
    + exact (IH Hnodup Hin).
Qed.

(** X17.  With pairwise distinct category ids, the filter is monotone along
    the hierarchy: a product that is in a category (one with a non-empty
    id) is in every category of the tree above it, so the product list
    filtered by an ancestor contains the list filtered by a descendant, for
    the same search query. *)
Theorem isProductInCategory_ancestor (toLowerCase : string -> string)
    (products : list Product.t) (cats : list Category.t) (searchQuery : string)
    (ancestor d : Category.t) :
  ProductsPage.unique_ids cats ->
  In ancestor (Category.forest_nodes cats) ->
  In d (Category.nodes ancestor) ->
  Category.id d <> ""%string ->
  (forall product,
     ProductsPage.isProductInCategory cats product (Category.id d) = true ->
     ProductsPage.isProductInCategory cats product (Category.id ancestor) = true)
  /\ incl
       (ProductsPage.filteredProducts toLowerCase products cats searchQuery (Category.id d))
       (ProductsPage.filteredProducts toLowerCase products cats searchQuery
          (Category.id ancestor)).
Proof.
  intros Hunique Hancestor Hd Hnonblank.
  assert (Hmono : forall product,
            ProductsPage.isProductInCategory cats product (Category.id d) = true ->
            ProductsPage.isProductInCategory cats product (Category.id ancestor) = true).
  { intros product Hin.
    pose proof (forest_nodes_closed cats ancestor d Hancestor Hd) as Hdforest.
    apply isProductInCategory_cases in Hin.
    apply isProductInCategory_cases.
    destruct (String.eqb_spec (Category.id ancestor) "") as [Hempty | _]; [auto|].
    right; right. exists ancestor.
    rewrite findCategory_node_with_id. unfold ProductsPage.node_with_id.
    rewrite (find_unique Category.id _ ancestor Hunique Hancestor).
    destruct Hin as [Hempty | [Href | [node [e [Hfind [He Href]]]]]].
    - contradiction.
    - exists d. auto.
    - rewrite findCategory_node_with_id in Hfind. unfold ProductsPage.node_with_id in Hfind.
      rewrite (find_unique Category.id _ d Hunique Hdforest) in Hfind.
      injection Hfind as <-.
      exists e. split; [reflexivity|]. split; [|exact Href].
      exact (nodes_transitive ancestor d Hd e He). }
  split; [exact Hmono|].
  intros product Hlisted. unfold ProductsPage.filteredProducts in *.
  apply filter_In in Hlisted. destruct Hlisted as [Hin Hkeep].
  apply andb_true_iff in Hkeep. destruct Hkeep as [Hsearch Hcategory].
  apply filter_In. split; [exact Hin|].
  apply andb_true_iff. split; [exact Hsearch | exact (Hmono product Hcategory)].
Qed.

Lemma isProductInCategory_ancestor_witness :
  ProductsPage.isProductInCategory
    [Category.mk "A" "Phones" 1%float None
       [Category.mk "B" "Android" 2%float (Some "A")
          [Category.mk "D" "Tablets" 3%float (Some "B") []]]]%string
    (Product.mk (Some "p1") None "Tab" "X" None (Some "D") None)%string
    "A"%string = true.
Proof.
  refine (proj1 (isProductInCategory_ancestor (fun s => s) []
            [Category.mk "A" "Phones" 1%float None
               [Category.mk "B" "Android" 2%float (Some "A")
                  [Category.mk "D" "Tablets" 3%float (Some "B") []]]]%string
            ""%string
            (Category.mk "A" "Phones" 1%float None
               [Category.mk "B" "Android" 2%float (Some "A")
                  [Category.mk "D" "Tablets" 3%float (Some "B") []]])%string
            (Category.mk "B" "Android" 2%float (Some "A")
               [Category.mk "D" "Tablets" 3%float (Some "B") []])%string
            _ _ _ _)
            (Product.mk (Some "p1") None "Tab" "X" None (Some "D") None)%string _).
  - unfold ProductsPage.unique_ids. cbn.
    repeat constructor; cbn; intuition discriminate.
  - left. reflexivity.
  - right. left. reflexivity.
  - discriminate.
  - reflexivity.
Defined.

(** ** Product images *)

Lemma filter_not_index_from_past {A : Type} (arr : list A) (from index : nat) :
  index < from -> JS.filter_not_index_from from arr index = arr.
Proof.
  revert from. induction arr as [|x arr IH]; intros from Hlt; [reflexivity|].
  cbn [JS.filter_not_index_from].
  destruct (Nat.eqb_spec from index) as [-> | _]; [lia|].
  rewrite IH by lia. reflexivity.
Qed.

Lemma filter_not_index_from_split {A : Type} (arr : list A) (from index : nat) :
  from <= index ->
  JS.filter_not_index_from from arr index =
    firstn (index - from) arr ++ skipn (S (index - from)) arr.
Proof.
  revert from. induction arr as [|x arr IH]; intros from Hle.
  - cbn [JS.filter_not_index_from]. rewrite firstn_nil, skipn_nil. reflexivity.
  - cbn [JS.filter_not_index_from].
    destruct (Nat.eqb_spec from index) as [-> | Hne].
    + rewrite Nat.sub_diag. cbn [firstn skipn app].
      apply filter_not_index_from_past. lia.
    + rewrite (IH (S from)) by lia.
      replace (index - from) with (S (index - S from)) by lia.
      reflexivity.
Qed.

Lemma filter_not_index_from_length {A : Type} (arr : list A) (from index : nat) :
  List.length (JS.filter_not_index_from from arr index) <= List.length arr.
Proof.
  revert from. induction arr as [|x arr IH]; intros from; cbn [JS.filter_not_index_from].
  - apply Nat.le_refl.
  - destruct (from =? index)%nat; cbn [List.length]; specialize (IH (S from)); lia.
Qed.

Lemma image_step_bound (imageUrls : list string) (action : NewProductPage.ImageAction) :
  List.length imageUrls <= 3 ->
  List.length (NewProductPage.image_step imageUrls action) <= 3.
Proof.
  intros Hbound. destruct action as [[files|] | index];
    cbn [NewProductPage.image_step NewProductPage.handleImageUpload
         NewProductPage.removeImage].
  - destruct (Nat.ltb_spec 3 (List.length imageUrls + List.length files)) as [_ | Hfits].
    + exact Hbound.
    + cbn [NewProductPage.images_after fold_left]. rewrite length_app. exact Hfits.
  - exact Hbound.
  - unfold NewProductPage.removeImage, NewProductPage.images_after. cbn [fold_left].
    pose proof (filter_not_index_from_length imageUrls 0 index).
    unfold JS.filter_not_index. lia.
Qed.

(** X18.  The product holds at most three images: from a list of at most
    three, whatever files are uploaded and whatever images are removed, the
    list never grows beyond three, an upload that would exceed three being
    refused as a whole.  An accepted upload appends the new images in order,
    and removing the image at a position of the list takes out that one
    image and keeps the others in order. *)
Theorem images_at_most_three (imageUrls : list string)
    (actions : list NewProductPage.ImageAction) :
  List.length imageUrls <= 3 ->
  List.length (fold_left NewProductPage.image_step actions imageUrls) <= 3
  /\ (forall files,
        NewProductPage.image_step imageUrls (NewProductPage.Upload (Some files)) =
          if (List.length imageUrls + List.length files <=? 3)%nat
          then imageUrls ++ files
          else imageUrls)
  /\ (forall index,
        index < List.length imageUrls ->
        NewProductPage.image_step imageUrls (NewProductPage.Remove index) =
          firstn index imageUrls ++ skipn (S index) imageUrls
        /\ S (List.length (NewProductPage.image_step imageUrls (NewProductPage.Remove index))) =
             List.length imageUrls).
Proof.
  intros Hbound. split; [|split].
  - revert imageUrls Hbound.
    induction actions as [|action actions IH]; intros imageUrls Hbound; simpl.
    + exact Hbound.
    + apply IH. apply image_step_bound. exact Hbound.
  - intros files.
    cbn [NewProductPage.image_step NewProductPage.handleImageUpload].
    rewrite Nat.ltb_antisym.
    destruct (List.length imageUrls + List.length files <=? 3)%nat; reflexivity.
  - intros index Hindex.
    unfold NewProductPage.image_step, NewProductPage.removeImage,
      NewProductPage.images_after. cbn [fold_left].
    unfold JS.filter_not_index.
    rewrite filter_not_index_from_split by lia.
    rewrite Nat.sub_0_r. split; [reflexivity|].
    rewrite length_app, length_firstn, length_skipn. lia.
Qed.

Lemma images_at_most_three_witness :
  List.length
    (fold_left NewProductPage.image_step
       [ NewProductPage.Upload (Some ["blob:1"; "blob:2"]%string);
         NewProductPage.Upload (Some ["blob:3"; "blob:4"]%string);
         NewProductPage.Remove 0;
         NewProductPage.Upload (Some ["blob:5"; "blob:6"]%string) ]
       []) <= 3.
Proof.
  refine (proj1 (images_at_most_three [] _ _)).
  apply Nat.le_0_l.
Defined.

(** ** Expanded categories *)

(** X19.  [toggleCategory] flips the membership of the category in the
    expanded set and of no other id: toggling twice gives back the same
    set, and the list that stands for the set stays free of repetitions. *)
Theorem toggleCategory_flips (prev : list string) (categoryId : string) :
  (In categoryId (ManageCategories.toggleCategory prev categoryId) <->
   ~ In categoryId prev)
  /\ (forall other,
        other <> categoryId ->
        (In other (ManageCategories.toggleCategory prev categoryId) <-> In other prev))
  /\ (forall id,
        In id
          (ManageCategories.toggleCategory
             (ManageCategories.toggleCategory prev categoryId) categoryId) <->
        In id prev)
  /\ (NoDup prev -> NoDup (ManageCategories.toggleCategory prev categoryId)).
Proof.
  assert (Hflip : forall set id,
            In id (ManageCategories.toggleCategory set id) <-> ~ In id set).
  { intros set id. unfold ManageCategories.toggleCategory.
    destruct (JS.array_includes set id) eqn:Hinc.
    - apply array_includes_In in Hinc. rewrite filter_In, String.eqb_refl.
      cbn [negb]. split; [intros [_ H]; discriminate | contradiction].
    - assert (Hnot : ~ In id set)
        by (intros Hin; apply array_includes_In in Hin; congruence).
      rewrite in_app_iff. cbn [In]. tauto. }
  assert (Hother : forall set id other,
            other <> id ->
            (In other (ManageCategories.toggleCategory set id) <-> In other set)).
  { intros set id other Hne. unfold ManageCategories.toggleCategory.
    destruct (JS.array_includes set id).
    - rewrite filter_In, negb_true_iff, String.eqb_neq. tauto.
    - rewrite in_app_iff. cbn [In]. split; [|auto].
      intros [H | [H | []]]; [exact H | congruence]. }
  split; [apply Hflip|]. split; [intros other; apply Hother|]. split.
  - intros id. destruct (String.eqb_spec id categoryId) as [-> | Hne].
    + rewrite Hflip, Hflip.
      destruct (in_dec string_dec categoryId prev); tauto.
    + rewrite (Hother _ _ _ Hne). apply Hother. exact Hne.
  - intros Hnodup. unfold ManageCategories.toggleCategory.
    destruct (JS.array_includes prev categoryId) eqn:Hinc.
    + apply NoDup_filter. exact Hnodup.
    + apply NoDup_app; [exact Hnodup | repeat constructor; intros [] |].
      intros x Hin [<- | []]. apply array_includes_In in Hin. congruence.
Qed.

(** ** The specifications editor *)

Lemma get_set_own_property (obj : JS.object) (key value key' : string) :
  JS.get_property (JS.set_own_property obj key value) key' =
    if (key =? key')%string then Some value else JS.get_property obj key'.
Proof.
  unfold JS.get_property.
  induction obj as [|[k v] obj IH]; cbn [JS.set_own_property find fst].
  - destruct (key =? key')%string; reflexivity.
  - destruct (String.eqb_spec k key) as [-> | Hne]; cbn [find fst].
    + destruct (key =? key')%string; reflexivity.
    + destruct (String.eqb_spec k key') as [-> | Hne'].
      * destruct (String.eqb_spec key key') as [-> | _]; [contradiction | reflexivity].
      * exact IH.
Qed.

Lemma specsObject_app (rows : list Specification.t) (row : Specification.t) :
  NewProductPage.specsObject (rows ++ [row]) =
    if JS.truthy_string (Specification.key row)
       && JS.truthy_string (Specification.value row)
    then JS.set_property (NewProductPage.specsObject rows)
           (Specification.key row) (Specification.value row)
    else NewProductPage.specsObject rows.
Proof.
  unfold NewProductPage.specsObject, JS.reduce. rewrite fold_left_app. reflexivity.
Qed.

Lemma specsObject_get (rows : list Specification.t) (key : string) :
  key <> "__proto__"%string ->
  JS.get_property (NewProductPage.specsObject rows) key =
    option_map Specification.value
      (find (NewProductPage.filled_under key) (rev rows)).
Proof.
  intros Hkey.
  induction rows as [|row rows IH] using rev_ind; [reflexivity|].
  rewrite specsObject_app, rev_app_distr. cbn [rev app find].
  unfold NewProductPage.filled_under at 1.
  destruct (JS.truthy_string (Specification.key row)
            && JS.truthy_string (Specification.value row)) eqn:Hfilled.
  - unfold JS.set_property.
    destruct (String.eqb_spec (Specification.key row) "__proto__") as [Hproto | _].
    + destruct (String.eqb_spec (Specification.key row) key) as [Heq | _];
        [congruence|].
      cbn [andb]. exact IH.
    + rewrite get_set_own_property.
      rewrite <- andb_assoc, Hfilled, andb_true_r.
      destruct (Specification.key row =? key)%string; [reflexivity | exact IH].
  - rewrite <- andb_assoc, Hfilled, andb_false_r. exact IH.
Qed.

(** X20.  The object that [handleSpecificationChange] stores in the form
    has, under a key other than [__proto__], the value of the last row with
    that key among the rows whose key and value are both non-empty, and
    nothing when there is no such row: rows with an empty key or an empty
    value are left out, and of two rows with the same key the later one
    wins. *)
Theorem specsObject_lookup (rows : list Specification.t) (key : string) :
  key <> "__proto__"%string ->
  JS.get_property (NewProductPage.specsObject rows) key =
    option_map Specification.value
      (find (NewProductPage.filled_under key) (rev rows)).
Proof.
  exact (specsObject_get rows key).
Qed.

Lemma specsObject_lookup_witness :
  JS.get_property
    (NewProductPage.specsObject
       [ Specification.mk "Weight" "180g"; Specification.mk "" "x";
         Specification.mk "Weight" "190g"; Specification.mk "Size" "" ]%string)
    "Weight"%string = Some "190g"%string.
Proof.
  rewrite specsObject_lookup.
  - reflexivity.
  - discriminate.
Defined.

Lemma find_filled_under_none (rows : list Specification.t) (key : string) :
  (forall row, In row rows -> Specification.key row <> key) ->
  find (NewProductPage.filled_under key) rows = None.
Proof.
  intros Hno. induction rows as [|row rows IH]; [reflexivity|].
  cbn [find]. unfold NewProductPage.filled_under at 1.
  destruct (String.eqb_spec (Specification.key row) key) as [Heq | _].
  - exfalso. apply (Hno row); [left; reflexivity | exact Heq].
  - cbn [andb]. apply IH. intros r Hr. apply Hno. right. exact Hr.
Qed.

(** X21.  [removeSpecification] takes the row out of the editor and leaves
    the form's specifications as they are.  So when the form is in step
    with the rows and the removed row, at a position of the list, is the
    only one with its key, with a key and a value that are non-empty, the
    form still carries the removed row's entry, which the object of the
    rows that are left does not have. *)
Theorem removeSpecification_leaves_form (rows : list Specification.t) (index : nat)
    (row : Specification.t) (form : JS.object) :
  nth_error rows index = Some row ->
  form = NewProductPage.specsObject rows ->
  Specification.key row <> ""%string ->
  Specification.value row <> ""%string ->
  Specification.key row <> "__proto__"%string ->
  (forall j other,
     nth_error rows j = Some other -> j <> index ->
     Specification.key other <> Specification.key row) ->
  NewProductPage.specifications_after rows
    (NewProductPage.removeSpecification rows index) =
    firstn index rows ++ skipn (S index) rows
  /\ NewProductPage.form_specifications_after form
       (NewProductPage.removeSpecification rows index) = form
  /\ JS.get_property form (Specification.key row) = Some (Specification.value row)
  /\ JS.get_property
       (NewProductPage.specsObject
          (NewProductPage.specifications_after rows
             (NewProductPage.removeSpecification rows index)))
       (Specification.key row) = None.
Proof.
  intros Hrow Hform Hkey Hvalue Hproto Honly.
  assert (Hsplit : rows = firstn index rows ++ row :: skipn (S index) rows).
  { clear -Hrow. revert index Hrow.
    induction rows as [|x rows IH]; intros [|index] Hrow; try discriminate.
    - injection Hrow as ->. reflexivity.
    - cbn [firstn skipn app]. f_equal. apply IH. exact Hrow. }
  assert (Hlen : index < List.length rows)
    by (apply nth_error_Some; rewrite Hrow; discriminate).
  assert (Hremoved :
            NewProductPage.specifications_after rows
              (NewProductPage.removeSpecification rows index) =
            firstn index rows ++ skipn (S index) rows).
  { unfold NewProductPage.removeSpecification, NewProductPage.specifications_after.
    cbn [fold_left]. unfold JS.filter_not_index.
    rewrite filter_not_index_from_split by lia. rewrite Nat.sub_0_r. reflexivity. }
  split; [exact Hremoved|]. split; [reflexivity|]. split.
  - subst form. rewrite (specsObject_get rows _ Hproto).
    rewrite Hsplit at 1. rewrite rev_app_distr. cbn [rev]. rewrite <- app_assoc.
    rewrite find_app_split, find_filled_under_none.
    + cbn [app find]. unfold NewProductPage.filled_under.
      rewrite String.eqb_refl, (truthy_string_nonblank _ Hkey),
        (truthy_string_nonblank _ Hvalue).
      reflexivity.
    + intros other Hother. apply in_rev in Hother.
      apply In_nth_error in Hother. destruct Hother as [k Hk].
      assert (Hk' : nth_error rows (S index + k) = Some other).
      { rewrite <- Hk. clear. revert index.
        induction rows as [|x rows IH]; intros index.
        - rewrite skipn_nil, !nth_error_nil. reflexivity.
        - destruct index as [|index]; cbn [skipn Nat.add nth_error].
          + destruct rows; reflexivity.
          + apply IH. }
      apply (Honly (S index + k) other Hk'). lia.
  - rewrite Hremoved, (specsObject_get _ _ Hproto), find_filled_under_none;
      [reflexivity|].
    intros other Hother. apply in_rev in Hother. apply in_app_or in Hother.
    destruct Hother as [Hother | Hother].
    + apply In_nth_error in Hother. destruct Hother as [k Hk].
      assert (Hklt : k < index).
      { assert (k < List.length (firstn index rows))
          by (apply nth_error_Some; rewrite Hk; discriminate).
        rewrite length_firstn in H. lia. }
      rewrite nth_error_firstn in Hk.
      destruct (Nat.ltb_spec k index) as [_ | Hge]; [|lia].
      apply (Honly k other Hk). lia.
    + apply In_nth_error in Hother. destruct Hother as [k Hk].
      rewrite nth_error_skipn in Hk.
      apply (Honly (S index + k) other Hk). lia.
Qed.

Lemma removeSpecification_leaves_form_witness :
  JS.get_property
    (NewProductPage.form_specifications_after
       (NewProductPage.specsObject
          [Specification.mk "Weight" "180g"; Specification.mk "Size" "6in"]%string)
       (NewProductPage.removeSpecification
          [Specification.mk "Weight" "180g"; Specification.mk "Size" "6in"]%string 0))
    "Weight"%string = Some "180g"%string
  /\ JS.get_property
       (NewProductPage.specsObject
          (NewProductPage.specifications_after
             [Specification.mk "Weight" "180g"; Specification.mk "Size" "6in"]%string
             (NewProductPage.removeSpecification
                [Specification.mk "Weight" "180g"; Specification.mk "Size" "6in"]%string 0)))
       "Weight"%string = None.
Proof.
  destruct (removeSpecification_leaves_form
              [Specification.mk "Weight" "180g"; Specification.mk "Size" "6in"]%string 0
              (Specification.mk "Weight" "180g")%string
              (NewProductPage.specsObject
                 [Specification.mk "Weight" "180g"; Specification.mk "Size" "6in"]%string))
    as [_ [Hform [Hstale Hgone]]].
  - reflexivity.
  - reflexivity.
  - discriminate.
  - discriminate.
  - discriminate.
  - intros [|[|j]] other Hother Hj.
    + contradiction.
    + injection Hother as <-. discriminate.
    + destruct j; discriminate Hother.
  - split; [rewrite Hform; exact Hstale | exact Hgone].
Defined.

Lemma assign_at_spec (rows : list Specification.t) (index : nat)
    (field : NewProductPage.SpecificationField) (value : string) :
  match NewProductPage.assign_at rows index field value with
  | None => List.length rows <= index
  | Some newSpecs =>
      index < List.length rows
      /\ List.length newSpecs = List.length rows
      /\ forall j row,
           nth_error rows j = Some row ->
           nth_error newSpecs j =
             Some (if (j =? index)%nat
                   then NewProductPage.assign_field row field value
                   else row)
  end.
Proof.
  revert index. induction rows as [|x rows IH]; intros index.
  - cbn. apply Nat.le_0_l.
  - destruct index as [|index]; cbn [NewProductPage.assign_at].
    + split; [cbn; lia|]. split; [reflexivity|].
      intros [|j] row Hrow; cbn in *; [congruence | exact Hrow].
    + specialize (IH index).
      destruct (NewProductPage.assign_at rows index field value) as [newSpecs|];
        cbn [option_map].
      * destruct IH as [Hin [Hlen Hrows]].
        split; [cbn; lia|]. split; [cbn; congruence|].
        intros [|j] row Hrow; cbn in *; [exact Hrow | exact (Hrows j row Hrow)].
      * cbn. lia.
Qed.

(** X22.  [handleSpecificationChange] with an index that is not a position
    of the rows throws and stores nothing.  Otherwise it stores rows that
    differ from the rows before in the edited field of the row at the index
    only, and a form value that is in step with them: the object built from
    the stored rows. *)
Theorem handleSpecificationChange_in_step (rows : list Specification.t) (index : nat)
    (field : NewProductPage.SpecificationField) (value : string) (form : JS.object) :
  (List.length rows <= index ->
   NewProductPage.handleSpecificationChange rows index field value = None)
  /\ (index < List.length rows ->
      exists effects,
        NewProductPage.handleSpecificationChange rows index field value = Some effects
        /\ List.length (NewProductPage.specifications_after rows effects) = List.length rows
        /\ (forall j row,
              nth_error rows j = Some row ->
              nth_error (NewProductPage.specifications_after rows effects) j =
                Some (if (j =? index)%nat
                      then NewProductPage.assign_field row field value
                      else row))
        /\ NewProductPage.form_specifications_after form effects =
             NewProductPage.specsObject (NewProductPage.specifications_after rows effects)).
Proof.
  pose proof (assign_at_spec rows index field value) as Hspec.
  unfold NewProductPage.handleSpecificationChange.
  destruct (NewProductPage.assign_at rows index field value) as [newSpecs|].
  - destruct Hspec as [Hin [Hlen Hrows]]. split; [intros Hout; lia|].
    intros _. eexists. split; [reflexivity|].
    cbn [NewProductPage.specifications_after NewProductPage.form_specifications_after
         fold_left].
    auto.
  - split; [reflexivity|]. intros Hin. lia.
Qed.
